(** * Run coordinator of the streaming proxy: a shallow embedding

    The development follows the sources of the proxy:
    - [db.js]        the key-value store with expiry ([Module KV]);
    - [run.js]       the run coordinator ([Module Coordinator]);
    - [providers.js] the incremental event-stream readers ([Module SSE]) and
                     the request to Google ([Module Providers]);
    - [index.js]     the listener ([Module Server]).

    JavaScript strings are modelled by [string] (one [ascii] per code unit,
    so code units above 255 are outside the model), integers by [Z], the
    [runs] map and the store's table by [gmap]. A parsed message is read
    into the typed record that the coordinator works on by [Module Wire],
    which also says which messages the model leaves out. *)

From Stdlib Require Import ZArith Ascii String List Bool Lia.
From Stdlib Require Import DecimalString DecimalN DecimalPos DecimalFacts.
From Stdlib Require Import Sorting.Sorted Sorting.Permutation.
From stdpp Require Import base gmap strings list fin_maps.

Set Warnings "-register-all".

Open Scope Z_scope.
Open Scope string_scope.

(** ** Strings the way the code uses them *)

Module Str.

(** White space removed by [String.prototype.trim], restricted to the code
    units the model has: TAB, LF, VT, FF, CR, SPACE and NBSP. *)
Definition is_ws (c : ascii) : bool :=
  let n := nat_of_ascii c in
  ((9 <=? n)%nat && (n <=? 13)%nat) || (n =? 32)%nat || (n =? 160)%nat.

Fixpoint trimStart (s : string) : string :=
  match s with
  | EmptyString => EmptyString
  | String c s' => if is_ws c then trimStart s' else s
  end.

Fixpoint rev (s : string) : string :=
  match s with
  | EmptyString => EmptyString
  | String c s' => rev s' ++ String c EmptyString
  end.

Definition trimEnd (s : string) : string := rev (trimStart (rev s)).

(** [s.trim()] *)
Definition trim (s : string) : string := trimEnd (trimStart s).

(** [!s]: the empty string is the only falsy string. *)
Definition is_empty (s : string) : bool :=
  match s with EmptyString => true | _ => false end.

Fixpoint all_ws (s : string) : bool :=
  match s with
  | EmptyString => true
  | String c s' => is_ws c && all_ws s'
  end.

(** [s.startsWith(p)] *)
Definition startsWith (p s : string) : bool := String.prefix p s.

(** [s.substring(n)] for [0 <= n] *)
Fixpoint substring_from (n : nat) (s : string) : string :=
  match n, s with
  | O, _ => s
  | S n', EmptyString => EmptyString
  | S n', String _ s' => substring_from n' s'
  end.

(** [String(n)] for a natural number and [String(z)] for an integer *)
Definition of_N (n : N) : string := NilEmpty.string_of_uint (N.to_uint n).

Definition of_Z (z : Z) : string :=
  match z with
  | Z0 => "0"
  | Zpos p => of_N (Npos p)
  | Zneg p => "-" ++ of_N (Npos p)
  end.

Fixpoint repeat0 (n : nat) : string :=
  match n with
  | O => EmptyString
  | S n' => String "0" (repeat0 n')
  end.

(** [s.padStart(w, '0')] *)
Definition padStart0 (w : nat) (s : string) : string :=
  repeat0 (w - String.length s) ++ s.

(** The number that a run of digits stands for. *)
Definition decode (s : string) : option N :=
  option_map N.of_uint (NilEmpty.uint_of_string s).

End Str.

(** ** Parsed JSON values *)

(** The values that [JSON.parse] gives, and [undefined], which the code
    adds. [JNum z] is the number whose value is the integer [z] (the other
    numbers are outside the model); the fields of an object are in the
    order in which the object enumerates them, with one entry for each
    key. *)
Inductive jsval : Type :=
| JUndef
| JNull
| JBool (b : bool)
| JNum (z : Z)
| JStr (s : string)
| JArr (items : list jsval)
| JObj (fields : list (string * jsval)).

Module Js.

(** Property list of an object, in insertion order. *)
Fixpoint lookup (k : string) (fs : list (string * jsval)) : jsval :=
  match fs with
  | [] => JUndef
  | (k', v) :: fs' => if String.eqb k k' then v else lookup k fs'
  end.

(** [o[k] = v] on a property list: an existing key keeps its place. *)
Fixpoint assign (k : string) (v : jsval) (fs : list (string * jsval))
  : list (string * jsval) :=
  match fs with
  | [] => [(k, v)]
  | (k', v') :: fs' =>
      if String.eqb k k' then (k, v) :: fs' else (k', v') :: assign k v fs'
  end.

(** [v.k] for a name [k] that no built-in prototype defines ([content],
    [type], [text]): a [TypeError] ([None]) on [undefined] and [null],
    [undefined] on other primitives and on arrays. *)
Definition prop (v : jsval) (k : string) : option jsval :=
  match v with
  | JUndef | JNull => None
  | JObj fs => Some (lookup k fs)
  | _ => Some JUndef
  end.

(** Truthiness. *)
Definition truthy (v : jsval) : bool :=
  match v with
  | JUndef | JNull => false
  | JBool b => b
  | JNum z => negb (z =? 0)%Z
  | JStr s => negb (Str.is_empty s)
  | JArr _ | JObj _ => true
  end.

Definition isArray (v : jsval) : bool :=
  match v with JArr _ => true | _ => false end.

(** [v === 'text'] and the like *)
Definition is_str (lit : string) (v : jsval) : bool :=
  match v with JStr s => String.eqb s lit | _ => false end.

Fixpoint index_fields (i : N) (l : list jsval) : list (string * jsval) :=
  match l with
  | [] => []
  | v :: l' => (Str.of_N i, v) :: index_fields (N.succ i) l'
  end.

Fixpoint chars (s : string) : list jsval :=
  match s with
  | EmptyString => []
  | String c s' => JStr (String c EmptyString) :: chars s'
  end.

(** Own enumerable properties copied by an object spread [{...v}]. *)
Definition spread (v : jsval) : list (string * jsval) :=
  match v with
  | JObj fs => fs
  | JArr l => index_fields 0 l
  | JStr s => index_fields 0 (chars s)
  | _ => []
  end.

(** [JSON.parse(JSON.stringify(v))] for a value built from parsed JSON by
    the code: a field that holds [undefined] is left out of its object, an
    array item that is [undefined] becomes [null], everything else comes
    back as it went in. *)
Fixpoint json (v : jsval) : jsval :=
  match v with
  | JArr items =>
      JArr (List.map (fun x => match x with JUndef => JNull | _ => json x end)
                     items)
  | JObj fields =>
      JObj ((fix members (fs : list (string * jsval)) : list (string * jsval) :=
               match fs with
               | [] => []
               | (k, x) :: fs' =>
                   match x with
                   | JUndef => members fs'
                   | _ => (k, json x) :: members fs'
                   end
               end) fields)
  | _ => v
  end.

End Js.

(** ** Message sanitization ([sanitizeMessages], run.js) *)

Module Sanitize.

Definition dot_part : jsval := JObj [("type", JStr "text"); ("text", JStr ".")].

(** The filter callback
    [p => p.type !== 'text' || (p.text && p.text.trim().length > 0)];
    [None] is the [TypeError] of [p.type] on [null] or of calling [trim] on a
    truthy value that is not a string. *)
Definition keep_part (p : jsval) : option bool :=
  match Js.prop p "type" with
  | None => None
  | Some ty =>
      if negb (Js.is_str "text" ty) then Some true
      else match Js.prop p "text" with
           | None => None
           | Some t =>
               if negb (Js.truthy t) then Some false
               else match t with
                    | JStr s => Some (0 <? String.length (Str.trim s))%nat
                    | _ => None
                    end
           end
  end.

(** [content.filter(keep_part)] *)
Fixpoint filter_parts (ps : list jsval) : option (list jsval) :=
  match ps with
  | [] => Some []
  | p :: ps' =>
      match keep_part p with
      | None => None
      | Some b =>
          match filter_parts ps' with
          | None => None
          | Some r => Some (if b then p :: r else r)
          end
      end
  end.

(** [p => p.type === 'text'] on the parts that passed the filter *)
Definition is_text_part (p : jsval) : bool :=
  match Js.prop p "type" with
  | Some ty => Js.is_str "text" ty
  | None => false
  end.

Definition sanitize_content (content : jsval) : option jsval :=
  match content with
  | JStr s => Some (JStr (if Str.is_empty (Str.trim s) then "." else s))
  | JArr ps =>
      match filter_parts ps with
      | None => None
      | Some ps' =>
          if ((length ps' =? 0)%nat || negb (existsb is_text_part ps'))%bool
          then Some (JArr (ps' ++ [dot_part]))
          else Some (JArr ps')
      end
  | other => Some other
  end.

(** The [map] callback: [{ ...m, content }]. *)
Definition sanitize_message (m : jsval) : option jsval :=
  match Js.prop m "content" with
  | None => None
  | Some content =>
      match sanitize_content content with
      | None => None
      | Some content' => Some (JObj (Js.assign "content" content' (Js.spread m)))
      end
  end.

Fixpoint map_messages (ms : list jsval) : option (list jsval) :=
  match ms with
  | [] => Some []
  | m :: ms' =>
      match sanitize_message m with
      | None => None
      | Some m' =>
          match map_messages ms' with
          | None => None
          | Some r => Some (m' :: r)
          end
      end
  end.

Definition sanitizeMessages (messages : jsval) : option jsval :=
  match messages with
  | JArr ms => option_map JArr (map_messages ms)
  | _ => Some (JArr [])
  end.

(** *** What the result is checked against *)

(** A text part whose text is a string with something other than white
    space in it. *)
Definition nonblank_text_part (p : jsval) : bool :=
  match p with
  | JObj fs =>
      (Js.is_str "text" (Js.lookup "type" fs)
       && match Js.lookup "text" fs with
          | JStr t => negb (Str.all_ws t)
          | _ => false
          end)%bool
  | _ => false
  end.

(** A content with at least one non-empty text part: a string that is not
    blank, or an array with such a part. *)
Definition has_text (content : jsval) : bool :=
  match content with
  | JStr t => negb (Str.all_ws t)
  | JArr ps => existsb nonblank_text_part ps
  | _ => false
  end.

(** The parts that the filter keeps: everything but the text parts whose
    text is empty or blank. *)
Definition kept (p : jsval) : bool :=
  (negb (is_text_part p) || nonblank_text_part p)%bool.

(** Parts on which the filter callback does not throw. *)
Definition part_ok (p : jsval) : bool :=
  match p with
  | JUndef | JNull => false
  | JObj fs =>
      (negb (Js.is_str "text" (Js.lookup "type" fs))
       || negb (Js.truthy (Js.lookup "text" fs))
       || match Js.lookup "text" fs with JStr _ => true | _ => false end)%bool
  | _ => true
  end.

(** Messages on which the [map] callback does not throw. *)
Definition message_ok (m : jsval) : bool :=
  match Js.prop m "content" with
  | None => false
  | Some (JArr ps) => forallb part_ok ps
  | Some _ => true
  end.

(** The content of a message that is not [null] or [undefined]. *)
Definition content_of (m : jsval) : jsval :=
  default JUndef (Js.prop m "content").

(** What [sanitize_content] returns, case by case. *)
Definition content_spec (c c' : jsval) : Prop :=
  match c with
  | JStr s => c' = JStr (if Str.all_ws s then "." else s)
  | JArr ps =>
      c' = JArr (List.filter kept ps
                 ++ if existsb is_text_part (List.filter kept ps)
                    then [] else [dot_part])
  | _ => c' = c
  end.

(** What [sanitize_message] returns: the properties of the message with
    [content] replaced. *)
Definition message_spec (m m' : jsval) : Prop :=
  exists fs',
    m' = JObj fs'
    /\ content_spec (content_of m) (Js.lookup "content" fs')
    /\ (forall k, k <> "content" -> Js.lookup k fs' = Js.lookup k (Js.spread m)).

(** A content that [sanitizeMessages] rewrites: a string or an array. *)
Definition text_shaped (c : jsval) : bool :=
  match c with JStr _ | JArr _ => true | _ => false end.

End Sanitize.

(** ** The key-value store ([db.js]) *)

Module KV.

(** State of the matcher: between sets, or inside a [[...]] set with the
    character under test, the [^] flag, the match flag and the previous
    set member (for ranges). *)
Inductive gstate : Type :=
| GNormal
| GSet (c : ascii) (invert seen : bool) (prior : option ascii).

Definition in_range (lo c hi : ascii) : bool :=
  ((nat_of_ascii lo <=? nat_of_ascii c)%nat
   && (nat_of_ascii c <=? nat_of_ascii hi)%nat)%bool.

(** SQLite's [GLOB] operator, which [list] uses (the database engine is a
    dependency of the repository). [*] matches any run of
    characters, [?] one character, [[...]] one character of a set (with
    [^] for the complement, a leading [[]]] taken literally and [a-z]
    ranges); an unterminated set matches nothing. *)
Fixpoint glob_st (st : gstate) (p : string) {struct p} : string -> bool :=
  match st with
  | GNormal =>
      match p with
      | EmptyString => fun s => Str.is_empty s
      | String c p' =>
          if Ascii.eqb c "*" then
            fix star (s : string) : bool :=
              (glob_st GNormal p' s
               || match s with
                  | EmptyString => false
                  | String _ s' => star s'
                  end)%bool
          else if Ascii.eqb c "?" then
            fun s => match s with
                     | EmptyString => false
                     | String _ s' => glob_st GNormal p' s'
                     end
          else if Ascii.eqb c "[" then
            fun s =>
              match s with
              | EmptyString => false
              | String d s' =>
                  match p' with
                  | EmptyString => false
                  | String c2 q =>
                      if Ascii.eqb c2 "^" then
                        match q with
                        | EmptyString => false
                        | String c3 q' =>
                            if Ascii.eqb c3 "]"
                            then glob_st (GSet d true (Ascii.eqb d "]") None) q' s'
                            else glob_st (GSet d true false None) q s'
                        end
                      else if Ascii.eqb c2 "]"
                      then glob_st (GSet d false (Ascii.eqb d "]") None) q s'
                      else glob_st (GSet d false false None) p' s'
                  end
              end
          else
            fun s => match s with
                     | EmptyString => false
                     | String d s' => (Ascii.eqb c d && glob_st GNormal p' s')%bool
                     end
      end
  | GSet d invert seen prior =>
      match p with
      | EmptyString => fun _ => false
      | String c2 q =>
          if Ascii.eqb c2 "]" then
            if xorb seen invert then glob_st GNormal q else fun _ => false
          else
            match prior, q with
            | Some lo, String hi q' =>
                if (Ascii.eqb c2 "-" && negb (Ascii.eqb hi "]"))%bool
                then glob_st (GSet d invert (seen || in_range lo d hi) None) q'
                else glob_st (GSet d invert (seen || Ascii.eqb d c2) (Some c2)) q
            | _, _ => glob_st (GSet d invert (seen || Ascii.eqb d c2) (Some c2)) q
            end
      end
  end.

(** A text without the characters that [GLOB] treats specially. *)
Fixpoint plain (s : string) : bool :=
  match s with
  | EmptyString => true
  | String c s' =>
      (negb (Ascii.eqb c "*") && negb (Ascii.eqb c "?")
       && negb (Ascii.eqb c "[") && plain s')%bool
  end.

(** A text as the database engine's matcher reads it: up to the first NUL
    code unit. *)
Fixpoint c_str (s : string) : string :=
  match s with
  | EmptyString => EmptyString
  | String c s' =>
      if Ascii.eqb c "000" then EmptyString else String c (c_str s')
  end.

(** A text without the NUL code unit. *)
Fixpoint nul_free (s : string) : bool :=
  match s with
  | EmptyString => true
  | String c s' => (negb (Ascii.eqb c "000") && nul_free s')%bool
  end.

(** [k GLOB pat]: the engine's matcher is handed both texts as C strings,
    so the pattern and the key each end at their first NUL. *)
Definition glob (pat k : string) : bool :=
  glob_st GNormal (c_str pat) (c_str k).

(** [const TTL_MS = 20 * 60 * 1000] *)
Definition TTL_MS : Z := 20 * 60 * 1000.

Section Store.
Context {V : Type}.

(** The table [kv (k TEXT PRIMARY KEY, v TEXT, exp INTEGER)]: one row per
    key. A row holds the value that [JSON.parse] gives back. *)
Implicit Type t : gmap string (V * Z).

(** [SELECT v FROM kv WHERE k=? AND exp>?] *)
Definition get t (now : Z) (key : string) : option V :=
  match t !! key with
  | Some (v, exp) => if (now <? exp)%Z then Some v else None
  | None => None
  end.

(** [INSERT OR REPLACE INTO kv VALUES (?,?,?)] with [Date.now() + ttl] *)
Definition set_ttl t (now : Z) (key : string) (val : V) (ttl : Z)
  : gmap string (V * Z) :=
  <[key := (val, now + ttl)]> t.

Definition set t (now : Z) (key : string) (val : V) : gmap string (V * Z) :=
  set_ttl t now key val TTL_MS.

(** [DELETE FROM kv WHERE k=?] *)
Definition del t (key : string) : gmap string (V * Z) := delete key t.

Definition listed (now : Z) (prefix : string) (row : string * (V * Z)) : bool :=
  (glob (prefix ++ "*") row.1 && (now <? row.2.2)%Z)%bool.

(** [SELECT k FROM kv WHERE k GLOB ? AND exp>?] with [prefix + '*']; the
    rows come in the table's order, which the callers do not rely on. *)
Definition list t (now : Z) (prefix : string) : list string :=
  List.map fst (List.filter (listed now prefix) (map_to_list t)).

(** [DELETE FROM kv WHERE exp<?] *)
Definition prune t (now : Z) : gmap string (V * Z) :=
  filter (fun row => ~ (row.2.2 < now)%Z) t.

End Store.

End KV.

(** ** The run coordinator ([run.js]) *)

Inductive Phase : Type := Idle | Running | Done | Error | Evicted.

(** An image payload is opaque to the coordinator. The adapters take the
    payloads out of a [JSON.parse]d event, so a payload holds no
    [undefined]. *)
Definition Image : Type := jsval.

(** [{ seq, text, images? }] *)
Record Delta : Type := mkDelta {
  d_seq : Z;
  d_text : string;
  d_images : option (list Image);
}.

(** [{ rid, seq, phase, error, startedAt }] *)
Record Snapshot : Type := mkSnapshot {
  s_rid : string;
  s_seq : Z;
  s_phase : Phase;
  s_error : option string;
  s_startedAt : Z;
}.

(** What the store holds: the three kinds of value the coordinator writes. *)
Inductive Blob : Type :=
| BSnap (s : Snapshot)
| BDelta (d : Delta)
| BPrompt (messages : jsval).

(** Frames sent to a socket. *)
Inductive Frame : Type :=
| FDelta (seq : Z) (text : string) (images : option (list Image))
| FDone
| FErr (message : string).

(** Messages handed to [notify] (the duration in the text is left out). *)
Inductive Notice : Type :=
| NEnded (rid : string)
| NFailed (rid : string) (err : string).

(** What the lookup in [beginStream] selects: one of the four adapters, or
    the member of [Object.prototype] that the object literal inherits under
    the given name. *)
Inductive Provider : Type :=
| OpenAI
| Google
| Claude
| OpenRouter
| Inherited (name : string).

(** The request body: [or_body], or the one built from the envelope. Only
    the fields the coordinator reads are kept. *)
Record Body : Type := mkBody {
  b_model : option string;
  b_messages : jsval;
}.

(** A call of a provider function made by [beginStream]. *)
Record Call : Type := mkCall {
  c_rid : string;
  c_provider : Provider;
  c_apiKey : string;
  c_body : Body;
}.

(** The error an adapter throws: [e.name] and [e.message]. *)
Record JsError : Type := mkError {
  e_name : string;
  e_message : string;
}.

(** A socket message with its fields read the way [handleMessage] reads
    them, for the messages whose fields have the types that the clients
    send ([Wire.read] below builds it from the parsed JSON value, and says
    which values it leaves out): a text field is [None] when it is absent,
    [m_after] is the value of [+after] when that is a finite number (an
    integer here) and [None] when it is [NaN] or infinite. *)
Record Msg : Type := mkMsg {
  m_type : option string;
  m_rid : option string;
  m_apiKey : option string;
  m_or_body : option Body;
  m_model : option string;
  m_messages : jsval;
  m_after : option Z;
  m_provider : option string;
}.

(** The in-memory run. [sockets] is the [Set] in insertion order, a timer
    field is [true] while it holds a handle, [controller] is [Some aborted]. *)
Record Run : Type := mkRun {
  rid : string;
  seq : Z;
  phase : Phase;
  error : option string;
  sockets : list nat;
  pending : string;
  pendingImages : list Image;
  flushTimer : bool;
  controller : option bool;
  startedAt : Z;
  timeoutTimer : bool;
}.

(** Everything outside the [runs] map that the coordinator touches: the
    store, the clock, and the logs of frames sent, notices and provider
    calls. *)
Record Env : Type := mkEnv {
  kv : gmap string (Blob * Z);
  now : Z;
  sent : list (nat * Frame);
  notices : list Notice;
  calls : list Call;
}.

Record World : Type := mkWorld {
  runs : gmap string Run;
  env : Env;
}.

(** The view returned by [handlePoll]. *)
Record PollView : Type := mkPoll {
  p_rid : option string;
  p_seq : Z;
  p_phase : Phase;
  p_done : bool;
  p_error : option string;
  p_text : string;
  p_images : list Image;
}.

(** How a handler ends: it returns, or an exception escapes it. *)
Inductive Outcome : Type :=
| Returned (w : World)
| Thrown (w : World).

Module Coordinator.

Definition BATCH_MS : Z := 800.
Definition BATCH_BYTES : nat := 3400.
Definition MAX_RUN_MS : Z := 9 * 60 * 1000.
Definition CLEANUP_INTERVAL_MS : Z := 60000.

(** *** Field updates *)

Definition with_seq (v : Z) (r : Run) : Run :=
  mkRun (rid r) v (phase r) (error r) (sockets r) (pending r)
        (pendingImages r) (flushTimer r) (controller r) (startedAt r)
        (timeoutTimer r).
Definition with_phase (v : Phase) (r : Run) : Run :=
  mkRun (rid r) (seq r) v (error r) (sockets r) (pending r)
        (pendingImages r) (flushTimer r) (controller r) (startedAt r)
        (timeoutTimer r).
Definition with_error (v : option string) (r : Run) : Run :=
  mkRun (rid r) (seq r) (phase r) v (sockets r) (pending r)
        (pendingImages r) (flushTimer r) (controller r) (startedAt r)
        (timeoutTimer r).
Definition with_sockets (v : list nat) (r : Run) : Run :=
  mkRun (rid r) (seq r) (phase r) (error r) v (pending r)
        (pendingImages r) (flushTimer r) (controller r) (startedAt r)
        (timeoutTimer r).
Definition with_pending (v : string) (r : Run) : Run :=
  mkRun (rid r) (seq r) (phase r) (error r) (sockets r) v
        (pendingImages r) (flushTimer r) (controller r) (startedAt r)
        (timeoutTimer r).
Definition with_pendingImages (v : list Image) (r : Run) : Run :=
  mkRun (rid r) (seq r) (phase r) (error r) (sockets r) (pending r)
        v (flushTimer r) (controller r) (startedAt r) (timeoutTimer r).
Definition with_flushTimer (v : bool) (r : Run) : Run :=
  mkRun (rid r) (seq r) (phase r) (error r) (sockets r) (pending r)
        (pendingImages r) v (controller r) (startedAt r) (timeoutTimer r).
Definition with_controller (v : option bool) (r : Run) : Run :=
  mkRun (rid r) (seq r) (phase r) (error r) (sockets r) (pending r)
        (pendingImages r) (flushTimer r) v (startedAt r) (timeoutTimer r).
Definition with_timeoutTimer (v : bool) (r : Run) : Run :=
  mkRun (rid r) (seq r) (phase r) (error r) (sockets r) (pending r)
        (pendingImages r) (flushTimer r) (controller r) (startedAt r) v.

Definition with_kv (v : gmap string (Blob * Z)) (e : Env) : Env :=
  mkEnv v (now e) (sent e) (notices e) (calls e).
Definition with_now (v : Z) (e : Env) : Env :=
  mkEnv (kv e) v (sent e) (notices e) (calls e).
Definition with_sent (v : list (nat * Frame)) (e : Env) : Env :=
  mkEnv (kv e) (now e) v (notices e) (calls e).
Definition with_notices (v : list Notice) (e : Env) : Env :=
  mkEnv (kv e) (now e) (sent e) v (calls e).
Definition with_calls (v : list Call) (e : Env) : Env :=
  mkEnv (kv e) (now e) (sent e) (notices e) v.

(** *** The store seen from the coordinator *)

Definition kv_get (e : Env) (key : string) : option Blob :=
  KV.get (kv e) (now e) key.
(** What [JSON.parse(JSON.stringify(val))] gives for a value that the
    coordinator writes. A snapshot holds texts, numbers and [null], a delta
    a number, a text and image payloads, and they come back as they went
    in; the prompt can hold [content: undefined], which [sanitizeMessages]
    gives to a message without [content], and comes back without it. *)
Definition stored (b : Blob) : Blob :=
  match b with
  | BPrompt messages => BPrompt (Js.json messages)
  | BSnap _ | BDelta _ => b
  end.

(** [kv.set(key, val)]: the row holds the JSON text of [val], and [kv.get]
    parses it. *)
Definition kv_set (key : string) (b : Blob) (e : Env) : Env :=
  with_kv (KV.set (kv e) (now e) key (stored b)) e.
Definition kv_list (e : Env) (prefix : string) : list string :=
  KV.list (kv e) (now e) prefix.

Definition run_key (rid : string) : string := "run:" ++ rid.
Definition delta_prefix (rid : string) : string := "delta:" ++ rid ++ ":".
(** [`delta:${rid}:${String(seq).padStart(10, '0')}`] *)
Definition delta_key (rid : string) (seq : Z) : string :=
  delta_prefix rid ++ Str.padStart0 10 (Str.of_Z seq).
Definition prompt_key (rid : string) : string := "prompt:" ++ rid.

(** Fields of a stored value the way [meta] reads them ([snap.seq] and so
    on): [None] where the object has no such field. *)
Definition blob_seq (b : Blob) : option Z :=
  match b with
  | BSnap s => Some (s_seq s)
  | BDelta d => Some (d_seq d)
  | BPrompt _ => None
  end.
Definition blob_phase (b : Blob) : option Phase :=
  match b with BSnap s => Some (s_phase s) | _ => None end.
Definition blob_error (b : Blob) : option string :=
  match b with BSnap s => s_error s | _ => None end.
Definition blob_startedAt (b : Blob) : option Z :=
  match b with BSnap s => Some (s_startedAt s) | _ => None end.

(** A stored value read as a delta. Keys with the [delta:] prefix only ever
    receive deltas; another kind of value under such a key is skipped. *)
Definition as_delta (b : Blob) : option Delta :=
  match b with BDelta d => Some d | _ => None end.

(** *** [meta], [ensure], [saveSnapshot] *)

Definition restored (rid : string) (snap : Blob) : Run :=
  {| rid := rid;
     seq := default (-1) (blob_seq snap);
     phase := default Done (blob_phase snap);
     error := blob_error snap;
     sockets := [];
     pending := "";
     pendingImages := [];
     flushTimer := false;
     controller := None;
     startedAt := default 0 (blob_startedAt snap);
     timeoutTimer := false |}.

Definition meta (rid : string) (w : World) : option Run * World :=
  match runs w !! rid with
  | Some r => (Some r, w)
  | None =>
      match kv_get (env w) (run_key rid) with
      | None => (None, w)
      | Some snap =>
          let r := restored rid snap in
          (Some r, mkWorld (<[rid := r]> (runs w)) (env w))
      end
  end.

Definition fresh (rid : string) : Run :=
  {| rid := rid; seq := -1; phase := Idle; error := None; sockets := [];
     pending := ""; pendingImages := []; flushTimer := false;
     controller := None; startedAt := 0; timeoutTimer := false |}.

Definition ensure (rid : string) (w : World) : Run * World :=
  match meta rid w with
  | (Some r, w') => (r, w')
  | (None, w') =>
      let r := fresh rid in (r, mkWorld (<[rid := r]> (runs w')) (env w'))
  end.

Definition snapshot_of (r : Run) : Snapshot :=
  {| s_rid := rid r; s_seq := seq r; s_phase := phase r;
     s_error := error r; s_startedAt := startedAt r |}.

Definition saveSnapshot (r : Run) (e : Env) : Env :=
  kv_set (run_key (rid r)) (BSnap (snapshot_of r)) e.

(** *** [send], [bcast] *)

(** [ws.send] is called with the frame; an exception it raises is swallowed,
    so the log records the call. *)
Definition send (ws : nat) (f : Frame) (e : Env) : Env :=
  with_sent (sent e ++ [(ws, f)]) e.

Definition bcast (r : Run) (f : Frame) (e : Env) : Env :=
  fold_left (fun e' ws => send ws f e') (sockets r) e.

(** *** [flush], [queueDelta] *)

Definition has_pending (r : Run) : bool :=
  (negb (Str.is_empty (pending r)) || (0 <? length (pendingImages r))%nat)%bool.

Definition flush (force : bool) (r : Run) (e : Env) : Run * Env :=
  let r := with_flushTimer false r in
  let '(r, e) :=
    if has_pending r then
      let item :=
        {| d_seq := seq r + 1;
           d_text := pending r;
           d_images := if (0 <? length (pendingImages r))%nat
                       then Some (pendingImages r) else None |} in
      let r := with_seq (seq r + 1) r in
      let e := kv_set (delta_key (rid r) (d_seq item)) (BDelta item) e in
      let e := bcast r (FDelta (d_seq item) (d_text item) (d_images item)) e in
      (with_pendingImages [] (with_pending "" r), e)
    else (r, e) in
  if force then (r, saveSnapshot r e) else (r, e).

Definition no_images (images : option (list Image)) : bool :=
  match images with
  | None => true
  | Some l => (length l =? 0)%nat
  end.

Definition queueDelta (text : string) (images : option (list Image))
    (r : Run) (e : Env) : Run * Env :=
  if (Str.is_empty text && no_images images)%bool then (r, e)
  else
    let r := if Str.is_empty text then r
             else with_pending (pending r ++ text) r in
    let r := match images with
             | Some l => with_pendingImages (pendingImages r ++ l) r
             | None => r
             end in
    if ((BATCH_BYTES <=? String.length (pending r))%nat
        || (0 <? length (pendingImages r))%nat)%bool
    then flush false r e
    else if negb (flushTimer r) then (with_flushTimer true r, e)
    else (r, e).

(** *** [getDeltas], [replay] *)

(** [Array.prototype.sort] with [(a, b) => a.seq - b.seq] is a stable sort
    by [seq]; insertion from the right keeps that order of equal keys. *)
Fixpoint insert_by_seq (x : Delta) (l : list Delta) : list Delta :=
  match l with
  | [] => [x]
  | y :: l' =>
      if (d_seq x <=? d_seq y)%Z then x :: l else y :: insert_by_seq x l'
  end.

Fixpoint sort_by_seq (l : list Delta) : list Delta :=
  match l with
  | [] => []
  | x :: l' => insert_by_seq x (sort_by_seq l')
  end.

(** Ascending order of [seq]. *)
Definition seq_le (a b : Delta) : Prop := (d_seq a <= d_seq b)%Z.

(** Strictly ascending order of [seq]. *)
Definition seq_lt (a b : Delta) : Prop := (d_seq a < d_seq b)%Z.

(** [keys.map(k => kv.get(k)).filter(Boolean)] *)
Definition fetch (e : Env) (keys : list string) : list Blob :=
  omap (kv_get e) keys.

Definition getDeltas (rid : string) (e : Env) : list Delta :=
  sort_by_seq (omap as_delta (fetch e (kv_list e (delta_prefix rid)))).

Definition frame_of (d : Delta) : Frame :=
  FDelta (d_seq d) (d_text d) (d_images d).

(** [r.error || 'The run was terminated unexpectedly.'] *)
Definition error_text (r : Run) : string :=
  match error r with
  | Some m => if Str.is_empty m then "The run was terminated unexpectedly." else m
  | None => "The run was terminated unexpectedly."
  end.

(** The frame that closes a replay, if the phase has one. *)
Definition terminal_frame (r : Run) : option Frame :=
  match phase r with
  | Done => Some FDone
  | Error | Evicted => Some (FErr (error_text r))
  | Idle | Running => None
  end.

Definition replay (r : Run) (ws : nat) (after : Z) (e : Env) : Env :=
  let deltas := getDeltas (rid r) e in
  let e := fold_left
             (fun e' it => if (after <? d_seq it)%Z
                           then send ws (frame_of it) e' else e')
             deltas e in
  match terminal_frame r with
  | Some f => send ws f e
  | None => e
  end.

(** *** [stop], [fail] *)

Definition clearTimeoutTimer (r : Run) : Run := with_timeoutTimer false r.

(** [r.controller?.abort()] *)
Definition abort (r : Run) : Run :=
  with_controller (option_map (fun _ => true) (controller r)) r.

Definition notify (n : Notice) (e : Env) : Env :=
  with_notices (notices e ++ [n]) e.

Definition is_running (r : Run) : bool :=
  match phase r with Running => true | _ => false end.

Definition stop (r : Run) (e : Env) : Run * Env :=
  if negb (is_running r) then (r, e)
  else
    let r := clearTimeoutTimer r in
    let '(r, e) := flush true r e in
    let r := with_error None (with_phase Done r) in
    let r := abort r in
    let e := saveSnapshot r e in
    let e := bcast r FDone e in
    (r, notify (NEnded (rid r)) e).

(** [String(message || 'stream_failed')] *)
Definition error_string (message : string) : string :=
  if Str.is_empty message then "stream_failed" else message.

Definition fail (message : string) (r : Run) (e : Env) : Run * Env :=
  if negb (is_running r) then (r, e)
  else
    let r := clearTimeoutTimer r in
    let err := error_string message in
    let '(r, e) := queueDelta (String "010" (String "010" "Run failed: ") ++ err) None r e in
    let '(r, e) := flush true r e in
    let r := with_error (Some err) (with_phase Error r) in
    let r := abort r in
    let e := saveSnapshot r e in
    let e := bcast r (FErr err) e in
    (r, notify (NFailed (rid r) err) e).

(** [`Run timed out after ${MAX_RUN_MS / 60000} minutes.`] *)
Definition timeout_message : string :=
  "Run timed out after " ++ Str.of_Z (MAX_RUN_MS / 60000) ++ " minutes.".

(** *** [beginStream] *)

Definition lower (c : ascii) : ascii :=
  let n := nat_of_ascii c in
  if ((65 <=? n)%nat && (n <=? 90)%nat)%bool then ascii_of_nat (n + 32) else c.

Fixpoint prefix_ci (p s : string) : bool :=
  match p, s with
  | EmptyString, _ => true
  | String _ _, EmptyString => false
  | String a p', String b s' => (Ascii.eqb (lower a) (lower b) && prefix_ci p' s')%bool
  end.

Fixpoint contains_ci (p s : string) : bool :=
  (prefix_ci p s
   || match s with
      | EmptyString => false
      | String _ s' => contains_ci p s'
      end)%bool.

(** [e?.name === 'AbortError' || /abort/i.test(msg)] *)
Definition is_abort (err : JsError) (msg : string) : bool :=
  (String.eqb (e_name err) "AbortError" || contains_ci "abort" msg)%bool.

(** The names that an object literal inherits from [Object.prototype]. *)
Definition inherited (name : string) : bool :=
  existsb (String.eqb name)
    ["constructor"; "toString"; "toLocaleString"; "valueOf";
     "hasOwnProperty"; "isPrototypeOf"; "propertyIsEnumerable"; "__proto__";
     "__defineGetter__"; "__defineSetter__"; "__lookupGetter__";
     "__lookupSetter__"].

(** [{ openai, google, claude }[provider] || streamOpenRouter]. The lookup
    finds the three own members and the inherited ones, which are all
    truthy; every other name gives [undefined] and so [streamOpenRouter]. *)
Definition providerFn (provider : string) : Provider :=
  if String.eqb provider "openai" then OpenAI
  else if String.eqb provider "google" then Google
  else if String.eqb provider "claude" then Claude
  else if inherited provider then Inherited provider
  else OpenRouter.

(** How the awaited provider call ends. *)
Inductive Settled : Type :=
| Resolved
| Rejected (err : JsError).

(** The [catch] and [finally] blocks of [beginStream], run when the provider
    call settles. *)
Definition beginStream_settle (how : Settled) (r : Run) (e : Env) : Run * Env :=
  let '(r, e) :=
    match how with
    | Resolved => (r, e)
    | Rejected err =>
        if is_running r then
          let msg := error_string (e_message err) in
          if negb (is_abort err msg) then fail msg r e else (r, e)
        else (r, e)
    end in
  if is_running r then stop r e else (r, e).

(** The call of the provider function at the start of [beginStream]. For
    an adapter, the call returns a promise, [handleMessage] returns with the
    run in flight, and the run ends when the promise settles ([ESettle]
    below). An inherited member is no adapter: it returns or throws at
    once, with a value and a message that depend on the JavaScript engine,
    and the run ends before any other event; the model logs the call and
    leaves that end to an [ESettle] event as well, so what is stated about
    the world right after a [begin] assumes [adapter_named]. *)
Definition beginStream_call (r : Run) (apiKey : string) (body : Body)
    (provider : string) (e : Env) : Env :=
  with_calls (calls e ++ [mkCall (rid r) (providerFn provider) apiKey body]) e.

(** *** The periodic sweep *)

Definition sweep_one (w : World) (entry : string * Run) : World :=
  let '(uid, r) := entry in
  if is_running r then
    if (negb (startedAt r =? 0)%Z && (MAX_RUN_MS <? now (env w) - startedAt r)%Z)%bool
    then let '(r', e') := fail timeout_message r (env w) in
         mkWorld (<[uid := r']> (runs w)) e'
    else w
  else if (length (sockets r) =? 0)%nat
       then mkWorld (delete uid (runs w)) (env w)
       else w.

(** The [setInterval] callback. The runs are visited in the order of the map
    here and in insertion order in the source; the two differ only in how
    the effects of several runs that time out in one sweep interleave. *)
Definition sweep (w : World) : World :=
  fold_left sweep_one (map_to_list (runs w)) w.

(** *** [addSocket], [removeSocket] *)

Definition set_add (ws : nat) (l : list nat) : list nat :=
  if existsb (Nat.eqb ws) l then l else l ++ [ws].

Definition set_delete (ws : nat) (l : list nat) : list nat :=
  List.filter (fun x => negb (Nat.eqb ws x)) l.

Definition addSocket (uid : string) (ws : nat) (w : World) : World :=
  let '(r, w) := ensure uid w in
  mkWorld (<[uid := with_sockets (set_add ws (sockets r)) r]> (runs w)) (env w).

Definition removeSocket (uid : string) (ws : nat) (w : World) : World :=
  match runs w !! uid with
  | Some r =>
      mkWorld (<[uid := with_sockets (set_delete ws (sockets r)) r]> (runs w)) (env w)
  | None => w
  end.

(** *** [handleMessage] *)

Definition str_truthy (o : option string) : bool :=
  match o with
  | Some s => negb (Str.is_empty s)
  | None => false
  end.

(** [or_body || (model && Array.isArray(messages)
                 ? { model, messages, stream: true, ...msg } : null)] *)
Definition body_of (msg : Msg) : option Body :=
  match m_or_body msg with
  | Some b => Some b
  | None =>
      if (str_truthy (m_model msg) && Js.isArray (m_messages msg))%bool
      then Some (mkBody (m_model msg) (m_messages msg))
      else None
  end.

(** [Array.isArray(body.messages) && body.messages.length !== 0] *)
Definition nonempty_array (v : jsval) : bool :=
  match v with
  | JArr (_ :: _) => true
  | _ => false
  end.

(** [msg.type === lit] *)
Definition type_is (lit : string) (msg : Msg) : bool :=
  match m_type msg with
  | Some t => String.eqb t lit
  | None => false
  end.

Definition store (uid : string) (re : Run * Env) (w : World) : World :=
  mkWorld (<[uid := re.1]> (runs w)) re.2.

Definition handleMessage (uid : string) (ws : nat) (msg : Msg) (w : World)
  : Outcome :=
  let '(r, w) := ensure uid w in
  if type_is "stop" msg then
    match m_rid msg with
    | Some mr => if String.eqb mr (rid r)
                 then Returned (store uid (stop r (env w)) w)
                 else Returned w
    | None => Returned w
    end
  else if negb (type_is "begin" msg) then
    Returned (mkWorld (runs w) (send ws (FErr "bad_type") (env w)))
  else
    match m_rid msg, m_apiKey msg, body_of msg with
    | Some msgRid, Some apiKey, Some body =>
      if (Str.is_empty msgRid || Str.is_empty apiKey
          || negb (nonempty_array (b_messages body)))%bool
      then Returned (mkWorld (runs w) (send ws (FErr "missing_fields") (env w)))
      else
        match Sanitize.sanitizeMessages (b_messages body) with
        | None => Thrown w
        | Some messages =>
          let body := mkBody (b_model body) messages in
          if (is_running r && negb (String.eqb msgRid (rid r)))%bool then
            Returned (mkWorld (runs w) (send ws (FErr "busy") (env w)))
          else if (String.eqb msgRid (rid r)
                   && negb match phase r with Idle => true | _ => false end)%bool
          then
            Returned (mkWorld (runs w)
                        (replay r ws (default (-1) (m_after msg)) (env w)))
          else
            let r := mkRun msgRid (-1) Running None (sockets r) "" []
                           (flushTimer r) (Some false) (now (env w)) true in
            let e := kv_set (prompt_key (rid r)) (BPrompt messages) (env w) in
            let e := saveSnapshot r e in
            let e := beginStream_call r apiKey body
                       (if str_truthy (m_provider msg)
                        then default "" (m_provider msg) else "openrouter") e in
            Returned (store uid (r, e) w)
        end
    | _, _, _ =>
      Returned (mkWorld (runs w) (send ws (FErr "missing_fields") (env w)))
    end.

(** *** [handlePoll] *)

Definition sentinel : PollView :=
  {| p_rid := None; p_seq := -1; p_phase := Idle; p_done := false;
     p_error := None; p_text := ""; p_images := [] |}.

Definition is_terminal (ph : Phase) : bool :=
  match ph with Done | Error | Evicted => true | _ => false end.

Definition is_error (ph : Phase) : bool :=
  match ph with Error | Evicted => true | _ => false end.

(** [deltas.map(d => d.text).join('')] *)
Definition join_text (ds : list Delta) : string :=
  fold_right (fun d acc => d_text d ++ acc) "" ds.

(** [deltas.flatMap(d => d.images || [])] *)
Definition all_images (ds : list Delta) : list Image :=
  flat_map (fun d => default [] (d_images d)) ds.

Definition handlePoll (uid : string) (w : World) : PollView * World :=
  match meta uid w with
  | (None, w') => (sentinel, w')
  | (Some r, w') =>
      let deltas := getDeltas (rid r) (env w') in
      ({| p_rid := Some (rid r);
          p_seq := seq r;
          p_phase := phase r;
          p_done := is_terminal (phase r);
          p_error := if is_error (phase r) then Some (error_text r) else None;
          p_text := join_text deltas ++ pending r;
          p_images := all_images deltas ++ pendingImages r |}, w')
  end.

(** *** What the handlers are checked against *)

Definition sanitizes (v : jsval) : bool :=
  match Sanitize.sanitizeMessages v with Some _ => true | None => false end.

(** A [begin] message that gets past the checks at the head of
    [handleMessage]: [rid] and [apiKey] are present and not empty, the body
    has a non-empty messages array, and sanitizing it does not throw. *)
Definition accepted (msg : Msg) : bool :=
  (type_is "begin" msg && str_truthy (m_rid msg) && str_truthy (m_apiKey msg)
   && match body_of msg with
      | Some b => nonempty_array (b_messages b) && sanitizes (b_messages b)
      | None => false
      end)%bool.

(** The [provider] field of the message names an adapter: it is absent or
    empty, or a name that the object literal of [beginStream] does not
    inherit. *)
Definition adapter_named (msg : Msg) : bool :=
  negb (inherited (default "" (m_provider msg))).

(** The frames that close a replay. *)
Definition terminal_frames (ws : nat) (r : Run) : list (nat * Frame) :=
  match terminal_frame r with
  | Some f => [(ws, f)]
  | None => []
  end.

(** A row of the table that holds a live delta listed under the prefix of
    [rid], with [seq] above the cursor. *)
Definition replayable (e : Env) (rid : string) (after : Z)
    (row : string * (Blob * Z)) : bool :=
  (KV.listed (now e) (delta_prefix rid) row
   && match as_delta row.2.1 with
      | Some d => (after <? d_seq d)%Z
      | None => false
      end)%bool.

(** A row of the table that has not expired, whose key starts with
    [delta:<rid>:] and which holds a delta with [seq] above the cursor. *)
Definition under_prefix (e : Env) (rid : string) (after : Z)
    (row : string * (Blob * Z)) : bool :=
  (String.prefix (delta_prefix rid) row.1 && (now e <? row.2.2)%Z
   && match as_delta row.2.1 with
      | Some d => (after <? d_seq d)%Z
      | None => false
      end)%bool.

(** The delta that [fail] persists: the pending text with the trailer. *)
Definition failure_delta (r : Run) (err : string) : Delta :=
  {| d_seq := seq r + 1;
     d_text := pending r ++ String "010" (String "010" "Run failed: ") ++ err;
     d_images := if (0 <? length (pendingImages r))%nat
                 then Some (pendingImages r) else None |}.

(** *** Events *)

(** What can happen to the coordinator: the exported entry points called by
    the listener, the callbacks of a provider call ([onDelta], settling),
    the two timers of a run, the periodic sweep, and the passing of time.
    A callback or timer of a run is addressed by the uid of the run. *)
Inductive Event : Type :=
| EOpen (uid : string) (ws : nat)
| EClose (uid : string) (ws : nat)
| EMessage (uid : string) (ws : nat) (msg : Msg)
| EPoll (uid : string)
| EDelta (uid : string) (text : string) (images : option (list Image))
| EFlushTimer (uid : string)
| ESettle (uid : string) (how : Settled)
| ETimeout (uid : string)
| ESweep
| ETick (dt : Z).

Definition on_run (uid : string) (f : Run -> Env -> Run * Env) (w : World)
  : World :=
  match runs w !! uid with
  | Some r => store uid (f r (env w)) w
  | None => w
  end.

Definition world_of (o : Outcome) : World :=
  match o with Returned w | Thrown w => w end.

Definition step (w : World) (ev : Event) : World :=
  match ev with
  | EOpen uid ws => addSocket uid ws w
  | EClose uid ws => removeSocket uid ws w
  | EMessage uid ws msg => world_of (handleMessage uid ws msg w)
  | EPoll uid => (handlePoll uid w).2
  | EDelta uid text images => on_run uid (queueDelta text images) w
  | EFlushTimer uid =>
      on_run uid (fun r e => if flushTimer r then flush false r e else (r, e)) w
  | ESettle uid how => on_run uid (beginStream_settle how) w
  | ETimeout uid =>
      on_run uid (fun r e => if (timeoutTimer r && is_running r)%bool
                             then fail timeout_message r e else (r, e)) w
  | ESweep => sweep w
  | ETick dt => mkWorld (runs w) (with_now (now (env w) + dt) (env w))
  end.

Definition run_events (evs : list Event) (w : World) : World :=
  fold_left step evs w.

(** The process at start-up: no run, an empty store, nothing sent. *)
Definition initial : World :=
  mkWorld ∅ (mkEnv ∅ 0 [] [] []).

(** The operations on a run that can assign a [seq]: the callbacks and
    timers of a run, and [stop] and [fail]. *)
Inductive RunOp : Type :=
| OQueue (text : string) (images : option (list Image))
| OFlush (force : bool)
| OStop
| OFail (message : string)
| OSettle (how : Settled).

Definition apply_op (op : RunOp) (r : Run) (e : Env) : Run * Env :=
  match op with
  | OQueue text images => queueDelta text images r e
  | OFlush force => flush force r e
  | OStop => stop r e
  | OFail message => fail message r e
  | OSettle how => beginStream_settle how r e
  end.

(** A key of a delta row. *)
Definition is_delta_key (k : string) : bool := String.prefix "delta:" k.

(** The store after an operation that assigned no [seq]: the delta rows are
    the ones before. *)
Definition deltas_kept (e e' : Env) : Prop :=
  forall k, is_delta_key k = true -> kv e' !! k = kv e !! k.

(** The store after an operation that assigned [seq r + 1]: one delta row
    was written, under the key of that [seq], and it holds that [seq]. *)
Definition delta_added (r : Run) (e e' : Env) : Prop :=
  (exists d, kv e' !! delta_key (rid r) (seq r + 1)
             = Some (BDelta d, now e + KV.TTL_MS)
             /\ d_seq d = seq r + 1)
  /\ forall k, is_delta_key k = true -> k <> delta_key (rid r) (seq r + 1) ->
               kv e' !! k = kv e !! k.

(** What an operation on a run may do to [seq] and to the delta rows. *)
Definition seq_step (r : Run) (e : Env) (re : Run * Env) : Prop :=
  rid re.1 = rid r
  /\ ((seq re.1 = seq r /\ deltas_kept e re.2)
      \/ (seq re.1 = seq r + 1 /\ delta_added r e re.2)).

(** A [begin] message that starts a run on [r]: the run is not busy with
    another [rid] and the message is not a replay request. *)
Definition starts_run (r : Run) (msgRid : string) : bool :=
  (negb (is_running r && negb (String.eqb msgRid (rid r)))
   && negb (String.eqb msgRid (rid r)
            && negb match phase r with Idle => true | _ => false end))%bool.

(** *** A run from its [begin] to its end *)

(** The delta rows of a run of [id] that began at time [t0], as the list [ds]
    has them: the delta at position [i] has [seq] [i] and is stored under the
    key of [i] with an expiry of at least [t0 + TTL_MS]; and every row listed
    under the prefix of [id] that was live after [t0] is one of these. *)
Definition Rows (id : string) (t0 : Z) (ds : list Delta) (e : Env) : Prop :=
  t0 <= now e
  /\ (forall (i : nat) (d : Delta),
        ds !! i = Some d ->
        d_seq d = Z.of_nat i
        /\ exists exp, kv e !! delta_key id (Z.of_nat i) = Some (BDelta d, exp)
                       /\ t0 + KV.TTL_MS <= exp)
  /\ (forall (k : string) (v : Blob) (exp : Z),
        kv e !! k = Some (v, exp) ->
        KV.glob (delta_prefix id ++ "*") k = true ->
        t0 < exp ->
        exists (i : nat) (d : Delta),
          ds !! i = Some d /\ k = delta_key id (Z.of_nat i) /\ v = BDelta d).

(** A change of the store that keeps the delta rows of [id]. *)
Definition rows_kept (id : string) (t0 : Z) (e e' : Env) : Prop :=
  forall ds, Rows id t0 ds e -> Rows id t0 ds e'.

(** The run of [id] after its provider delivered the text [T] and the images
    [I]: what is persisted and what is pending make up [T] and [I]. *)
Definition RunInv (id : string) (t0 : Z) (T : string) (I : list Image)
    (r : Run) (e : Env) : Prop :=
  rid r = id
  /\ exists ds,
       seq r = Z.of_nat (length ds) - 1
       /\ Rows id t0 ds e
       /\ join_text ds ++ pending r = T
       /\ (all_images ds ++ pendingImages r)%list = I.

(** The keys of the deltas [0 .. n-1] of [id]. *)
Definition keys_upto (id : string) (n : nat) : list string :=
  List.map (fun i => delta_key id (Z.of_nat i)) (List.seq 0 n).

(** Run ids apart: [rid'] is not [id] and does not start with [id] followed
    by a colon, so that no delta key of [rid'] starts with [delta:<id>:]. *)
Definition apart (id rid' : string) : bool :=
  negb (String.prefix (id ++ ":") (rid' ++ ":")).

(** The run of every other uid has a [rid] apart from [id]. *)
Definition others_apart (uid id : string) (w : World) : Prop :=
  forall u r, u <> uid -> runs w !! u = Some r -> apart id (rid r) = true.

(** The world while the run of [uid] is in flight, and once it is done. *)
Definition running_world (uid id : string) (t0 : Z) (T : string)
    (I : list Image) (w : World) : Prop :=
  exists r, runs w !! uid = Some r /\ phase r = Running /\ startedAt r = t0
            /\ RunInv id t0 T I r (env w).

Definition done_world (uid id : string) (t0 : Z) (T : string)
    (I : list Image) (w : World) : Prop :=
  exists r, runs w !! uid = Some r /\ phase r = Done /\ error r = None
            /\ pending r = "" /\ pendingImages r = []
            /\ RunInv id t0 T I r (env w).

(** [msg.rid === id] *)
Definition rid_is (id : string) (msg : Msg) : bool :=
  match m_rid msg with
  | Some s => String.eqb s id
  | None => false
  end.

(** A message on a socket of the run's uid that neither stops the run nor
    begins another one: it is not a [stop] with the run's [rid], and if it
    is a [begin] it carries the run's [rid]. *)
Definition harmless (id : string) (msg : Msg) : bool :=
  (negb (type_is "stop" msg && rid_is id msg)
   && (negb (type_is "begin" msg) || rid_is id msg))%bool.

(** A message whose [rid], if it has one, is apart from [id]. *)
Definition rid_apart (id : string) (msg : Msg) : bool :=
  match m_rid msg with
  | Some s => apart id s
  | None => true
  end.

(** What may happen around the run of [id] of [uid] without touching it:
    sockets of the uid that open and close, polls of the uid, harmless
    messages of the uid, any event of another uid that is apart from [id]
    (with a message whose [rid] is apart from [id]), sweeps, and time that
    passes. *)
Definition bystander (uid id : string) (ev : Event) : bool :=
  match ev with
  | EOpen u _ | EClose u _ | EPoll u => (String.eqb u uid || apart id u)%bool
  | EMessage u _ msg =>
      if String.eqb u uid then harmless id msg
      else (apart id u && rid_apart id msg)%bool
  | EDelta u _ _ | EFlushTimer u | ESettle u _ | ETimeout u =>
      (negb (String.eqb u uid) && apart id u)%bool
  | ESweep => true
  | ETick dt => (0 <=? dt)%Z
  end.

(** The events while the provider call of the run is in flight: the calls
    of its [onDelta], the firings of its flush timer, and the bystanders. *)
Definition in_flight (uid id : string) (ev : Event) : bool :=
  match ev with
  | EDelta u _ _ | EFlushTimer u => (String.eqb u uid || apart id u)%bool
  | _ => bystander uid id ev
  end.

(** The text and the images that the calls of [onDelta] of the run of [uid]
    carried. *)
Fixpoint texts_of (uid : string) (evs : list Event) : string :=
  match evs with
  | [] => ""
  | EDelta u text _ :: evs' =>
      if String.eqb u uid then text ++ texts_of uid evs' else texts_of uid evs'
  | _ :: evs' => texts_of uid evs'
  end.

Fixpoint images_of (uid : string) (evs : list Event) : list Image :=
  match evs with
  | [] => []
  | EDelta u _ images :: evs' =>
      if String.eqb u uid
      then (default [] images ++ images_of uid evs')%list
      else images_of uid evs'
  | _ :: evs' => images_of uid evs'
  end.

(** At every sweep among the events, the uid has a run with a socket
    attached (so a sweep does not evict it). *)
Fixpoint held (uid : string) (evs : list Event) (w : World) : bool :=
  match evs with
  | [] => true
  | ev :: evs' =>
      (match ev with
       | ESweep =>
           match runs w !! uid with
           | Some r => negb (length (sockets r) =? 0)%nat
           | None => false
           end
       | _ => true
       end
       && held uid evs' (step w ev))%bool
  end.

(** The time that passes during the events. *)
Fixpoint elapsed (evs : list Event) : Z :=
  match evs with
  | [] => 0
  | ETick dt :: evs' => dt + elapsed evs'
  | _ :: evs' => elapsed evs'
  end.

(** The two ways a run fails: the provider call is rejected with an error
    that is not a cancellation, or the timeout timer of the run fires. *)
Inductive Failure (uid : string) (r : Run) : Event -> string -> Prop :=
| FailRejected (err : JsError) :
    is_abort err (error_string (e_message err)) = false ->
    Failure uid r (ESettle uid (Rejected err)) (e_message err)
| FailTimeout :
    timeoutTimer r = true ->
    Failure uid r (ETimeout uid) timeout_message.

End Coordinator.

(** ** Socket messages ([websocket.message] in [index.js], and the reads of
    [msg] in [handleMessage]) *)

Module Wire.
Import Coordinator.

(** [msg.k] for one of the names that [handleMessage] reads ([type], [rid],
    [apiKey], [or_body], [model], [messages], [after], [provider]), on a
    value other than [null]: the field of an object, and [undefined] on a
    number, a text, a boolean and an array. *)
Definition field (k : string) (v : jsval) : jsval :=
  match v with
  | JObj fs => Js.lookup k fs
  | _ => JUndef
  end.

(** A value compared with a text by [===]: only a text can be equal. *)
Definition text (v : jsval) : option string :=
  match v with
  | JStr s => Some s
  | _ => None
  end.

(** A field that the code tests for truth and then uses as a text: the
    text, [Some None] for another falsy value (which the code treats as an
    absent field), and [None] for a truthy value that is not a text, which
    the model leaves out. *)
Definition text_or_absent (v : jsval) : option (option string) :=
  match v with
  | JStr s => Some (Some s)
  | _ => if Js.truthy v then None else Some None
  end.

(** [or_body]: a falsy value is no body; an object is read at [model] and
    [messages] (a [model] that is neither a text nor absent is left out of
    the model); any other truthy value has no [messages]. *)
Definition body (v : jsval) : option (option Body) :=
  if Js.truthy v then
    match v with
    | JObj fs =>
        match Js.lookup "model" fs with
        | JStr m => Some (Some (mkBody (Some m) (Js.lookup "messages" fs)))
        | JUndef => Some (Some (mkBody None (Js.lookup "messages" fs)))
        | _ => None
        end
    | _ => Some (Some (mkBody None JUndef))
    end
  else Some None.

Definition is_digit (c : ascii) : bool :=
  let n := nat_of_ascii c in ((48 <=? n)%nat && (n <=? 57)%nat)%bool.

Fixpoint all_digits (s : string) : bool :=
  match s with
  | EmptyString => true
  | String c s' => (is_digit c && all_digits s')%bool
  end.

(** The value of a run of one to fifteen decimal digits (a number that a
    double holds exactly). *)
Definition digits (s : string) : option Z :=
  match s with
  | EmptyString => None
  | String _ _ =>
      if (all_digits s && (String.length s <=? 15)%nat)%bool
      then option_map Z.of_N (Str.decode s) else None
  end.

(** A text that starts the way a numeric literal can: a digit, a point, or
    the [I] of [Infinity]. *)
Definition numeric_head (s : string) : bool :=
  match s with
  | EmptyString => false
  | String c _ => (is_digit c || Ascii.eqb c "." || Ascii.eqb c "I")%bool
  end.

(** [+s] for a text. The text is trimmed; the empty text is 0; a run of
    one to fifteen decimal digits, with a sign or without, is its value; a
    text that does not start like a numeric literal (after a sign, if it
    has one) is [NaN] ([Some None]). The other texts (longer runs of
    digits, texts with a point, an exponent, a radix prefix, [Infinity], or
    digits followed by something else) are left out of the model
    ([None]). *)
Definition number_of_text (s : string) : option (option Z) :=
  let unsigned (sign : Z) (t : string) : option (option Z) :=
    match digits t with
    | Some n => Some (Some (sign * n))
    | None =>
        match t with
        | EmptyString => Some None
        | String _ _ => if numeric_head t then None else Some None
        end
    end in
  match Str.trim s with
  | EmptyString => Some (Some 0)
  | String c t' as t =>
      if Ascii.eqb c "+" then
        match t' with
        | EmptyString => Some None
        | String d _ =>
            if (Ascii.eqb d "+" || Ascii.eqb d "-")%bool then Some None
            else unsigned 1 t'
        end
      else if Ascii.eqb c "-" then
        match t' with
        | EmptyString => Some None
        | String d _ =>
            if (Ascii.eqb d "+" || Ascii.eqb d "-")%bool then Some None
            else unsigned (-1) t'
        end
      else unsigned 1 t
  end.

(** [+v] when the result is a finite number, [Some None] when it is [NaN],
    and [None] where the model leaves the coercion out: the texts above, an
    array with items, and an object with a [toString] of its own (which is
    not callable in a parsed value, so the coercion throws). *)
Definition to_number (v : jsval) : option (option Z) :=
  match v with
  | JUndef => Some None
  | JNull => Some (Some 0)
  | JBool b => Some (Some (if b then 1 else 0))
  | JNum z => Some (Some z)
  | JStr s => number_of_text s
  | JArr [] => Some (Some 0)
  | JArr (_ :: _) => None
  | JObj fs =>
      if existsb (fun f : string * jsval => String.eqb f.1 "toString") fs
      then None else Some None
  end.

(** [Number.isFinite(+after) ? +after : -1] *)
Definition cursor (after : jsval) : option Z :=
  option_map (default (-1)) (to_number after).

(** The message that [handleMessage] sees in a parsed value other than
    [null]. A [stop] is read at [type] and [rid], a message of another type
    at [type] alone, and a [begin] at every field; [None] for a [begin]
    with a field that the model leaves out. *)
Definition read (v : jsval) : option Msg :=
  let ty := text (field "type" v) in
  if Js.is_str "stop" (field "type" v) then
    Some (mkMsg ty (text (field "rid" v)) None None None JUndef None None)
  else if negb (Js.is_str "begin" (field "type" v)) then
    Some (mkMsg ty None None None None JUndef None None)
  else
    match text_or_absent (field "rid" v), text_or_absent (field "apiKey" v),
          body (field "or_body" v), text_or_absent (field "model" v),
          to_number (field "after" v), text_or_absent (field "provider" v) with
    | Some rid, Some apiKey, Some or_body, Some model, Some after, Some provider =>
        Some (mkMsg ty rid apiKey or_body model (field "messages" v) after
                provider)
    | _, _, _, _, _, _ => None
    end.

(** [handleMessage(uid, ws, msg)] on the value that [JSON.parse] gave. On
    [null] the read of [msg.type] throws, after [ensure] has materialized
    the run of the uid; nothing is sent. [None] for a message that the
    model leaves out. *)
Definition handle (uid : string) (ws : nat) (v : jsval) (w : World)
  : option Outcome :=
  match v with
  | JUndef | JNull => Some (Thrown (ensure uid w).2)
  | _ => option_map (fun msg => handleMessage uid ws msg w) (read v)
  end.

End Wire.

(** ** A JSON reader *)

(** [JSON.parse] on the texts used in the examples below: objects, arrays,
    strings with escapes, integers and the three literals. A number with a
    fraction or an exponent and a [\u] escape above 255 are not covered
    (the reader gives [None] on them). *)
Module Json.

Definition dquote : ascii := "034"%char.

(** A text written with ['] where the JSON has a double quote. *)
Fixpoint quoted (s : string) : string :=
  match s with
  | EmptyString => EmptyString
  | String c s' => String (if Ascii.eqb c "'" then dquote else c) (quoted s')
  end.

Definition is_space (c : ascii) : bool :=
  let n := nat_of_ascii c in
  ((n =? 32) || (n =? 9) || (n =? 10) || (n =? 13))%nat.

Fixpoint skip_ws (s : string) : string :=
  match s with
  | EmptyString => EmptyString
  | String c s' => if is_space c then skip_ws s' else s
  end.

Definition hex_digit (c : ascii) : option nat :=
  let n := nat_of_ascii c in
  if ((48 <=? n) && (n <=? 57))%nat then Some (n - 48)%nat
  else if ((97 <=? n) && (n <=? 102))%nat then Some (n - 87)%nat
  else if ((65 <=? n) && (n <=? 70))%nat then Some (n - 55)%nat
  else None.

Definition hex4 (a b c d : ascii) : option ascii :=
  match hex_digit a, hex_digit b, hex_digit c, hex_digit d with
  | Some x, Some y, Some z, Some w =>
      let n := (((x * 16 + y) * 16 + z) * 16 + w)%nat in
      if (n <? 256)%nat then Some (ascii_of_nat n) else None
  | _, _, _, _ => None
  end.

Definition simple_escape (c : ascii) : option ascii :=
  if Ascii.eqb c dquote then Some dquote
  else if Ascii.eqb c "\" then Some "\"%char
  else if Ascii.eqb c "/" then Some "/"%char
  else if Ascii.eqb c "b" then Some "008"%char
  else if Ascii.eqb c "f" then Some "012"%char
  else if Ascii.eqb c "n" then Some "010"%char
  else if Ascii.eqb c "r" then Some "013"%char
  else if Ascii.eqb c "t" then Some "009"%char
  else None.

(** The characters of a string literal after its opening quote. *)
Fixpoint string_body (s : string) : option (string * string) :=
  match s with
  | EmptyString => None
  | String c s' =>
      if Ascii.eqb c dquote then Some (EmptyString, s')
      else if Ascii.eqb c "\" then
        match s' with
        | String e s2 =>
            if Ascii.eqb e "u" then
              match s2 with
              | String h1 (String h2 (String h3 (String h4 s3))) =>
                  match hex4 h1 h2 h3 h4, string_body s3 with
                  | Some ch, Some (r, rest) => Some (String ch r, rest)
                  | _, _ => None
                  end
              | _ => None
              end
            else
              match simple_escape e, string_body s2 with
              | Some ch, Some (r, rest) => Some (String ch r, rest)
              | _, _ => None
              end
        | EmptyString => None
        end
      else if (nat_of_ascii c <? 32)%nat then None
      else match string_body s' with
           | Some (r, rest) => Some (String c r, rest)
           | None => None
           end
  end.

Definition is_digit (c : ascii) : bool :=
  let n := nat_of_ascii c in ((48 <=? n) && (n <=? 57))%nat.

Fixpoint digits (acc : N) (s : string) : N * string :=
  match s with
  | String c s' =>
      if is_digit c
      then digits (acc * 10 + N.of_nat (nat_of_ascii c - 48)) s'
      else (acc, s)
  | EmptyString => (acc, s)
  end.

(** An integer literal; [None] where a fraction or an exponent follows. *)
Definition number (s : string) : option (Z * string) :=
  let '(neg, s1) := match s with
                    | String c s' => if Ascii.eqb c "-" then (true, s') else (false, s)
                    | EmptyString => (false, s)
                    end in
  match s1 with
  | String c s2 =>
      if negb (is_digit c) then None
      else
        let '(n, rest) := if Ascii.eqb c "0" then (0%N, s2) else digits 0 s1 in
        match rest with
        | String d _ =>
            if (is_digit d || Ascii.eqb d "." || Ascii.eqb d "e" || Ascii.eqb d "E")%bool
            then None
            else Some (if neg then (- Z.of_N n)%Z else Z.of_N n, rest)
        | EmptyString => Some (if neg then (- Z.of_N n)%Z else Z.of_N n, rest)
        end
  | EmptyString => None
  end.

Definition literal (lit : string) (v : jsval) (s : string)
  : option (jsval * string) :=
  if String.prefix lit s
  then Some (v, Str.substring_from (String.length lit) s)
  else None.

Fixpoint value (fuel : nat) (s : string) {struct fuel} : option (jsval * string) :=
  match fuel with
  | O => None
  | S f =>
      match skip_ws s with
      | EmptyString => None
      | String c r =>
          if Ascii.eqb c "{" then
            match skip_ws r with
            | String c2 r2 =>
                if Ascii.eqb c2 "}" then Some (JObj [], r2) else members f [] (skip_ws r)
            | EmptyString => None
            end
          else if Ascii.eqb c "[" then
            match skip_ws r with
            | String c2 r2 =>
                if Ascii.eqb c2 "]" then Some (JArr [], r2) else elements f [] r
            | EmptyString => None
            end
          else if Ascii.eqb c dquote then
            match string_body r with
            | Some (str, rest) => Some (JStr str, rest)
            | None => None
            end
          else if Ascii.eqb c "t" then literal "true" (JBool true) (String c r)
          else if Ascii.eqb c "f" then literal "false" (JBool false) (String c r)
          else if Ascii.eqb c "n" then literal "null" JNull (String c r)
          else match number (String c r) with
               | Some (z, rest) => Some (JNum z, rest)
               | None => None
               end
      end
  end
with elements (fuel : nat) (acc : list jsval) (s : string) {struct fuel}
  : option (jsval * string) :=
  match fuel with
  | O => None
  | S f =>
      match value f s with
      | None => None
      | Some (v, rest) =>
          match skip_ws rest with
          | String c r =>
              if Ascii.eqb c "," then elements f (acc ++ [v]) r
              else if Ascii.eqb c "]" then Some (JArr (acc ++ [v]), r)
              else None
          | EmptyString => None
          end
      end
  end
with members (fuel : nat) (acc : list (string * jsval)) (s : string) {struct fuel}
  : option (jsval * string) :=
  match fuel with
  | O => None
  | S f =>
      match s with
      | String q r =>
          if negb (Ascii.eqb q dquote) then None
          else
            match string_body r with
            | None => None
            | Some (k, rest) =>
                match skip_ws rest with
                | String c r2 =>
                    if negb (Ascii.eqb c ":") then None
                    else
                      match value f r2 with
                      | None => None
                      | Some (v, rest2) =>
                          match skip_ws rest2 with
                          | String c3 r3 =>
                              if Ascii.eqb c3 ","
                              then members f (Js.assign k v acc) (skip_ws r3)
                              else if Ascii.eqb c3 "}"
                              then Some (JObj (Js.assign k v acc), r3)
                              else None
                          | EmptyString => None
                          end
                      end
                | EmptyString => None
                end
            end
      | EmptyString => None
      end
  end.

Definition parse (s : string) : option jsval :=
  match value (2 * String.length s + 2) s with
  | Some (v, rest) => if Str.is_empty (skip_ws rest) then Some v else None
  | None => None
  end.

End Json.

(** ** The event-stream readers ([providers.js]) *)

Module SSE.

Definition LF : ascii := "010"%char.

(** [s.split('\n')]: the pieces before each line feed, and the last piece. *)
Fixpoint split_lf (s : string) : list string * string :=
  match s with
  | EmptyString => ([], EmptyString)
  | String c s' =>
      let '(lines, rest) := split_lf s' in
      if Ascii.eqb c LF then (EmptyString :: lines, rest)
      else match lines with
           | [] => ([], String c rest)
           | l :: ls => (String c l :: ls, rest)
           end
  end.

(** [v?.k] for a name that no built-in prototype defines *)
Definition opt_prop (v : jsval) (k : string) : jsval :=
  match v with
  | JObj fs => Js.lookup k fs
  | _ => JUndef
  end.

(** [v?.[0]] *)
Definition opt_first (v : jsval) : jsval :=
  match v with
  | JArr (x :: _) => x
  | JStr (String c _) => JStr (String c EmptyString)
  | JObj fs => Js.lookup "0" fs
  | _ => JUndef
  end.

(** A call [onDelta(text, images)]. *)
Record Emit : Type := mkEmit {
  em_text : jsval;
  em_images : jsval;
}.

(** The variables of a reader loop and the calls of [onDelta] made so far;
    [finished] is set when the function has returned. *)
Record Reader : Type := mkReader {
  buf : string;
  hasReasoning : bool;
  hasContent : bool;
  emitted : list Emit;
  finished : bool;
}.

Definition start : Reader := mkReader "" false false [] false.

Definition emit (text images : jsval) (st : Reader) : Reader :=
  mkReader (buf st) (hasReasoning st) (hasContent st)
           (emitted st ++ [mkEmit text images]) (finished st).
Definition set_buf (b : string) (st : Reader) : Reader :=
  mkReader b (hasReasoning st) (hasContent st) (emitted st) (finished st).
Definition set_reasoning (st : Reader) : Reader :=
  mkReader (buf st) true (hasContent st) (emitted st) (finished st).
Definition set_content (st : Reader) : Reader :=
  mkReader (buf st) (hasReasoning st) true (emitted st) (finished st).
Definition set_finished (st : Reader) : Reader :=
  mkReader (buf st) (hasReasoning st) (hasContent st) (emitted st) true.

Definition newline : jsval := JStr (String LF EmptyString).

Section Readers.

(** [JSON.parse]; [None] when it throws. *)
Variable JSON_parse : string -> option jsval.

(** *** [streamOpenRouter] *)

(** [body.reasoning?.exclude === true] *)
Variable exclude : bool.

(** The body of [for (const line of lines)]. *)
Definition openrouter_line (st : Reader) (line : string) : Reader :=
  if finished st then st
  else if negb (Str.startsWith "data: " line) then st
  else
    let data := Str.trim (Str.substring_from 6 line) in
    if String.eqb data "[DONE]" then set_finished st
    else
      match JSON_parse data with
      | None => st
      | Some v =>
          match Js.prop v "choices" with
          | None => st
          | Some choices =>
              let delta := opt_prop (opt_first choices) "delta" in
              if negb (Js.truthy delta) then st
              else
                let reasoning := opt_prop delta "reasoning" in
                let content := opt_prop delta "content" in
                let images := opt_prop delta "images" in
                let st := if (Js.truthy reasoning && negb exclude)%bool
                          then set_reasoning (emit reasoning JUndef st)
                          else st in
                let st := if Js.truthy content then
                            let st := if (hasReasoning st && negb (hasContent st))%bool
                                      then emit newline JUndef st else st in
                            set_content (emit content JUndef st)
                          else st in
                if Js.truthy images then emit (JStr "") images st else st
          end
      end.

(** One turn of the [while] loop on a chunk that was read. *)
Definition openrouter_read (st : Reader) (chunk : string) : Reader :=
  if finished st then st
  else
    let '(lines, rest) := split_lf (buf st ++ chunk) in
    fold_left openrouter_line lines (set_buf rest st).

(** The loop over the chunks of the response, with [isRunning()] true at
    every turn. *)
Definition streamOpenRouter (chunks : list string) : Reader :=
  fold_left openrouter_read chunks start.

(** *** [streamGoogle] *)

(** The callback of [parts.forEach]; the flag is [false] when it throws, and
    the reader then keeps what the earlier parts did. *)
Definition google_part (st : Reader) (p : jsval) : Reader * bool :=
  match Js.prop p "thought" with
  | None => (st, false)
  | Some th =>
      let thought := opt_prop th "thought" in
      let st := if Js.truthy thought
                then set_reasoning (emit thought JUndef st) else st in
      let text := opt_prop p "text" in
      if Js.truthy text then
        let st := if (hasReasoning st && negb (hasContent st))%bool
                  then emit newline JUndef st else st in
        (set_content (emit text JUndef st), true)
      else (st, true)
  end.

Fixpoint google_parts (st : Reader) (ps : list jsval) : Reader :=
  match ps with
  | [] => st
  | p :: ps' =>
      let '(st', ok) := google_part st p in
      if ok then google_parts st' ps' else st'
  end.

(** The body of [for (const line of buf.split('\n'))]. *)
Definition google_line (st : Reader) (line : string) : Reader :=
  if negb (Str.startsWith "data: " line) then st
  else
    match JSON_parse (Str.substring_from 6 line) with
    | None => st
    | Some v =>
        let parts :=
          opt_prop (opt_prop (opt_first (opt_prop v "candidates")) "content") "parts" in
        match parts with
        | JArr ps => google_parts st ps
        | _ => st
        end
    end.

(** One turn of the [while] loop: every piece of the split buffer is
    visited, the last one included, and the buffer keeps what follows the
    last line feed. *)
Definition google_read (st : Reader) (chunk : string) : Reader :=
  let b := buf st ++ chunk in
  let '(lines, rest) := split_lf b in
  set_buf rest (fold_left google_line (lines ++ [rest]) st).

Definition streamGoogle (chunks : list string) : Reader :=
  fold_left google_read chunks start.

End Readers.

(** The stream that the chunks carry. *)
Definition joined (chunks : list string) : string :=
  fold_right String.append "" chunks.

(** Two readers that made the same calls and stand at the same point of the
    stream; the buffer of a reader that has returned does not count. *)
Definition same_output (a b : Reader) : Prop :=
  emitted a = emitted b
  /\ hasReasoning a = hasReasoning b
  /\ hasContent a = hasContent b
  /\ finished a = finished b
  /\ (finished a = false -> buf a = buf b).

(** One event of a Google response, with ['] for the double quote:
    a candidate with the single text part [hi]. *)
Definition google_frame : string :=
  Json.quoted "data: {'candidates':[{'content':{'parts':[{'text':'hi'}]}}]}".

Definition line_feed : string := String LF EmptyString.

End SSE.

(** ** Worlds and messages used in the examples *)

Module Examples.
Import Coordinator.

(** [[{role:"user", content:"hi"}]] *)
Definition hi : jsval :=
  JArr [JObj [("role", JStr "user"); ("content", JStr "hi")]].

(** [{type:"begin", rid, apiKey:"K", model:"m", messages:hi, after}] *)
Definition begin (rid : string) (after : option Z) : Msg :=
  mkMsg (Some "begin") (Some rid) (Some "K") None (Some "m") hi after None.

(** [{type:"begin", rid, after}]: no key, no body *)
Definition bare_begin (rid : string) (after : option Z) : Msg :=
  mkMsg (Some "begin") (Some rid) None None None JUndef after None.

(** The parsed value of
    [{"type":"begin","rid":rid,"apiKey":"K","model":"m","messages":hi,
      "after":after}] *)
Definition wire_begin (rid : string) (after : jsval) : jsval :=
  JObj [("type", JStr "begin"); ("rid", JStr rid); ("apiKey", JStr "K");
        ("model", JStr "m"); ("messages", hi); ("after", after)].

(** [{type:"stop", rid}] *)
Definition stop_msg (rid : string) : Msg :=
  mkMsg (Some "stop") (Some rid) None None None JUndef None None.

(** Socket 1 of user [u1] has begun run [r1]. *)
Definition w_running : World :=
  run_events [EOpen "u1" 1%nat; EMessage "u1" 1%nat (begin "r1" None)] initial.

(** The provider then delivered [hel] and [lo] and returned. *)
Definition w_done : World :=
  run_events [EDelta "u1" "hel" None; EDelta "u1" "lo" None;
              ESettle "u1" Resolved] w_running.

(** The run has the text [par] pending. *)
Definition w_par : World := run_events [EDelta "u1" "par" None] w_running.

Definition r_par : Run :=
  mkRun "r1" (-1) Running None [1%nat] "par" [] true (Some false) 0 true.

(** [new Error("boom")] *)
Definition boom : JsError := mkError "Error" "boom".

(** The socket closed and the sweep ran a minute later. *)
Definition w_evicted : World :=
  run_events [EClose "u1" 1%nat; ETick 60000; ESweep] w_done.

(** A second socket of [u1] then asked to resume [r1]. *)
Definition w_reconnected : World :=
  run_events [EOpen "u1" 2%nat; EMessage "u1" 2%nat (begin "r1" (Some (-1)))]
    w_evicted.

(** On [w_done], run [r2] was begun and ended, then [r1] was begun again and
    the provider delivered [x], flushed by the timer. *)
Definition w_reused : World :=
  run_events [EMessage "u1" 1%nat (begin "r2" None); ESettle "u1" Resolved;
              EMessage "u1" 1%nat (begin "r1" None);
              EDelta "u1" "x" None; EFlushTimer "u1"] w_done.

(** Twenty minutes after the end of the run, its socket still open. *)
Definition w_late : World := run_events [ETick 1200000] w_done.

(** Run [r1] of [u1] with two deltas: [hel], flushed by the timer, and [lo],
    flushed at the end. *)
Definition w_long : World :=
  run_events [EDelta "u1" "hel" None; EFlushTimer "u1"; EDelta "u1" "lo" None;
              ESettle "u1" Resolved] w_running.

(** User [u2] then ran a run with the same [rid]; its provider delivered
    [x] and returned. *)
Definition w_shared : World :=
  run_events [EOpen "u2" 2%nat; EMessage "u2" 2%nat (begin "r1" None);
              EDelta "u2" "x" None; ESettle "u2" Resolved] w_long.

(** Around run [r1] of [u1]: its socket opens, its provider delivers [hel];
    user [u2] connects and begins run [r2], whose provider delivers [zz]; a
    tenth of a second passes, the sweep runs, and the provider of [r1]
    delivers [lo]. *)
Definition crowd_events : list Event :=
  [EOpen "u1" 1%nat; EDelta "u1" "hel" None; EOpen "u2" 2%nat;
   EMessage "u2" 2%nat (begin "r2" None); EDelta "u2" "zz" None;
   ETick 100; ESweep; EDelta "u1" "lo" None].

(** After the end of [r1]: run [r2] ends, a second passes, the sweep runs,
    and the socket of [u1] asks for a replay from 0. *)
Definition late_events : list Event :=
  [ESettle "u2" Resolved; ETick 1000; ESweep;
   EMessage "u1" 1%nat (begin "r1" (Some 0))].

(** The same story for a user whose uid is also the [rid] of the run. *)
Definition w_same_evicted : World :=
  run_events [EOpen "r1" 1%nat; EMessage "r1" 1%nat (begin "r1" None);
              EDelta "r1" "hel" None; EDelta "r1" "lo" None;
              ESettle "r1" Resolved; EClose "r1" 1%nat; ETick 60000; ESweep]
    initial.

(** [new Error("")] *)
Definition silent : JsError := mkError "Error" "".

End Examples.

(** ** Keys of the store *)

Module Keyspace.

(** A [rid] without the separator of the delta keys. *)
Fixpoint colon_free (s : string) : bool :=
  match s with
  | EmptyString => true
  | String c s' => (negb (Ascii.eqb c ":") && colon_free s')%bool
  end.

End Keyspace.

(** ** The coordinator: what its operations are checked against *)

Module Lifecycle.
Import Coordinator.

(** The delta that a flush persists: the pending text and images under the
    next [seq]. *)
Definition pending_delta (r : Run) : Delta :=
  {| d_seq := seq r + 1;
     d_text := pending r;
     d_images := if (0 <? length (pendingImages r))%nat
                 then Some (pendingImages r) else None |}.

(** The run after a flush that persisted a delta. *)
Definition flushed (r : Run) : Run :=
  mkRun (rid r) (seq r + 1) (phase r) (error r) (sockets r) "" [] false
        (controller r) (startedAt r) (timeoutTimer r).

(** The run that [stop] leaves of a running run. *)
Definition stopped (r : Run) : Run :=
  mkRun (rid r) (if has_pending r then seq r + 1 else seq r) Done None
        (sockets r) "" [] false (option_map (fun _ => true) (controller r))
        (startedAt r) false.

(** The run that [fail] leaves of a running run. *)
Definition failed (message : string) (r : Run) : Run :=
  mkRun (rid r) (seq r + 1) Error (Some (error_string message)) (sockets r)
        "" [] false (option_map (fun _ => true) (controller r)) (startedAt r)
        false.

(** What the sweep does to one run at time [t]: a running run is kept, and
    failed when it began more than [MAX_RUN_MS] ago; another run is kept
    while it has sockets. *)
Definition overdue (t : Z) (r : Run) : bool :=
  (is_running r && negb (startedAt r =? 0)%Z
   && (MAX_RUN_MS <? t - startedAt r)%Z)%bool.

Definition swept (t : Z) (r : Run) : option Run :=
  if is_running r then
    Some (if overdue t r then failed timeout_message r else r)
  else if (length (sockets r) =? 0)%nat then None else Some r.

(** What holds of the buffers and the sockets of every run: no image is
    pending between two operations, fewer than [BATCH_BYTES] characters are
    pending, pending text has its flush timer armed, and no socket is
    registered twice. *)
Definition run_ok (r : Run) : Prop :=
  pendingImages r = []
  /\ (String.length (pending r) < BATCH_BYTES)%nat
  /\ (Str.is_empty (pending r) = false -> flushTimer r = true)
  /\ NoDup (sockets r).

(** A [begin] message with all its fields: [rid] and [apiKey] not empty, and
    a body whose messages are a non-empty array. *)
Definition complete (msg : Msg) : bool :=
  (str_truthy (m_rid msg) && str_truthy (m_apiKey msg)
   && match body_of msg with
      | Some b => nonempty_array (b_messages b)
      | None => false
      end)%bool.

(** Every run of a world is [run_ok]. *)
Definition world_ok (w : World) : Prop :=
  forall uid r, runs w !! uid = Some r -> run_ok r.

(** The worlds that the events lead to from start-up. *)
Definition reachable (w : World) : Prop :=
  exists evs, w = run_events evs initial.

End Lifecycle.

(** ** Streams and their lines *)

Module Lines.
Import SSE.

(** A piece of text without a line feed. *)
Fixpoint no_lf (s : string) : bool :=
  match s with
  | EmptyString => true
  | String c s' => (negb (Ascii.eqb c LF) && no_lf s')%bool
  end.

(** The text that lines and an unfinished last piece come from:
    [lines.concat([rest]).join('\n')]. *)
Fixpoint unsplit (lines : list string) (rest : string) : string :=
  match lines with
  | [] => rest
  | l :: ls => l ++ String LF (unsplit ls rest)
  end.

(** A chunk that ends where a line ends. *)
Definition aligned (chunk : string) : bool := Str.is_empty (split_lf chunk).2.

(** The line that ends an OpenRouter stream. *)
Definition done_line : string := "data: [DONE]".

End Lines.

(** ** More of [String.prototype] *)

Module Text.

(** [s.slice(0, n)] *)
Fixpoint slice (n : nat) (s : string) : string :=
  match n, s with
  | O, _ => EmptyString
  | S _, EmptyString => EmptyString
  | S n', String c s' => String c (slice n' s')
  end.

(** [s.endsWith(suffix)] *)
Definition endsWith (suffix s : string) : bool :=
  ((String.length suffix <=? String.length s)%nat
   && String.eqb (Str.substring_from (String.length s - String.length suffix) s)
        suffix)%bool.

(** [s.toUpperCase()] on the letters of ASCII; the other code units of the
    model are left as they are, and none of them becomes an ASCII letter
    that the words compared with ([OPTIONS], [GET]) could take. *)
Definition upper (c : ascii) : ascii :=
  let n := nat_of_ascii c in
  if ((97 <=? n)%nat && (n <=? 122)%nat)%bool then ascii_of_nat (n - 32) else c.

Fixpoint toUpperCase (s : string) : string :=
  match s with
  | EmptyString => EmptyString
  | String c s' => String (upper c) (toUpperCase s')
  end.

(** The characters of [s] that pass [f], in order: [s.replace(re, '')] for
    a global pattern [re] that matches one character when [f] fails. *)
Fixpoint keep (f : ascii -> bool) (s : string) : string :=
  match s with
  | EmptyString => EmptyString
  | String c s' => if f c then String c (keep f s') else keep f s'
  end.

Fixpoint all (f : ascii -> bool) (s : string) : bool :=
  match s with
  | EmptyString => true
  | String c s' => (f c && all f s')%bool
  end.

End Text.

(** ** Requests to the providers ([providers.js]) *)

Module Providers.

(** An own property [k] of an object. *)
Fixpoint has_key (k : string) (fs : list (string * jsval)) : bool :=
  match fs with
  | [] => false
  | (k', _) :: fs' => (String.eqb k k' || has_key k fs')%bool
  end.

(** [String(v)] for a parsed JSON value that is not an array: [None] is the
    [TypeError] of an object whose own [toString] property hides the
    inherited method. A number is an integer of the model, written in
    decimal (JavaScript writes the numbers from 1e21 on with an exponent). *)
Definition to_string (v : jsval) : option string :=
  match v with
  | JUndef => Some "undefined"
  | JNull => Some "null"
  | JBool b => Some (if b then "true" else "false")
  | JNum z => Some (Str.of_Z z)
  | JStr s => Some s
  | JObj fs => if has_key "toString" fs then None else Some "[object Object]"
  | JArr _ => None
  end.

(** [v ?? d] *)
Definition nullish_or (v d : jsval) : jsval :=
  match v with
  | JUndef | JNull => d
  | _ => v
  end.

(** [\w] *)
Definition is_word (c : ascii) : bool :=
  let n := nat_of_ascii c in
  (((48 <=? n) && (n <=? 57)) || ((65 <=? n) && (n <=? 90))
   || ((97 <=? n) && (n <=? 122)) || (n =? 95))%nat.

(** The longest run of word characters at the head of a text, and what
    follows it. *)
Fixpoint span_word (s : string) : string * string :=
  match s with
  | EmptyString => (EmptyString, EmptyString)
  | String c s' =>
      if is_word c
      then let '(w, rest) := span_word s' in (String c w, rest)
      else (EmptyString, s)
  end.

(** A text that [.] matches all along: no line terminator in it. *)
Fixpoint one_line (s : string) : bool :=
  match s with
  | EmptyString => true
  | String c s' =>
      (negb (Ascii.eqb c "010") && negb (Ascii.eqb c "013") && one_line s')%bool
  end.

(** [url.match(re)] for the pattern of a base64 image: [data:], a first group
    of [image/] and word characters, [;base64,], and a second group that
    runs to the end of the text and holds no line terminator. The result is
    the two groups. *)
Definition match_data_url (url : string) : option (string * string) :=
  if negb (String.prefix "data:image/" url) then None
  else
    let '(w, rest) := span_word (Str.substring_from 11 url) in
    if Str.is_empty w then None
    else if negb (String.prefix ";base64," rest) then None
    else
      let data := Str.substring_from 8 rest in
      if one_line data then Some ("image/" ++ w, data) else None.

Inductive Role : Type := User | Model.

(** [{ text }] and [{ inline_data: { mime_type, data } }] *)
Inductive Part : Type :=
| PText (text : jsval)
| PInline (mime_type data : string).

(** [{ role, parts }] *)
Record Content : Type := mkContent {
  g_role : Role;
  g_parts : list Part;
}.

Definition role_eqb (a b : Role) : bool :=
  match a, b with
  | User, User | Model, Model => true
  | _, _ => false
  end.

(** The callback of [msgContent.map]: [Some None] stands for [null], which
    [filter(Boolean)] drops, and [None] for a [TypeError]. *)
Definition map_part (p : jsval) : option (option Part) :=
  match Js.prop p "type" with
  | None => None
  | Some ty =>
      if Js.is_str "text" ty then
        match Js.prop p "text" with
        | None => None
        | Some t => Some (Some (PText (if Js.truthy t then t else JStr "")))
        end
      else if Js.is_str "image_url" ty then
        match Js.prop p "image_url" with
        | None => None
        | Some iu =>
            let url := SSE.opt_prop iu "url" in
            if negb (Js.truthy url) then Some None
            else match url with
                 | JStr u =>
                     match match_data_url u with
                     | Some (mime, data) => Some (Some (PInline mime data))
                     | None => Some None
                     end
                 | _ => None
                 end
        end
      else Some None
  end.

(** [msgContent.map(...).filter(Boolean)] *)
Fixpoint map_parts (ps : list jsval) : option (list Part) :=
  match ps with
  | [] => Some []
  | p :: ps' =>
      match map_part p with
      | None => None
      | Some o =>
          match map_parts ps' with
          | None => None
          | Some r => Some (match o with Some x => x :: r | None => r end)
          end
      end
  end.

(** [acc.at(-1).parts.push(...parts)] when the last content has the role,
    [acc.push({ role, parts })] otherwise. *)
Fixpoint push (acc : list Content) (role : Role) (parts : list Part)
  : list Content :=
  match acc with
  | [] => [mkContent role parts]
  | c :: acc' =>
      match acc' with
      | [] => if role_eqb (g_role c) role
              then [mkContent (g_role c) (g_parts c ++ parts)]
              else [c; mkContent role parts]
      | _ :: _ => c :: push acc' role parts
      end
  end.

(** The callback of [messages.reduce]. *)
Definition reduce_step (acc : list Content) (m : jsval) : option (list Content) :=
  match Js.prop m "role", Js.prop m "content" with
  | Some mrole, Some content =>
      let role := if Js.is_str "assistant" mrole then Model else User in
      let msgContent :=
        match content with
        | JArr ps => Some ps
        | _ => match to_string (nullish_or content (JStr "")) with
               | Some s => Some [JObj [("type", JStr "text"); ("text", JStr s)]]
               | None => None
               end
        end in
      match msgContent with
      | None => None
      | Some ps =>
          match map_parts ps with
          | None => None
          | Some parts =>
              if (length parts =? 0)%nat then Some acc
              else Some (push acc role parts)
          end
      end
  | _, _ => None
  end.

Fixpoint reduce (acc : list Content) (ms : list jsval) : option (list Content) :=
  match ms with
  | [] => Some acc
  | m :: ms' =>
      match reduce_step acc m with
      | None => None
      | Some acc' => reduce acc' ms'
      end
  end.

(** [if (contents.at(-1)?.role !== 'user') contents.pop()] *)
Definition drop_last_model (cs : list Content) : list Content :=
  match List.last (List.map Some cs) None with
  | Some c => if role_eqb (g_role c) User then cs else removelast cs
  | None => cs
  end.

(** [mapToGoogleContents(messages)] on an array; [None] when it throws. *)
Definition mapToGoogleContents (messages : list jsval) : option (list Content) :=
  option_map drop_last_model (reduce [] messages).

(** *** What the contents are checked against *)

(** Consecutive contents have different roles. *)
Fixpoint alternating (cs : list Content) : bool :=
  match cs with
  | c :: ((d :: _) as cs') => (negb (role_eqb (g_role c) (g_role d)) && alternating cs')%bool
  | _ => true
  end.

(** Every content has a part. *)
Definition all_have_parts (cs : list Content) : bool :=
  forallb (fun c => negb (length (g_parts c) =? 0)%nat) cs.

(** The contents end with a turn of the user, if there is any content. *)
Definition ends_with_user (cs : list Content) : bool :=
  match List.last (List.map Some cs) None with
  | Some c => role_eqb (g_role c) User
  | None => true
  end.

(** [(body.model ?? '').replace(re, '')] for the pattern [:online] at the
    end of the text, and [(body.model ?? '').endsWith(':online')], in
    [streamGoogle]: the model asked for, and whether the search tool is
    added to the request. *)
Definition strip_online (model : string) : string :=
  if Text.endsWith ":online" model
  then Text.slice (String.length model - 7) model else model.

Definition with_search (model : string) : bool := Text.endsWith ":online" model.

End Providers.

(** ** The listener ([index.js]) *)

Module Server.
Import Coordinator.

(** [const ALLOWED_ORIGINS = ['sune.planetrenox.com', 'sune.chat']] *)
Definition ALLOWED_ORIGINS : list string := ["sune.planetrenox.com"; "sune.chat"].

(** The characters that the pattern of the uid leaves:
    letters, digits, [_] and [-]. *)
Definition uid_char (c : ascii) : bool :=
  let n := nat_of_ascii c in
  (((97 <=? n) && (n <=? 122)) || ((65 <=? n) && (n <=? 90))
   || ((48 <=? n) && (n <=? 57)) || (n =? 95) || (n =? 45))%nat.

(** [(url.searchParams.get('uid') || '').slice(0, 64).replace(re, '')] *)
Definition clean_uid (param : option string) : string :=
  Text.keep uid_char (Text.slice 64 (default "" param)).

(** What [fetch] reads of a request. *)
Record Request : Type := mkRequest {
  q_method : string;
  q_origin : option string;
  q_pathname : string;
  q_uid : option string;
  q_upgrade : bool;
}.

(** What [fetch] answers: the empty response to a preflight, an error with
    its status, the socket opened for a uid, or the view of a poll. *)
Inductive Reply : Type :=
| Preflight
| Refused (status : Z) (error : string)
| Upgraded (uid : string)
| Polled (view : PollView).

Section Fetch.

(** [new URL(origin).hostname]; [None] when the constructor throws. *)
Variable hostname : string -> option string.

Definition isAllowed (origin : option string) : bool :=
  match origin with
  | None => false
  | Some o =>
      if Str.is_empty o then false
      else match hostname o with
           | Some h =>
               existsb (fun a => (String.eqb h a || Text.endsWith ".github.io" h)%bool)
                 ALLOWED_ORIGINS
           | None => false
           end
  end.

(** [origin && !isAllowed(origin)] *)
Definition forbidden (origin : option string) : bool :=
  (Coordinator.str_truthy origin && negb (isAllowed origin))%bool.

(** The [fetch] handler; [q_upgrade] is what [server.upgrade] returns. *)
Definition fetch (req : Request) (w : World) : Reply * World :=
  let method := Text.toUpperCase (q_method req) in
  if String.eqb method "OPTIONS" then (Preflight, w)
  else if forbidden (q_origin req) then (Refused 403 "Forbidden", w)
  else if negb (String.eqb (q_pathname req) "/ws") then (Refused 404 "not found", w)
  else
    let uid := clean_uid (q_uid req) in
    if Str.is_empty uid then (Refused 400 "uid is required", w)
    else if q_upgrade req then (Upgraded uid, w)
    else if String.eqb method "GET" then
      let '(view, w') := handlePoll uid w in (Polled view, w')
    else (Refused 405 "method not allowed", w).

End Fetch.

(** *** What a uid is checked against *)

(** A uid as the coordinator receives it: not empty, at most 64 characters,
    letters, digits, [_] and [-] only. *)
Definition valid_uid (uid : string) : bool :=
  (negb (Str.is_empty uid) && (String.length uid <=? 64)%nat
   && Text.all uid_char uid)%bool.

End Server.

(** * Properties *)


(** ** Strings *)

Module StrFacts.
Import Str.

Lemma all_ws_app s t : all_ws (s ++ t) = (all_ws s && all_ws t)%bool.
Proof.
  induction s as [|c s IH]; simpl; [reflexivity|].
  rewrite IH. now rewrite andb_assoc.
Qed.

Lemma all_ws_rev s : all_ws (rev s) = all_ws s.
Proof.
  induction s as [|c s IH]; simpl; [reflexivity|].
  rewrite all_ws_app, IH. simpl. rewrite andb_true_r. apply andb_comm.
Qed.

Lemma trimStart_empty s : is_empty (trimStart s) = all_ws s.
Proof.
  induction s as [|c s IH]; simpl; [reflexivity|].
  destruct (is_ws c) eqn:E; simpl; [exact IH|reflexivity].
Qed.

Lemma all_ws_trimStart s : all_ws (trimStart s) = all_ws s.
Proof.
  induction s as [|c s IH]; simpl; [reflexivity|].
  destruct (is_ws c) eqn:E; simpl; [exact IH|now rewrite E].
Qed.

Lemma is_empty_rev s : is_empty (rev s) = is_empty s.
Proof. destruct s as [|c s]; simpl; [reflexivity|]. now destruct (rev s). Qed.

(** [!s.trim()] holds exactly of the blank strings. *)
Lemma trim_empty s : is_empty (trim s) = all_ws s.
Proof.
  unfold trim, trimEnd.
  now rewrite is_empty_rev, trimStart_empty, all_ws_rev, all_ws_trimStart.
Qed.

Lemma length_pos_nonempty s : (0 <? String.length s)%nat = negb (is_empty s).
Proof. now destruct s. Qed.

Lemma append_nil_l t : "" ++ t = t.
Proof. reflexivity. Qed.

Lemma append_cons c s t : String c s ++ t = String c (s ++ t).
Proof. reflexivity. Qed.

Lemma append_nil_r s : s ++ "" = s.
Proof. induction s as [|c s IH]; [reflexivity|]. now rewrite append_cons, IH. Qed.

Lemma append_assoc s t u : (s ++ t) ++ u = s ++ t ++ u.
Proof. induction s as [|c s IH]; [reflexivity|]. now rewrite !append_cons, IH. Qed.

Lemma prefix_nil s : String.prefix "" s = true.
Proof. now destruct s. Qed.

Lemma prefix_cons a p b s :
  String.prefix (String a p) (String b s)
  = (Ascii.eqb a b && String.prefix p s)%bool.
Proof.
  simpl. destruct (ascii_dec a b) as [->|Hne].
  - now rewrite Ascii.eqb_refl.
  - destruct (Ascii.eqb_spec a b); [contradiction|reflexivity].
Qed.

Lemma prefix_append p s : String.prefix p (p ++ s) = true.
Proof.
  induction p as [|c p IH]; [apply prefix_nil|].
  now rewrite append_cons, prefix_cons, Ascii.eqb_refl, IH.
Qed.

Lemma append_inj_l p s t : p ++ s = p ++ t -> s = t.
Proof.
  induction p as [|c p IH]; [trivial|].
  rewrite !append_cons. intros [= H]. now apply IH.
Qed.

End StrFacts.

(** ** Sanitization *)

Module SanitizeFacts.
Import Sanitize.

Lemma keep_part_ok p : part_ok p = true -> keep_part p = Some (kept p).
Proof.
  unfold keep_part, kept, is_text_part, nonblank_text_part, part_ok.
  destruct p as [| |b|z|s|l|fs]; simpl; try discriminate; try reflexivity.
  destruct (Js.is_str "text" (Js.lookup "type" fs)) eqn:Ety; simpl; [|reflexivity].
  destruct (Js.lookup "text" fs) as [| |b|z|t|l|fs'] eqn:Etx; simpl;
    try reflexivity; try discriminate.
  - destruct b; simpl; [discriminate|reflexivity].
  - destruct (z =? 0)%Z; simpl; [reflexivity|discriminate].
  - intros _. destruct t as [|c t]; simpl; [reflexivity|].
    rewrite StrFacts.length_pos_nonempty, StrFacts.trim_empty. reflexivity.
Qed.

Lemma keep_part_kept p b : keep_part p = Some b -> b = kept p.
Proof.
  unfold keep_part, kept, is_text_part, nonblank_text_part.
  destruct p as [| |b'|z|s|l|fs]; simpl; try discriminate; try congruence.
  destruct (Js.is_str "text" (Js.lookup "type" fs)) eqn:Ety; simpl; [|congruence].
  destruct (Js.lookup "text" fs) as [| |b'|z|t|l|fs'] eqn:Etx; simpl;
    try congruence.
  - destruct b'; simpl; congruence.
  - destruct (z =? 0)%Z; simpl; congruence.
  - destruct t as [|c t]; simpl; [congruence|].
    rewrite StrFacts.length_pos_nonempty, StrFacts.trim_empty.
    intros [= <-]. reflexivity.
Qed.

Lemma filter_parts_kept ps r :
  filter_parts ps = Some r -> r = List.filter kept ps.
Proof.
  revert r. induction ps as [|p ps IH]; simpl; intros r H.
  - congruence.
  - destruct (keep_part p) as [b|] eqn:Ek; [|discriminate].
    destruct (filter_parts ps) as [r'|]; [|discriminate].
    apply keep_part_kept in Ek. subst b.
    injection H as <-. rewrite (IH r' eq_refl). now destruct (kept p).
Qed.

Lemma filter_parts_ok ps :
  forallb part_ok ps = true -> filter_parts ps = Some (List.filter kept ps).
Proof.
  induction ps as [|p ps IH]; simpl; intros H; [reflexivity|].
  apply andb_true_iff in H as [Hp Hps].
  rewrite (keep_part_ok p Hp), (IH Hps). now destruct (kept p).
Qed.

(** A kept text part has text that is not blank. *)
Lemma kept_text_nonblank p :
  kept p = true -> is_text_part p = true -> nonblank_text_part p = true.
Proof. unfold kept. intros H Ht. rewrite Ht in H. exact H. Qed.

Lemma existsb_text_kept ps :
  existsb is_text_part (List.filter kept ps) = true ->
  existsb nonblank_text_part (List.filter kept ps) = true.
Proof.
  rewrite !existsb_exists. intros (p & Hin & Ht). exists p. split; [exact Hin|].
  apply filter_In in Hin as [_ Hk]. now apply kept_text_nonblank.
Qed.

Lemma existsb_snoc {A} (f : A -> bool) l x :
  existsb f (l ++ [x]) = (existsb f l || f x)%bool.
Proof. rewrite existsb_app. simpl. now rewrite orb_false_r. Qed.


Lemma sanitize_content_spec c c' :
  sanitize_content c = Some c' -> content_spec c c'.
Proof.
  unfold sanitize_content, content_spec.
  destruct c as [| |b|z|s|ps|fs]; try congruence.
  - rewrite StrFacts.trim_empty. congruence.
  - destruct (filter_parts ps) as [r|] eqn:Ef; [|discriminate].
    apply filter_parts_kept in Ef. subst r.
    destruct (List.filter kept ps) as [|p r] eqn:Er; simpl.
    + congruence.
    + destruct (is_text_part p || existsb is_text_part r)%bool; simpl.
      * rewrite app_nil_r. congruence.
      * congruence.
Qed.

Lemma content_spec_has_text c c' :
  content_spec c c' -> (Js.isArray c || match c with JStr _ => true | _ => false end)%bool = true ->
  has_text c' = true.
Proof.
  unfold content_spec.
  destruct c as [| |b|z|s|ps|fs]; simpl; try discriminate; intros -> _; simpl.
  - destruct (Str.all_ws s) eqn:E; simpl; [reflexivity|now rewrite E].
  - destruct (existsb is_text_part (List.filter kept ps)) eqn:E.
    + rewrite app_nil_r. now apply existsb_text_kept.
    + rewrite existsb_snoc. simpl. apply orb_true_r.
Qed.

Lemma lookup_assign_eq k v fs : Js.lookup k (Js.assign k v fs) = v.
Proof.
  induction fs as [|[k' v'] fs IH]; simpl.
  - now rewrite String.eqb_refl.
  - destruct (String.eqb k k') eqn:E; simpl; rewrite ?String.eqb_refl, ?E; auto.
Qed.

Lemma lookup_assign_ne k k' v fs :
  k' <> k -> Js.lookup k' (Js.assign k v fs) = Js.lookup k' fs.
Proof.
  intros Hne. induction fs as [|[k0 v0] fs IH]; simpl.
  - destruct (String.eqb k' k) eqn:E; [apply String.eqb_eq in E; contradiction|reflexivity].
  - destruct (String.eqb k k0) eqn:E; simpl.
    + apply String.eqb_eq in E. subst k0.
      destruct (String.eqb k' k) eqn:E'; [apply String.eqb_eq in E'; contradiction|reflexivity].
    + destruct (String.eqb k' k0); auto.
Qed.


Lemma sanitize_message_spec m m' :
  sanitize_message m = Some m' -> message_spec m m'.
Proof.
  unfold sanitize_message, message_spec, content_of.
  destruct (Js.prop m "content") as [c|] eqn:Ec; [|discriminate].
  destruct (sanitize_content c) as [c'|] eqn:Es; [|discriminate].
  intros [= <-]. eexists. split; [reflexivity|]. split.
  - rewrite lookup_assign_eq. simpl. now apply sanitize_content_spec.
  - intros k Hk. now apply lookup_assign_ne.
Qed.

Lemma sanitize_message_ok m :
  message_ok m = true -> exists m', sanitize_message m = Some m'.
Proof.
  unfold message_ok, sanitize_message.
  destruct (Js.prop m "content") as [c|]; [|discriminate].
  intros H.
  assert (exists c', sanitize_content c = Some c') as [c' ->].
  { destruct c; simpl; eauto.
    rewrite (filter_parts_ok _ H). destruct (_ || _)%bool; eauto. }
  eauto.
Qed.

Lemma map_messages_spec ms out :
  map_messages ms = Some out -> Forall2 message_spec ms out.
Proof.
  revert out. induction ms as [|m ms IH]; simpl; intros out H.
  - injection H as <-. constructor.
  - destruct (sanitize_message m) as [m'|] eqn:Em; [|discriminate].
    destruct (map_messages ms) as [r|]; [|discriminate].
    injection H as <-. constructor; [now apply sanitize_message_spec|now apply IH].
Qed.

Lemma map_messages_ok ms :
  forallb message_ok ms = true -> exists out, map_messages ms = Some out.
Proof.
  induction ms as [|m ms IH]; simpl; intros H; [eauto|].
  apply andb_true_iff in H as [Hm Hms].
  destruct (sanitize_message_ok m Hm) as [m' ->].
  destruct (IH Hms) as [r ->]. eauto.
Qed.

End SanitizeFacts.

Section SanitizeClaim.
Import Sanitize SanitizeFacts.


(** C8, as amended. For every messages array on which the callbacks do not
    throw, [sanitizeMessages] returns one message per input message; each
    has the properties of the input message with [content] replaced
    ([message_spec]): a blank string becomes ["."], an array loses its text
    parts with empty or blank text and gains [{type:"text", text:"."}] when
    no text part is left, any other content is passed through unchanged,
    and every other key keeps its value. When the content is a string or an
    array, the returned content has a non-empty text part. *)
Theorem sanitized_messages_have_text (ms : list jsval) :
  forallb message_ok ms = true ->
  exists out,
    sanitizeMessages (JArr ms) = Some (JArr out)
    /\ Forall2 (fun m m' =>
                  message_spec m m'
                  /\ (text_shaped (content_of m) = true ->
                      has_text (content_of m') = true)) ms out.
Proof.
  intros Hok. destruct (map_messages_ok ms Hok) as [out Hout].
  exists out. split; [simpl; now rewrite Hout|].
  apply map_messages_spec in Hout.
  induction Hout as [|m m' ms out Hm _ IH]; constructor.
  - split; [exact Hm|]. intros Hshape.
    destruct Hm as (fs' & -> & Hc & _). unfold content_of at 1. simpl.
    apply (content_spec_has_text _ _ Hc).
    destruct (content_of m); try discriminate; reflexivity.
  - apply IH. simpl in Hok. now apply andb_true_iff in Hok as [_ ?].
Qed.

Lemma sanitized_messages_have_text_witness :
  exists out,
    sanitizeMessages
      (JArr [JObj [("role", JStr "user"); ("content", JStr "  ")];
             JObj [("role", JStr "user");
                   ("content", JArr [JObj [("type", JStr "text"); ("text", JStr "")]])]])
    = Some (JArr out)
    /\ Forall2 (fun m m' =>
                  message_spec m m'
                  /\ (text_shaped (content_of m) = true ->
                      has_text (content_of m') = true))
         [JObj [("role", JStr "user"); ("content", JStr "  ")];
          JObj [("role", JStr "user");
                ("content", JArr [JObj [("type", JStr "text"); ("text", JStr "")]])]]
         out.
Proof.
  apply (sanitized_messages_have_text
           [JObj [("role", JStr "user"); ("content", JStr "  ")];
            JObj [("role", JStr "user");
                  ("content", JArr [JObj [("type", JStr "text"); ("text", JStr "")]])]]).
  reflexivity.
Defined.

(** C8 as stated fails on a content that is neither a string nor an array:
    the message [{role:"user", content:null}] is returned as it is, with no
    text part. *)
Lemma sanitize_passes_null_content :
  sanitizeMessages (JArr [JObj [("role", JStr "user"); ("content", JNull)]])
  = Some (JArr [JObj [("role", JStr "user"); ("content", JNull)]])
  /\ has_text (content_of (JObj [("role", JStr "user"); ("content", JNull)])) = false.
Proof. split; reflexivity. Qed.

End SanitizeClaim.

(** ** The store *)

Module KVFacts.

Section Store.
Context {V : Type}.
Implicit Type t : gmap string (V * Z).

Lemma get_set_eq t now k v : KV.get (KV.set t now k v) now k = Some v.
Proof.
  unfold KV.get, KV.set, KV.set_ttl. rewrite lookup_insert_eq.
  unfold KV.TTL_MS. destruct (Z.ltb_spec now (now + 20 * 60 * 1000)); [reflexivity|lia].
Qed.

Lemma get_set_ne t now k k' v :
  k <> k' -> KV.get (KV.set t now k v) now k' = KV.get t now k'.
Proof.
  intros Hne. unfold KV.get, KV.set, KV.set_ttl. now rewrite lookup_insert_ne.
Qed.

Lemma get_Some t now k v :
  KV.get t now k = Some v <-> exists exp, t !! k = Some (v, exp) /\ now < exp.
Proof.
  unfold KV.get. destruct (t !! k) as [[v' exp]|]; split.
  - destruct (Z.ltb_spec now exp); [|discriminate]. intros [= ->]. eauto.
  - intros (exp' & [= -> ->] & H). destruct (Z.ltb_spec now exp'); [reflexivity|lia].
  - discriminate.
  - intros (? & ? & _). discriminate.
Qed.

End Store.

(** *** Matching *)

Lemma match_star k : KV.glob_st KV.GNormal "*" k = true.
Proof.
  cbn [KV.glob_st]. cbn [Ascii.eqb Bool.eqb].
  induction k as [|c k IH]; [reflexivity|].
  cbn [KV.glob_st Str.is_empty orb]. exact IH.
Qed.

Lemma match_cons_plain c p k :
  Ascii.eqb c "*" = false -> Ascii.eqb c "?" = false -> Ascii.eqb c "[" = false ->
  KV.glob_st KV.GNormal (String c p) k
  = match k with
    | EmptyString => false
    | String d k' => (Ascii.eqb c d && KV.glob_st KV.GNormal p k')%bool
    end.
Proof.
  intros H1 H2 H3. cbn [KV.glob_st]. rewrite H1, H2, H3.
  reflexivity.
Qed.

Lemma match_plain_prefix p k :
  KV.plain p = true -> KV.glob_st KV.GNormal (p ++ "*") k = String.prefix p k.
Proof.
  revert k. induction p as [|c p IH]; intros k Hp.
  - rewrite StrFacts.append_nil_l, StrFacts.prefix_nil. apply match_star.
  - cbn [KV.plain] in Hp.
    repeat (apply andb_true_iff in Hp as [Hp ?]).
    rewrite StrFacts.append_cons.
    rewrite match_cons_plain by now apply negb_true_iff.
    destruct k as [|d k]; [reflexivity|].
    rewrite StrFacts.prefix_cons. now rewrite IH.
Qed.

Lemma match_plain_refl p :
  KV.plain p = true -> KV.glob_st KV.GNormal p p = true.
Proof.
  induction p as [|c p IH]; intros Hp; [reflexivity|].
  cbn [KV.plain] in Hp.
  repeat (apply andb_true_iff in Hp as [Hp ?]).
  rewrite match_cons_plain by now apply negb_true_iff.
  rewrite Ascii.eqb_refl. now apply IH.
Qed.

(** *** Texts cut at the first NUL *)

Lemma c_str_app_free p s :
  KV.nul_free p = true -> KV.c_str (p ++ s) = p ++ KV.c_str s.
Proof.
  induction p as [|c p IH]; intros Hp.
  - now rewrite !StrFacts.append_nil_l.
  - cbn [KV.nul_free] in Hp. apply andb_true_iff in Hp as [Hc Hp].
    apply negb_true_iff in Hc.
    rewrite !StrFacts.append_cons. cbn [KV.c_str]. rewrite Hc.
    now rewrite IH.
Qed.

Lemma c_str_app_nul p s :
  KV.nul_free p = false -> KV.c_str (p ++ s) = KV.c_str p.
Proof.
  induction p as [|c p IH]; intros Hp; [discriminate|].
  rewrite StrFacts.append_cons. cbn [KV.c_str KV.nul_free] in *.
  destruct (Ascii.eqb c "000"); [reflexivity|].
  cbn [negb andb] in Hp. now rewrite IH.
Qed.

Lemma prefix_c_str p k :
  KV.nul_free p = true -> String.prefix p (KV.c_str k) = String.prefix p k.
Proof.
  revert k. induction p as [|c p IH]; intros k Hp.
  - now rewrite !StrFacts.prefix_nil.
  - cbn [KV.nul_free] in Hp. apply andb_true_iff in Hp as [Hc Hp].
    apply negb_true_iff in Hc.
    destruct k as [|d k]; [reflexivity|]. cbn [KV.c_str].
    destruct (Ascii.eqb d "000") eqn:Hd.
    + apply Ascii.eqb_eq in Hd as ->. rewrite StrFacts.prefix_cons, Hc.
      reflexivity.
    + rewrite !StrFacts.prefix_cons. now rewrite IH.
Qed.

Lemma c_str_prefix p k :
  KV.nul_free p = false -> String.prefix p k = true ->
  KV.c_str k = KV.c_str p.
Proof.
  revert k. induction p as [|c p IH]; intros k Hp Hk; [discriminate|].
  destruct k as [|d k]; [discriminate|].
  rewrite StrFacts.prefix_cons in Hk. apply andb_true_iff in Hk as [Hc Hk].
  apply Ascii.eqb_eq in Hc as <-.
  cbn [KV.c_str KV.nul_free] in *.
  destruct (Ascii.eqb c "000"); [reflexivity|].
  cbn [negb andb] in Hp. now rewrite (IH k).
Qed.

Lemma plain_c_str p : KV.plain p = true -> KV.plain (KV.c_str p) = true.
Proof.
  induction p as [|c p IH]; intros Hp; [reflexivity|].
  cbn [KV.plain] in Hp.
  repeat (apply andb_true_iff in Hp as [Hp ?]).
  cbn [KV.c_str]. destruct (Ascii.eqb c "000"); [reflexivity|].
  cbn [KV.plain]. rewrite IH by assumption.
  now repeat (apply andb_true_iff; split).
Qed.

Lemma nul_free_app s t :
  KV.nul_free (s ++ t) = (KV.nul_free s && KV.nul_free t)%bool.
Proof.
  induction s as [|c s IH]; [reflexivity|].
  rewrite StrFacts.append_cons. cbn [KV.nul_free]. rewrite IH.
  now rewrite !andb_assoc.
Qed.

(** With a plain prefix that holds no NUL, [prefix + '*'] selects the keys
    that start with the prefix. *)
Lemma glob_plain_prefix p k :
  KV.plain p = true -> KV.nul_free p = true ->
  KV.glob (p ++ "*") k = String.prefix p k.
Proof.
  intros Hp Hn. unfold KV.glob.
  rewrite c_str_app_free by exact Hn.
  change (KV.c_str "*") with "*".
  rewrite match_plain_prefix by exact Hp.
  now apply prefix_c_str.
Qed.

(** With any plain prefix, the keys that start with the prefix are among
    those that [prefix + '*'] selects. *)
Lemma glob_own_prefix p k :
  KV.plain p = true -> String.prefix p k = true ->
  KV.glob (p ++ "*") k = true.
Proof.
  intros Hp Hk. destruct (KV.nul_free p) eqn:Hn.
  - now rewrite glob_plain_prefix.
  - unfold KV.glob. rewrite c_str_app_nul by exact Hn.
    rewrite (c_str_prefix p k Hn Hk).
    now apply match_plain_refl, plain_c_str.
Qed.

Lemma plain_app s t : KV.plain (s ++ t) = (KV.plain s && KV.plain t)%bool.
Proof.
  induction s as [|c s IH]; [reflexivity|].
  rewrite StrFacts.append_cons. cbn [KV.plain]. rewrite IH.
  now rewrite !andb_assoc.
Qed.

End KVFacts.

(** ** Keys *)

Module KeyFacts.
Import Coordinator Str.

Lemma decode_zero s : decode (String "0" s) = decode s.
Proof.
  unfold decode. cbn [NilEmpty.uint_of_string].
  now destruct (NilEmpty.uint_of_string s).
Qed.

Lemma decode_repeat0 n s : decode (Str.repeat0 n ++ s) = decode s.
Proof.
  induction n as [|n IH]; [reflexivity|].
  cbn [Str.repeat0]. now rewrite StrFacts.append_cons, decode_zero.
Qed.

Lemma decode_of_N n : decode (Str.of_N n) = Some n.
Proof.
  unfold decode, Str.of_N. rewrite NilEmpty.usu. cbn.
  now rewrite DecimalN.Unsigned.of_to.
Qed.

Lemma decode_padded z :
  0 <= z -> decode (Str.padStart0 10 (Str.of_Z z)) = Some (Z.to_N z).
Proof.
  intros Hz. unfold Str.padStart0. rewrite decode_repeat0.
  destruct z as [|p|p]; [reflexivity|apply decode_of_N|lia].
Qed.

(** Distinct sequence numbers have distinct keys. *)
Lemma delta_key_inj rid a b :
  0 <= a -> 0 <= b -> delta_key rid a = delta_key rid b -> a = b.
Proof.
  intros Ha Hb H. unfold delta_key in H. apply StrFacts.append_inj_l in H.
  apply (f_equal decode) in H. rewrite !decode_padded in H by assumption.
  injection H as H. lia.
Qed.

Lemma plain_delta_prefix rid :
  KV.plain rid = true -> KV.plain (delta_prefix rid) = true.
Proof.
  intros H. unfold delta_prefix.
  change ("delta:" ++ rid ++ ":") with ("delta:" ++ (rid ++ ":")).
  rewrite !KVFacts.plain_app, H. reflexivity.
Qed.

Lemma nul_free_delta_prefix rid :
  KV.nul_free rid = true -> KV.nul_free (delta_prefix rid) = true.
Proof.
  intros H. unfold delta_prefix.
  change ("delta:" ++ rid ++ ":") with ("delta:" ++ (rid ++ ":")).
  rewrite !KVFacts.nul_free_app, H. reflexivity.
Qed.

(** The listing of a plain [rid] without NUL selects the keys that start
    with [delta:<rid>:]. *)
Lemma listed_prefix rid k :
  KV.plain rid = true -> KV.nul_free rid = true ->
  KV.glob (delta_prefix rid ++ "*") k = String.prefix (delta_prefix rid) k.
Proof.
  intros Hp Hn. apply KVFacts.glob_plain_prefix.
  - now apply plain_delta_prefix.
  - now apply nul_free_delta_prefix.
Qed.

(** The listing of a plain [rid] selects the keys of its deltas, and no
    snapshot or prompt. *)
Lemma listed_delta_key rid n :
  KV.plain rid = true ->
  KV.glob (delta_prefix rid ++ "*") (delta_key rid n) = true.
Proof.
  intros H. apply KVFacts.glob_own_prefix; [now apply plain_delta_prefix|].
  apply StrFacts.prefix_append.
Qed.

Lemma delta_prefix_head rid : exists t, delta_prefix rid = String "d" t.
Proof. unfold delta_prefix. eexists. reflexivity. Qed.

Lemma not_listed_run_key rid rid' :
  KV.plain rid = true ->
  KV.glob (delta_prefix rid ++ "*") (run_key rid') = false.
Proof.
  intros _. destruct (delta_prefix_head rid) as [t ->]. reflexivity.
Qed.

Lemma not_listed_prompt_key rid rid' :
  KV.plain rid = true ->
  KV.glob (delta_prefix rid ++ "*") (prompt_key rid') = false.
Proof.
  intros _. destruct (delta_prefix_head rid) as [t ->]. reflexivity.
Qed.

End KeyFacts.

(** ** The coordinator: handlers *)

Module CoordinatorFacts.
Import Coordinator.

Lemma meta_found uid w r : runs w !! uid = Some r -> meta uid w = (Some r, w).
Proof. intros H. unfold meta. now rewrite H. Qed.

Lemma ensure_found uid w r : runs w !! uid = Some r -> ensure uid w = (r, w).
Proof. intros H. unfold ensure. now rewrite (meta_found _ _ _ H). Qed.

Lemma ensure_env uid w : env (ensure uid w).2 = env w.
Proof.
  unfold ensure, meta. destruct (runs w !! uid); [reflexivity|].
  destruct (kv_get (env w) (run_key uid)); reflexivity.
Qed.

Lemma ensure_lookup uid w : runs (ensure uid w).2 !! uid = Some (ensure uid w).1.
Proof.
  unfold ensure, meta. destruct (runs w !! uid) eqn:E; [exact E|].
  destruct (kv_get (env w) (run_key uid)); simpl; apply lookup_insert_eq.
Qed.

Lemma handleMessage_ensure uid ws msg w :
  handleMessage uid ws msg w = handleMessage uid ws msg (ensure uid w).2.
Proof.
  unfold handleMessage at 2.
  rewrite (ensure_found uid _ _ (ensure_lookup uid w)).
  unfold handleMessage. now destruct (ensure uid w).
Qed.

Lemma is_running_true r : is_running r = true <-> phase r = Running.
Proof. unfold is_running. destruct (phase r); split; congruence. Qed.

Lemma type_is_excl msg : type_is "begin" msg = true -> type_is "stop" msg = false.
Proof.
  unfold type_is. destruct (m_type msg) as [t|]; [|discriminate].
  intros H. apply String.eqb_eq in H. now subst t.
Qed.

(** The checks at the head of [handleMessage], read off [accepted]. *)
Lemma accepted_inv msg :
  accepted msg = true ->
  exists msgRid apiKey body messages,
    m_rid msg = Some msgRid /\ m_apiKey msg = Some apiKey
    /\ body_of msg = Some body
    /\ Str.is_empty msgRid = false /\ Str.is_empty apiKey = false
    /\ nonempty_array (b_messages body) = true
    /\ Sanitize.sanitizeMessages (b_messages body) = Some messages.
Proof.
  unfold accepted, str_truthy, sanitizes. intros H.
  repeat (apply andb_true_iff in H as [H ?]).
  destruct (m_rid msg) as [msgRid|]; [|discriminate].
  destruct (m_apiKey msg) as [apiKey|]; [|discriminate].
  destruct (body_of msg) as [body|]; [|discriminate].
  match goal with H' : (_ && _)%bool = true |- _ => apply andb_true_iff in H' as [Hn Hs] end.
  destruct (Sanitize.sanitizeMessages (b_messages body)) as [messages|] eqn:Es;
    [|discriminate].
  exists msgRid, apiKey, body, messages.
  repeat split; try reflexivity; try assumption; now apply negb_true_iff.
Qed.

(** [handleMessage] on an accepted [begin], after the checks. *)
Lemma handleMessage_accepted uid ws msg w r msgRid apiKey body messages :
  runs w !! uid = Some r ->
  type_is "begin" msg = true ->
  m_rid msg = Some msgRid -> m_apiKey msg = Some apiKey ->
  body_of msg = Some body ->
  Str.is_empty msgRid = false -> Str.is_empty apiKey = false ->
  nonempty_array (b_messages body) = true ->
  Sanitize.sanitizeMessages (b_messages body) = Some messages ->
  handleMessage uid ws msg w =
    if (is_running r && negb (String.eqb msgRid (rid r)))%bool then
      Returned (mkWorld (runs w) (send ws (FErr "busy") (env w)))
    else if (String.eqb msgRid (rid r)
             && negb match phase r with Idle => true | _ => false end)%bool
    then Returned (mkWorld (runs w)
                     (replay r ws (default (-1) (m_after msg)) (env w)))
    else
      let r' := mkRun msgRid (-1) Running None (sockets r) "" []
                      (flushTimer r) (Some false) (now (env w)) true in
      Returned (store uid
                  (r', beginStream_call r' apiKey (mkBody (b_model body) messages)
                         (if str_truthy (m_provider msg)
                          then default "" (m_provider msg) else "openrouter")
                         (saveSnapshot r'
                            (kv_set (prompt_key msgRid) (BPrompt messages) (env w))))
                  w).
Proof.
  intros Hr Hty Hrid Hkey Hbody Hne1 Hne2 Hna Hsan.
  unfold handleMessage. rewrite (ensure_found _ _ _ Hr).
  rewrite (type_is_excl _ Hty), Hty, Hrid, Hkey, Hbody, Hne1, Hne2, Hna, Hsan.
  reflexivity.
Qed.

(** The lookup of [beginStream] selects an adapter when the message names
    one. *)
Lemma adapter_of_message msg name :
  adapter_named msg = true ->
  providerFn (if str_truthy (m_provider msg)
              then default "" (m_provider msg) else "openrouter")
  <> Inherited name.
Proof.
  unfold adapter_named, providerFn. destruct (m_provider msg) as [s|].
  - change (default "" (Some s)) with s. intros H.
    apply negb_true_iff in H. unfold str_truthy.
    destruct (Str.is_empty s); cbn [negb].
    + vm_compute. discriminate.
    + rewrite H.
      destruct (String.eqb s "openai"); [discriminate|].
      destruct (String.eqb s "google"); [discriminate|].
      destruct (String.eqb s "claude"); discriminate.
  - intros _. vm_compute. discriminate.
Qed.

(** *** Sorting by [seq] *)

Lemma insert_by_seq_perm x l : insert_by_seq x l ≡ₚ x :: l.
Proof.
  induction l as [|y l IH]; simpl; [reflexivity|].
  destruct (d_seq x <=? d_seq y)%Z; [reflexivity|].
  rewrite IH. apply perm_swap.
Qed.

Lemma sort_by_seq_perm l : sort_by_seq l ≡ₚ l.
Proof.
  induction l as [|x l IH]; simpl; [reflexivity|].
  now rewrite insert_by_seq_perm, IH.
Qed.

Lemma insert_by_seq_sorted x l :
  StronglySorted seq_le l -> StronglySorted seq_le (insert_by_seq x l).
Proof.
  induction 1 as [|y l Hs IH Hy]; simpl.
  - repeat constructor.
  - destruct (Z.leb_spec (d_seq x) (d_seq y)) as [Hle|Hgt].
    + constructor; [now constructor|]. constructor; [exact Hle|].
      eapply Forall_impl; [exact Hy|]. unfold seq_le. intros z Hz. lia.
    + constructor; [exact IH|].
      rewrite insert_by_seq_perm. constructor; [unfold seq_le; lia|exact Hy].
Qed.

Lemma sort_by_seq_sorted l : StronglySorted seq_le (sort_by_seq l).
Proof.
  induction l as [|x l IH]; simpl; [constructor|now apply insert_by_seq_sorted].
Qed.

Lemma filter_sorted (f : Delta -> bool) l :
  StronglySorted seq_le l -> StronglySorted seq_le (List.filter f l).
Proof.
  induction 1 as [|y l Hs IH Hy]; simpl; [constructor|].
  destruct (f y); [|exact IH]. constructor; [exact IH|].
  apply List.Forall_forall. intros z Hz. apply filter_In in Hz as [Hz _].
  rewrite List.Forall_forall in Hy. now apply Hy.
Qed.

(** *** Reading the deltas back *)

Lemma fetch_listed e prefix (rows : list (string * (Blob * Z))) :
  (forall row, row ∈ rows -> kv e !! row.1 = Some row.2) ->
  fetch e (List.map fst (List.filter (KV.listed (now e) prefix) rows))
  = List.map (fun row => row.2.1) (List.filter (KV.listed (now e) prefix) rows).
Proof.
  induction rows as [|[k [v exp]] rows IH]; intros Hrows; [reflexivity|].
  simpl. destruct (KV.listed (now e) prefix (k, (v, exp))) eqn:El.
  - simpl. unfold fetch in *. simpl.
    assert (Hk : kv_get e k = Some v).
    { unfold kv_get. apply KVFacts.get_Some. exists exp. split.
      - apply (Hrows (k, (v, exp))). left.
      - unfold KV.listed in El. apply andb_true_iff in El as [_ El].
        simpl in El. lia. }
    rewrite Hk. f_equal. apply IH. intros row Hin. apply Hrows. now right.
  - apply IH. intros row Hin. apply Hrows. now right.
Qed.

(** [getDeltas] in terms of the rows of the table. *)
Lemma getDeltas_rows rid e :
  getDeltas rid e
  = sort_by_seq
      (omap (fun row : string * (Blob * Z) => as_delta row.2.1)
         (List.filter (KV.listed (now e) (delta_prefix rid)) (map_to_list (kv e)))).
Proof.
  unfold getDeltas, kv_list, KV.list.
  rewrite fetch_listed.
  - f_equal. generalize (List.filter (KV.listed (now e) (delta_prefix rid))
                           (map_to_list (kv e))).
    intros l. induction l as [|row l IH]; [reflexivity|].
    cbn [List.map omap list_omap]. rewrite IH. reflexivity.
  - intros [k v] Hin. now apply elem_of_map_to_list in Hin.
Qed.

Lemma filter_omap_rows e rid after (rows : list (string * (Blob * Z))) :
  List.filter (fun d => (after <? d_seq d)%Z)
    (omap (fun row : string * (Blob * Z) => as_delta row.2.1)
       (List.filter (KV.listed (now e) (delta_prefix rid)) rows))
  = omap (fun row : string * (Blob * Z) => as_delta row.2.1)
      (List.filter (replayable e rid after) rows).
Proof.
  induction rows as [|row rows IH]; [reflexivity|].
  cbn [List.filter]. unfold replayable at 1.
  destruct (KV.listed (now e) (delta_prefix rid) row);
    cbn [andb omap list_omap List.filter]; [|exact IH].
  destruct (as_delta row.2.1) as [d|] eqn:Ed; [|exact IH].
  cbn [List.filter].
  destruct (after <? d_seq d)%Z; cbn [omap list_omap]; rewrite ?Ed; now rewrite IH.
Qed.

Lemma filter_perm {A} (f : A -> bool) (l k : list A) :
  l ≡ₚ k -> List.filter f l ≡ₚ List.filter f k.
Proof.
  induction 1 as [|x l k _ IH|x y l|l k m _ IH1 _ IH2]; simpl.
  - reflexivity.
  - destruct (f x); [now constructor|exact IH].
  - destruct (f x), (f y); try reflexivity. apply perm_swap.
  - now rewrite IH1.
Qed.

Lemma map_to_list_filter_perm (P : string * (Blob * Z) -> bool)
    (t : gmap string (Blob * Z)) :
  map_to_list (filter (fun row => P row = true) t)
  ≡ₚ List.filter P (map_to_list t).
Proof.
  apply NoDup_Permutation.
  - apply NoDup_map_to_list.
  - apply NoDup_ListNoDup, List.NoDup_filter, NoDup_ListNoDup, NoDup_map_to_list.
  - intros [k v]. rewrite elem_of_map_to_list, map_lookup_filter_Some.
    rewrite list_elem_of_In, filter_In, <- list_elem_of_In, elem_of_map_to_list.
    simpl. tauto.
Qed.

(** The deltas that a replay selects are, up to their order, the deltas of
    the replayable rows. *)
Lemma replayed_rows rid e after :
  List.filter (fun d => (after <? d_seq d)%Z) (getDeltas rid e)
  ≡ₚ omap (fun row : string * (Blob * Z) => as_delta row.2.1)
       (map_to_list (filter (fun row => replayable e rid after row = true) (kv e))).
Proof.
  rewrite getDeltas_rows.
  rewrite (filter_perm _ _ _ (sort_by_seq_perm _)).
  rewrite filter_omap_rows.
  now rewrite map_to_list_filter_perm.
Qed.

(** For a [rid] without [GLOB] characters and without NUL, these are the
    rows whose key starts with [delta:<rid>:]. *)
Lemma under_prefix_rows rid e after :
  KV.plain rid = true -> KV.nul_free rid = true ->
  filter (fun row => replayable e rid after row = true) (kv e)
  = filter (fun row => under_prefix e rid after row = true) (kv e).
Proof.
  intros Hp Hn. apply map_filter_ext. intros k x _.
  unfold replayable, under_prefix, KV.listed. cbn [fst snd].
  now rewrite KeyFacts.listed_prefix.
Qed.

(** A [begin] that passes the checks, as read from the parsed value. *)
Lemma read_accepted uid ws v msg w :
  Wire.read v = Some msg -> accepted msg = true ->
  Wire.handle uid ws v w = Some (handleMessage uid ws msg w)
  /\ Wire.to_number (Wire.field "after" v) = Some (m_after msg).
Proof.
  intros Hread Ha.
  assert (Hkey : str_truthy (m_apiKey msg) = true).
  { unfold accepted in Ha.
    apply andb_true_iff in Ha as [Ha _]. now apply andb_true_iff in Ha as [_ Ha]. }
  assert (Hafter : Wire.to_number (Wire.field "after" v) = Some (m_after msg)).
  { unfold Wire.read in Hread.
    destruct (Js.is_str "stop" (Wire.field "type" v)).
    { injection Hread as <-. discriminate. }
    destruct (negb (Js.is_str "begin" (Wire.field "type" v))).
    { injection Hread as <-. discriminate. }
    destruct (Wire.text_or_absent (Wire.field "rid" v)); [|discriminate].
    destruct (Wire.text_or_absent (Wire.field "apiKey" v)); [|discriminate].
    destruct (Wire.body (Wire.field "or_body" v)); [|discriminate].
    destruct (Wire.text_or_absent (Wire.field "model" v)); [|discriminate].
    destruct (Wire.to_number (Wire.field "after" v)); [|discriminate].
    destruct (Wire.text_or_absent (Wire.field "provider" v)); [|discriminate].
    injection Hread as <-. reflexivity. }
  split; [|exact Hafter].
  destruct v; try (unfold Wire.handle; rewrite Hread; reflexivity).
  - cbv in Hread. injection Hread as <-. discriminate.
  - cbv in Hread. injection Hread as <-. discriminate.
Qed.

Lemma replay_eq r ws after e :
  replay r ws after e
  = with_sent
      (sent e
       ++ List.map (fun d => (ws, frame_of d))
            (List.filter (fun d => (after <? d_seq d)%Z) (getDeltas (rid r) e))
       ++ terminal_frames ws r)%list e.
Proof.
  unfold replay, terminal_frames.
  assert (Hfold : forall l e0,
            fold_left (fun e' it => if (after <? d_seq it)%Z
                                    then send ws (frame_of it) e' else e') l e0
            = with_sent (sent e0
                         ++ List.map (fun d => (ws, frame_of d))
                              (List.filter (fun d => (after <? d_seq d)%Z) l))%list e0).
  { induction l as [|d l IH]; intros e0; simpl.
    - rewrite app_nil_r. now destruct e0.
    - destruct (after <? d_seq d)%Z; rewrite IH; [|reflexivity].
      unfold send, with_sent. simpl. now rewrite <- app_assoc. }
  rewrite Hfold. destruct (terminal_frame r); unfold send, with_sent; simpl.
  - now rewrite <- app_assoc.
  - now rewrite app_nil_r.
Qed.

(** *** Effects of [send], [bcast] and the store writes *)

Local Opaque BATCH_BYTES.

Lemma bcast_eq r f e :
  bcast r f e = with_sent (sent e ++ List.map (fun ws => (ws, f)) (sockets r)) e.
Proof.
  unfold bcast. generalize (sockets r) as l. intros l. revert e.
  induction l as [|ws l IH]; intros e; simpl.
  - rewrite app_nil_r. now destruct e.
  - rewrite IH. unfold send, with_sent. simpl. now rewrite <- app_assoc.
Qed.

Lemma is_empty_app_r s c t : Str.is_empty (s ++ String c t) = false.
Proof. now destruct s. Qed.

Lemma error_string_nonempty m : Str.is_empty (error_string m) = false.
Proof. unfold error_string. now destruct m. Qed.

(** [flush] when something is pending, and when nothing is. *)
Lemma flush_pending force r e :
  has_pending r = true ->
  flush force r e =
    let item := mkDelta (seq r + 1) (pending r)
                  (if (0 <? length (pendingImages r))%nat
                   then Some (pendingImages r) else None) in
    let r' := mkRun (rid r) (seq r + 1) (phase r) (error r) (sockets r) "" []
                    false (controller r) (startedAt r) (timeoutTimer r) in
    let e' := bcast r (frame_of item)
                (kv_set (delta_key (rid r) (seq r + 1)) (BDelta item) e) in
    (r', if force then saveSnapshot r' e' else e').
Proof.
  intros H. unfold flush.
  replace (has_pending (with_flushTimer false r)) with true by (now rewrite <- H).
  destruct force; reflexivity.
Qed.

Lemma flush_nothing force r e :
  has_pending r = false ->
  flush force r e =
    (with_flushTimer false r,
     if force then saveSnapshot (with_flushTimer false r) e else e).
Proof.
  intros H. unfold flush.
  replace (has_pending (with_flushTimer false r)) with false by (now rewrite <- H).
  destruct force; reflexivity.
Qed.

(** The run and the environment that [fail] leaves. *)
Lemma fail_running message r e :
  phase r = Running ->
  let err := error_string message in
  let fd := failure_delta r err in
  let r' := mkRun (rid r) (seq r + 1) Error (Some err) (sockets r) "" [] false
                  (option_map (fun _ => true) (controller r)) (startedAt r) false in
  let mid := mkRun (rid r) (seq r + 1) Running (error r) (sockets r) "" [] false
                   (controller r) (startedAt r) false in
  fail message r e
  = (r', notify (NFailed (rid r) err)
           (bcast r' (FErr err)
              (saveSnapshot r'
                 (saveSnapshot mid
                    (bcast r (frame_of fd)
                       (kv_set (delta_key (rid r) (seq r + 1)) (BDelta fd) e)))))).
Proof.
  intros Hph. cbv zeta. unfold fail.
  rewrite (proj2 (is_running_true r) Hph). cbn [negb].
  set (tr := String "010" (String "010" "Run failed: ") ++ error_string message).
  set (r0 := clearTimeoutTimer r).
  set (r1 := with_pending (pending r0 ++ tr) r0).
  assert (Hp : forall b, has_pending (with_flushTimer b r1) = true).
  { intros b. unfold has_pending, r1, tr. cbn [pending with_pending with_flushTimer].
    change (String "010" (String "010" "Run failed: ") ++ error_string message)
      with (String "010" (String "010" "Run failed: " ++ error_string message)).
    now rewrite is_empty_app_r. }
  assert (Hq : queueDelta tr None r0 e = flush false r1 e
               \/ exists b, queueDelta tr None r0 e = (with_flushTimer b r1, e)).
  { unfold queueDelta. change (Str.is_empty tr) with false. cbn [andb]. cbv iota.
    fold r1.
    destruct ((BATCH_BYTES <=? String.length (pending r1))%nat
              || (0 <? length (pendingImages r1))%nat)%bool; [now left|right].
    destruct (negb (flushTimer r1)) eqn:E; [now exists true|].
    exists (flushTimer r1). now destruct r1. }
  assert (Hfin : forall b,
            flush true (with_flushTimer b r1) e
            = (mkRun (rid r) (seq r + 1) (phase r) (error r) (sockets r) "" []
                     false (controller r) (startedAt r) false,
               saveSnapshot
                 (mkRun (rid r) (seq r + 1) (phase r) (error r) (sockets r) "" []
                        false (controller r) (startedAt r) false)
                 (bcast r (frame_of (failure_delta r (error_string message)))
                    (kv_set (delta_key (rid r) (seq r + 1))
                       (BDelta (failure_delta r (error_string message))) e)))).
  { intros b. rewrite flush_pending by apply Hp. reflexivity. }
  destruct Hq as [Hq | [b Hq]]; rewrite Hq.
  - assert (Hp' : has_pending r1 = true).
    { specialize (Hp (flushTimer r1)). now destruct r1. }
    rewrite (flush_pending false r1 e Hp'). cbv beta iota zeta.
    rewrite flush_nothing by reflexivity. cbv beta iota zeta.
    unfold abort, failure_delta, frame_of.
    cbn -[bcast kv_set saveSnapshot notify String.append Z.add].
    rewrite Hph. reflexivity.
  - rewrite Hfin. cbv beta iota zeta. unfold abort.
    cbn -[bcast kv_set saveSnapshot notify String.append Z.add].
    rewrite Hph. reflexivity.
Qed.

Lemma prefix_neq a b s t : a <> b -> String a s <> String b t.
Proof. congruence. Qed.

Lemma run_key_not_delta_key rid rid' n : run_key rid <> delta_key rid' n.
Proof. unfold run_key, delta_key, delta_prefix. cbn. discriminate. Qed.

End CoordinatorFacts.

Section HandlerClaims.
Import Coordinator CoordinatorFacts.

(** C10. A [stop] message whose [rid] is not the [rid] of the current run is
    dropped: [handleMessage] returns the world that [ensure] gives, in which
    nothing was sent and the store, the notices and the provider calls are
    untouched, and a run that was in memory is left exactly as it was
    (phase, seq, buffers and timers included). *)
Theorem stop_other_rid_is_dropped (uid : string) (ws : nat) (msg : Msg) (w : World) :
  type_is "stop" msg = true ->
  m_rid msg <> Some (rid (ensure uid w).1) ->
  handleMessage uid ws msg w = Returned (ensure uid w).2
  /\ env (ensure uid w).2 = env w
  /\ (forall r, runs w !! uid = Some r -> (ensure uid w).2 = w).
Proof.
  intros Hty Hrid. split; [|split].
  - unfold handleMessage. destruct (ensure uid w) as [r w'] eqn:E. simpl in *.
    rewrite Hty. destruct (m_rid msg) as [mr|]; [|reflexivity].
    destruct (String.eqb_spec mr (rid r)) as [->|]; [congruence|reflexivity].
  - apply ensure_env.
  - intros r Hr. now rewrite (ensure_found _ _ _ Hr).
Qed.

Lemma stop_other_rid_is_dropped_witness :
  handleMessage "u1" 1%nat (Examples.stop_msg "r2") Examples.w_running
  = Returned (ensure "u1" Examples.w_running).2
  /\ env (ensure "u1" Examples.w_running).2 = env Examples.w_running
  /\ (forall r, runs Examples.w_running !! "u1" = Some r ->
                (ensure "u1" Examples.w_running).2 = Examples.w_running).
Proof.
  apply (stop_other_rid_is_dropped "u1" 1%nat (Examples.stop_msg "r2") Examples.w_running).
  - reflexivity.
  - vm_compute. discriminate.
Defined.

(** C4, as amended. While the run of the uid is [running], a [begin] message
    whose [rid] is not the run's leaves the runs (so the run's phase, seq,
    pending text and pending images), the store and the provider calls as
    they were, whatever else the message holds; and when the message passes
    the checks at the head of [handleMessage] the reply is
    [{type:"err", message:"busy"}], sent to the sender alone. *)
Theorem begin_other_rid_while_running (uid : string) (ws : nat) (msg : Msg)
    (w : World) (r : Run) :
  runs w !! uid = Some r ->
  phase r = Running ->
  type_is "begin" msg = true ->
  m_rid msg <> Some (rid r) ->
  runs (world_of (handleMessage uid ws msg w)) = runs w
  /\ kv (env (world_of (handleMessage uid ws msg w))) = kv (env w)
  /\ calls (env (world_of (handleMessage uid ws msg w))) = calls (env w)
  /\ (accepted msg = true ->
      handleMessage uid ws msg w
      = Returned (mkWorld (runs w) (send ws (FErr "busy") (env w)))).
Proof.
  intros Hr Hph Hty Hrid.
  assert (Hbusy : forall msgRid, m_rid msg = Some msgRid ->
            (is_running r && negb (String.eqb msgRid (rid r)))%bool = true).
  { intros msgRid E. rewrite (proj2 (is_running_true r) Hph). simpl.
    destruct (String.eqb_spec msgRid (rid r)); [congruence|reflexivity]. }
  assert (Hacc : accepted msg = true ->
            handleMessage uid ws msg w
            = Returned (mkWorld (runs w) (send ws (FErr "busy") (env w)))).
  { intros Ha.
    destruct (accepted_inv _ Ha) as (msgRid & apiKey & body & messages & H1 & H2 & H3 & H4 & H5 & H6 & H7).
    rewrite (handleMessage_accepted _ _ _ _ _ _ _ _ _ Hr Hty H1 H2 H3 H4 H5 H6 H7).
    now rewrite (Hbusy _ H1). }
  split; [|split; [|split; [|exact Hacc]]];
    unfold handleMessage; rewrite (ensure_found _ _ _ Hr);
    rewrite (type_is_excl _ Hty), Hty; simpl;
    destruct (m_rid msg) as [msgRid|] eqn:E1; try reflexivity;
    destruct (m_apiKey msg) as [apiKey|]; try reflexivity;
    destruct (body_of msg) as [body|]; try reflexivity;
    destruct (_ || _ || _)%bool; try reflexivity;
    destruct (Sanitize.sanitizeMessages (b_messages body)); try reflexivity;
    rewrite (Hbusy _ eq_refl); reflexivity.
Qed.

Lemma begin_other_rid_while_running_witness :
  exists r,
    runs Examples.w_running !! "u1" = Some r
    /\ handleMessage "u1" 1%nat (Examples.begin "r2" None) Examples.w_running
       = Returned (mkWorld (runs Examples.w_running)
                     (send 1%nat (FErr "busy") (env Examples.w_running))).
Proof.
  eexists. split; [reflexivity|].
  eapply (begin_other_rid_while_running "u1" 1%nat (Examples.begin "r2" None)
            Examples.w_running).
  - reflexivity.
  - reflexivity.
  - reflexivity.
  - vm_compute. discriminate.
  - reflexivity.
Defined.

(** C4 as stated fails on a [begin] message that lacks a field: with run
    [r1] running, [{type:"begin", rid:"r2"}] is answered [missing_fields],
    not [busy]. *)
Lemma begin_other_rid_missing_fields :
  (exists r, runs Examples.w_running !! "u1" = Some r
             /\ phase r = Running /\ rid r = "r1")
  /\ handleMessage "u1" 1%nat (Examples.bare_begin "r2" None) Examples.w_running
     = Returned (mkWorld (runs Examples.w_running)
                   (send 1%nat (FErr "missing_fields") (env Examples.w_running))).
Proof. split; [eexists; split; [reflexivity|split; reflexivity]|reflexivity]. Qed.

(** C6. An error thrown by the provider call whose name is [AbortError] or
    whose message matches [/abort/i] is handled exactly as a normal return
    is: [fail] is not reached, a run that is still [running] is stopped and
    ends in phase [done] with no error, and a run in another phase is left
    as it is. *)
Theorem abort_is_not_a_failure (err : JsError) (r : Run) (e : Env) :
  e_name err = "AbortError" \/ contains_ci "abort" (e_message err) = true ->
  beginStream_settle (Rejected err) r e = beginStream_settle Resolved r e
  /\ (phase r = Running ->
      beginStream_settle (Rejected err) r e = stop r e
      /\ phase (beginStream_settle (Rejected err) r e).1 = Done
      /\ error (beginStream_settle (Rejected err) r e).1 = None)
  /\ (phase r <> Running -> beginStream_settle (Rejected err) r e = (r, e)).
Proof.
  intros Habort.
  assert (Ha : is_abort err (error_string (e_message err)) = true).
  { unfold is_abort. destruct Habort as [-> | Hm]; [reflexivity|].
    apply orb_true_iff. right. unfold error_string.
    destruct (e_message err); [discriminate Hm|exact Hm]. }
  assert (Heq : beginStream_settle (Rejected err) r e = beginStream_settle Resolved r e).
  { unfold beginStream_settle. rewrite Ha.
    destruct (is_running r) eqn:E; simpl; rewrite ?E; reflexivity. }
  split; [exact Heq|split].
  - intros Hph. rewrite Heq. unfold beginStream_settle.
    rewrite (proj2 (is_running_true r) Hph).
    split; [reflexivity|].
    unfold stop. rewrite (proj2 (is_running_true r) Hph). simpl.
    destruct (flush true (clearTimeoutTimer r) e). split; reflexivity.
  - intros Hph. rewrite Heq. unfold beginStream_settle.
    destruct (is_running r) eqn:E; [|reflexivity].
    apply is_running_true in E. contradiction.
Qed.

Lemma abort_is_not_a_failure_witness :
  beginStream_settle (Rejected (mkError "Error" "The operation was aborted."))
    Examples.r_par (env Examples.w_par)
  = stop Examples.r_par (env Examples.w_par)
  /\ phase (beginStream_settle
              (Rejected (mkError "Error" "The operation was aborted."))
              Examples.r_par (env Examples.w_par)).1 = Done.
Proof.
  destruct (abort_is_not_a_failure
              (mkError "Error" "The operation was aborted.")
              Examples.r_par (env Examples.w_par)) as (_ & H & _).
  - right. reflexivity.
  - destruct (H eq_refl) as (H1 & H2 & _). split; [exact H1|exact H2].
Defined.

(** C5, as amended. When the provider call is rejected with an error that
    is not a cancellation, or the timeout timer fires, while the run is
    [running]:
    the run ends in phase [error] with [error] set to the error text, its
    buffers empty, its timers cleared and its controller aborted; one delta
    was persisted, holding the pending text followed by the trailer
    ["\n\nRun failed: <err>"]; the snapshot of the final run was persisted;
    every socket of the run was sent that delta and then
    [{type:"err", message:<err>}]; and a poll of the uid reports phase
    [error], [done: true] and the error text. [<err>] is the message of the
    error, or ["stream_failed"] when that is empty. *)
Theorem failure_ends_the_run (uid : string) (w : World) (r : Run)
    (ev : Event) (message : string) :
  runs w !! uid = Some r ->
  phase r = Running ->
  Failure uid r ev message ->
  let err := error_string message in
  let r' := mkRun (rid r) (seq r + 1) Error (Some err) (sockets r) "" [] false
                  (option_map (fun _ => true) (controller r)) (startedAt r) false in
  let w' := step w ev in
  (message <> "" -> err = message)
  /\ runs w' !! uid = Some r'
  /\ kv_get (env w') (delta_key (rid r) (seq r + 1))
     = Some (BDelta (failure_delta r err))
  /\ kv_get (env w') (run_key (rid r)) = Some (BSnap (snapshot_of r'))
  /\ sent (env w')
     = (sent (env w)
        ++ List.map (fun ws => (ws, frame_of (failure_delta r err))) (sockets r)
        ++ List.map (fun ws => (ws, FErr err)) (sockets r))%list
  /\ p_phase (handlePoll uid w').1 = Error
  /\ p_done (handlePoll uid w').1 = true
  /\ p_error (handlePoll uid w').1 = Some err.
Proof.
  intros Hr Hph Hfail. cbv zeta.
  set (err := error_string message).
  set (r' := mkRun (rid r) (seq r + 1) Error (Some err) (sockets r) "" [] false
                   (option_map (fun _ => true) (controller r)) (startedAt r) false).
  assert (Herr : error_string err = err).
  { unfold err, error_string. now destruct message. }
  assert (Hstep : step w ev = store uid (fail err r (env w)) w).
  { destruct Hfail as [e0 Hab | Htt]; simpl; unfold on_run; rewrite Hr.
    - unfold beginStream_settle. rewrite (proj2 (is_running_true r) Hph), Hab.
      cbn [negb]. fold err. rewrite (fail_running err r (env w) Hph). reflexivity.
    - rewrite Htt, (proj2 (is_running_true r) Hph). reflexivity. }
  rewrite Hstep, (fail_running err r (env w) Hph). cbv zeta. rewrite !Herr.
  fold r'. unfold store. cbn [fst snd runs env].
  rewrite !bcast_eq.
  split; [|split; [|split; [|split; [|split]]]].
  - intros Hm. unfold err, error_string. now destruct message.
  - apply lookup_insert_eq.
  - unfold kv_get, saveSnapshot, kv_set, notify. cbn.
    rewrite !KVFacts.get_set_ne by apply run_key_not_delta_key.
    apply KVFacts.get_set_eq.
  - unfold kv_get, saveSnapshot, kv_set, notify. cbn.
    apply KVFacts.get_set_eq.
  - unfold saveSnapshot, kv_set, notify. cbn. now rewrite <- app_assoc.
  - unfold handlePoll, meta. cbn [runs]. rewrite lookup_insert_eq. cbn.
    repeat split. unfold error_text. cbn.
    unfold err. now rewrite error_string_nonempty.
Qed.

Lemma failure_ends_the_run_witness :
  runs (step Examples.w_par (ESettle "u1" (Rejected Examples.boom))) !! "u1"
  = Some (mkRun "r1" 0 Error (Some "boom") [1%nat] "" [] false (Some true) 0 false)
  /\ sent (env (step Examples.w_par (ESettle "u1" (Rejected Examples.boom))))
     = [(1%nat, FDelta 0 ("par" ++ String "010" (String "010" "Run failed: boom")) None);
        (1%nat, FErr "boom")]
  /\ p_error (handlePoll "u1"
                (step Examples.w_par (ESettle "u1" (Rejected Examples.boom)))).1
     = Some "boom".
Proof.
  destruct (failure_ends_the_run "u1" Examples.w_par Examples.r_par
              (ESettle "u1" (Rejected Examples.boom)) "boom")
    as (_ & H1 & _ & _ & H2 & _ & _ & H3).
  - reflexivity.
  - reflexivity.
  - apply (FailRejected "u1" Examples.r_par Examples.boom). reflexivity.
  - split; [exact H1|split; [exact H2|exact H3]].
Defined.

(** C1, as amended. Take a run that is not [idle] (the run that [ensure]
    finds in memory or re-materializes) whose [rid] has none of [*], [?],
    [[] and no NUL code unit, and a [begin] message, as parsed from the
    socket, with the run's [rid] that passes the checks at the head of
    [handleMessage]. The handler sends to the issuing socket, and to no
    other, the deltas [replayed] and then the terminal frame, and changes
    nothing else: the store, the notices and the provider calls are as
    before (no provider call is made). The cursor is [+after] when that is
    a finite number and -1 otherwise: -1 when [after] is absent, 0 when it
    is [null], the number when it is one, 0 for a text that is empty once
    trimmed, and -1 for a text that, once trimmed, starts with a character
    that no numeric literal starts with (not a digit, a sign, a point or
    [I]). [replayed] is in ascending order
    of [seq] and holds, up to order, exactly the deltas of the rows that
    have not expired, whose key starts with [delta:<rid>:] and whose [seq]
    is above the cursor. The terminal frame is sent if and only if the
    phase is terminal: [{type:"done"}] for [done], [{type:"err", message}]
    for [error] and [evicted]. *)
Theorem begin_same_rid_replays (uid : string) (ws : nat) (v : jsval)
    (msg : Msg) (w w1 : World) (r : Run) :
  Wire.read v = Some msg ->
  ensure uid w = (r, w1) ->
  phase r <> Idle ->
  accepted msg = true ->
  m_rid msg = Some (rid r) ->
  KV.plain (rid r) = true ->
  KV.nul_free (rid r) = true ->
  let after := default (-1) (m_after msg) in
  let replayed :=
    List.filter (fun d => (after <? d_seq d)%Z) (getDeltas (rid r) (env w)) in
  Wire.handle uid ws v w
  = Some (Returned
            (mkWorld (runs w1)
               (with_sent (sent (env w)
                           ++ List.map (fun d => (ws, frame_of d)) replayed
                           ++ terminal_frames ws r)%list (env w))))
  /\ Wire.cursor (Wire.field "after" v) = Some after
  /\ (Wire.field "after" v = JUndef -> after = -1)
  /\ (Wire.field "after" v = JNull -> after = 0)
  /\ (forall z, Wire.field "after" v = JNum z -> after = z)
  /\ (forall s, Wire.field "after" v = JStr s -> Str.trim s = "" -> after = 0)
  /\ (forall s c t,
        Wire.field "after" v = JStr s -> Str.trim s = String c t ->
        Wire.is_digit c = false ->
        c <> "+"%char -> c <> "-"%char -> c <> "."%char -> c <> "I"%char ->
        after = -1)
  /\ StronglySorted seq_le replayed
  /\ replayed
     ≡ₚ omap (fun row : string * (Blob * Z) => as_delta row.2.1)
          (map_to_list
             (filter (fun row => under_prefix (env w) (rid r) after row = true)
                (kv (env w))))
  /\ (is_terminal (phase r) = false -> terminal_frames ws r = [])
  /\ (is_terminal (phase r) = true ->
      terminal_frames ws r = [(ws, FDone)]
      \/ exists m, terminal_frames ws r = [(ws, FErr m)]).
Proof.
  intros Hread Hens Hph Ha Hrid Hplain Hnul. cbv zeta.
  assert (Hr : runs w1 !! uid = Some r).
  { assert (H := ensure_lookup uid w). now rewrite Hens in H. }
  assert (He : env w1 = env w).
  { assert (H := ensure_env uid w). now rewrite Hens in H. }
  destruct (accepted_inv _ Ha)
    as (msgRid & apiKey & body & messages & H1 & H2 & H3 & H4 & H5 & H6 & H7).
  assert (msgRid = rid r) as -> by congruence.
  assert (Hty : type_is "begin" msg = true).
  { unfold accepted in Ha. now repeat (apply andb_true_iff in Ha as [Ha _]). }
  destruct (read_accepted uid ws v msg w Hread Ha) as [Hh Hafter].
  split; [|split; [|split; [|split; [|split; [|split; [|split; [|split;
    [|split; [|split]]]]]]]]].
  - rewrite Hh. f_equal.
    rewrite handleMessage_ensure, Hens. cbn [snd].
    rewrite (handleMessage_accepted _ _ _ _ _ _ _ _ _ Hr Hty H1 H2 H3 H4 H5 H6 H7).
    rewrite String.eqb_refl. cbn [negb andb].
    rewrite andb_false_r, He.
    destruct (phase r) eqn:E; try contradiction; now rewrite replay_eq.
  - unfold Wire.cursor. now rewrite Hafter.
  - intros E. rewrite E in Hafter. injection Hafter as <-. reflexivity.
  - intros E. rewrite E in Hafter. injection Hafter as <-. reflexivity.
  - intros z E. rewrite E in Hafter. injection Hafter as <-. reflexivity.
  - intros s E Ht. rewrite E in Hafter. cbn [Wire.to_number] in Hafter.
    unfold Wire.number_of_text in Hafter. rewrite Ht in Hafter.
    injection Hafter as <-. reflexivity.
  - intros s c t E Ht Hd N1 N2 N3 N4. rewrite E in Hafter.
    cbn [Wire.to_number] in Hafter.
    unfold Wire.number_of_text in Hafter. rewrite Ht in Hafter.
    apply Ascii.eqb_neq in N1, N2, N3, N4. rewrite N1, N2 in Hafter.
    unfold Wire.digits, Wire.numeric_head in Hafter.
    cbn [Wire.all_digits] in Hafter. rewrite Hd, N3, N4 in Hafter.
    cbn [andb orb] in Hafter. injection Hafter as <-. reflexivity.
  - apply filter_sorted, sort_by_seq_sorted.
  - rewrite <- under_prefix_rows by assumption. apply replayed_rows.
  - unfold terminal_frames, terminal_frame. now destruct (phase r).
  - unfold terminal_frames, terminal_frame.
    destruct (phase r); try discriminate; eauto.
Qed.

Lemma begin_same_rid_replays_witness :
  Wire.handle "u1" 2%nat (Examples.wire_begin "r1" JUndef) Examples.w_done
  = Some (Returned
            (mkWorld (runs Examples.w_done)
               (with_sent [(1%nat, FDelta 0 "hello" None); (1%nat, FDone);
                           (2%nat, FDelta 0 "hello" None); (2%nat, FDone)]
                  (env Examples.w_done))))
  /\ Wire.handle "u1" 2%nat (Examples.wire_begin "r1" JNull) Examples.w_done
     = Some (Returned
               (mkWorld (runs Examples.w_done)
                  (with_sent [(1%nat, FDelta 0 "hello" None); (1%nat, FDone);
                              (2%nat, FDone)]
                     (env Examples.w_done)))).
Proof.
  split.
  - destruct (begin_same_rid_replays "u1" 2%nat (Examples.wire_begin "r1" JUndef)
                (Examples.begin "r1" None) Examples.w_done Examples.w_done
                (mkRun "r1" 0 Done None [1%nat] "" [] false (Some true) 0 false))
      as (H & _).
    + reflexivity.
    + vm_compute. reflexivity.
    + discriminate.
    + reflexivity.
    + reflexivity.
    + reflexivity.
    + reflexivity.
    + rewrite H. vm_compute. reflexivity.
  - destruct (begin_same_rid_replays "u1" 2%nat (Examples.wire_begin "r1" JNull)
                (Examples.begin "r1" (Some 0)) Examples.w_done Examples.w_done
                (mkRun "r1" 0 Done None [1%nat] "" [] false (Some true) 0 false))
      as (H & _).
    + reflexivity.
    + vm_compute. reflexivity.
    + discriminate.
    + reflexivity.
    + reflexivity.
    + reflexivity.
    + reflexivity.
    + rewrite H. vm_compute. reflexivity.
Defined.

(** C1 as stated fails on a [begin] message that carries the run's [rid]
    and a cursor but lacks a field: with run [r1] done and one delta
    persisted, [{type:"begin", rid:"r1", after:-1}] is answered
    [missing_fields] and nothing is replayed. *)
Lemma begin_same_rid_missing_fields :
  (exists r, runs Examples.w_done !! "u1" = Some r
             /\ phase r = Done /\ rid r = "r1")
  /\ getDeltas "r1" (env Examples.w_done) = [mkDelta 0 "hello" None]
  /\ handleMessage "u1" 1%nat (Examples.bare_begin "r1" (Some (-1))) Examples.w_done
     = Returned (mkWorld (runs Examples.w_done)
                   (send 1%nat (FErr "missing_fields") (env Examples.w_done))).
Proof.
  split; [eexists; split; [reflexivity|split; reflexivity]|].
  split; vm_compute; reflexivity.
Qed.

(** C5 as stated fails on an error whose message is empty: the trailer,
    the [error] of the run, the frame and the poll carry ["stream_failed"],
    not the message. *)
Lemma empty_message_is_stream_failed :
  runs (step Examples.w_par (ESettle "u1" (Rejected Examples.silent))) !! "u1"
  = Some (mkRun "r1" 0 Error (Some "stream_failed") [1%nat] "" [] false
                (Some true) 0 false)
  /\ sent (env (step Examples.w_par (ESettle "u1" (Rejected Examples.silent))))
     = [(1%nat, FDelta 0 ("par" ++ String "010"
                            (String "010" "Run failed: stream_failed")) None);
        (1%nat, FErr "stream_failed")]
  /\ p_error (handlePoll "u1"
                (step Examples.w_par (ESettle "u1" (Rejected Examples.silent)))).1
     = Some "stream_failed".
Proof.
  split; [vm_compute; reflexivity|].
  split; vm_compute; reflexivity.
Qed.

End HandlerClaims.

(** ** The event-stream readers *)

Module SSEFacts.
Import SSE StrFacts.

Lemma split_lf_cons c s :
  split_lf (String c s)
  = if Ascii.eqb c LF then (EmptyString :: (split_lf s).1, (split_lf s).2)
    else match (split_lf s).1 with
         | [] => ([], String c (split_lf s).2)
         | l :: ls => (String c l :: ls, (split_lf s).2)
         end.
Proof. simpl. now destruct (split_lf s). Qed.

Lemma split_lf_app s t :
  split_lf (s ++ t)
  = ((split_lf s).1 ++ (split_lf ((split_lf s).2 ++ t)).1,
     (split_lf ((split_lf s).2 ++ t)).2)%list.
Proof.
  induction s as [|c s IH].
  - rewrite append_nil_l. cbn [split_lf fst snd]. rewrite append_nil_l.
    now destruct (split_lf t).
  - rewrite append_cons, !split_lf_cons, IH. cbn [fst snd].
    destruct (Ascii.eqb c LF) eqn:Ec; [reflexivity|].
    destruct (split_lf s) as [l1 r1]. cbn [fst snd].
    destruct l1 as [|l ls]; cbn [fst snd app].
    + rewrite append_cons, split_lf_cons, Ec.
      destruct (split_lf (r1 ++ t)) as [l2 r2]. cbn [fst snd].
      now destruct l2.
    + reflexivity.
Qed.

Section OpenRouter.
Variable JSON_parse : string -> option jsval.
Variable exclude : bool.

Let line := openrouter_line JSON_parse exclude.
Let read := openrouter_read JSON_parse exclude.

Lemma line_set_buf b st l : line (set_buf b st) l = set_buf b (line st l).
Proof.
  unfold line, openrouter_line. cbn [finished set_buf].
  destruct (finished st); [reflexivity|].
  destruct (negb (Str.startsWith "data: " l)); [reflexivity|].
  destruct (String.eqb _ "[DONE]"); [reflexivity|].
  destruct (JSON_parse _) as [v|]; [|reflexivity].
  destruct (Js.prop v "choices") as [ch|]; [|reflexivity].
  destruct (negb (Js.truthy _)); [reflexivity|].
  destruct st as [b0 hr hc em fin].
  unfold emit, set_reasoning, set_content, set_buf. cbn.
  destruct (Js.truthy (opt_prop _ "reasoning") && negb exclude)%bool,
    (Js.truthy (opt_prop _ "content")), (Js.truthy (opt_prop _ "images")),
    hr, hc; reflexivity.
Qed.

Lemma lines_set_buf b ls st :
  fold_left line ls (set_buf b st) = set_buf b (fold_left line ls st).
Proof.
  revert st. induction ls as [|l ls IH]; intros st; simpl; [reflexivity|].
  now rewrite line_set_buf, IH.
Qed.

Lemma lines_finished ls st : finished st = true -> fold_left line ls st = st.
Proof.
  intros H. induction ls as [|l ls IH]; simpl; [reflexivity|].
  unfold line at 2, openrouter_line. now rewrite H.
Qed.

Lemma read_finished st c : finished st = true -> read st c = st.
Proof. intros H. unfold read, openrouter_read. now rewrite H. Qed.

Lemma reads_finished cs st : finished st = true -> fold_left read cs st = st.
Proof.
  intros H. induction cs as [|c cs IH]; simpl; [reflexivity|].
  now rewrite read_finished.
Qed.

Lemma read_unfold st c :
  finished st = false ->
  read st c = set_buf (split_lf (buf st ++ c)).2
                (fold_left line (split_lf (buf st ++ c)).1 st).
Proof.
  intros H. unfold read, openrouter_read. rewrite H.
  destruct (split_lf (buf st ++ c)) as [ls rest]. apply lines_set_buf.
Qed.

Lemma same_output_refl a : same_output a a.
Proof. unfold same_output. tauto. Qed.

Lemma same_output_trans a b c : same_output a b -> same_output b c -> same_output a c.
Proof.
  unfold same_output. intros (?&?&?&Hf&Hb) (?&?&?&?&Hb').
  repeat split; try congruence. intros Hfa. rewrite Hb by exact Hfa. apply Hb'. congruence.
Qed.

Lemma same_output_sym a b : same_output a b -> same_output b a.
Proof.
  unfold same_output. intros (?&?&?&Hf&Hb).
  repeat split; try congruence. intros Hfb. symmetry. apply Hb. congruence.
Qed.

Lemma same_output_set_buf b1 b2 st :
  finished st = true -> same_output (set_buf b1 st) (set_buf b2 st).
Proof. intros H. unfold same_output. cbn. repeat split. congruence. Qed.

(** Reading [a] and then [b] is reading [a ++ b]. *)
Lemma read_read st a b :
  finished st = false ->
  same_output (read (read st a) b) (read st (a ++ b)).
Proof.
  intros Hst. rewrite (read_unfold st a Hst), (read_unfold st (a ++ b) Hst).
  assert (Hsplit := split_lf_app (buf st ++ a) b).
  rewrite append_assoc in Hsplit.
  rewrite Hsplit. cbn [fst snd].
  destruct (split_lf (buf st ++ a)) as [l1 r1]. cbn [fst snd].
  rewrite fold_left_app.
  set (st1 := fold_left line l1 st).
  destruct (finished st1) eqn:Hf.
  - rewrite read_finished by exact Hf.
    rewrite lines_finished by exact Hf. now apply same_output_set_buf.
  - rewrite read_unfold by exact Hf. cbn [buf set_buf].
    rewrite lines_set_buf. destruct (fold_left line _ _). apply same_output_refl.
Qed.

Lemma read_same_output st st' c :
  same_output st st' -> same_output (read st c) (read st' c).
Proof.
  intros H. destruct (finished st) eqn:Hf.
  - rewrite read_finished by exact Hf.
    rewrite read_finished by (destruct H as (_&_&_&<-&_); exact Hf). exact H.
  - assert (st = st') as <-; [|apply same_output_refl].
    destruct H as (?&?&?&?&Hb). specialize (Hb Hf).
    destruct st, st'. simpl in *. congruence.
Qed.

Lemma reads_same_output cs st st' :
  same_output st st' -> same_output (fold_left read cs st) (fold_left read cs st').
Proof.
  revert st st'. induction cs as [|c cs IH]; intros st st' H; simpl; [exact H|].
  apply IH. now apply read_same_output.
Qed.

(** Reading the chunks one by one is reading the whole stream at once. *)
Lemma reads_joined cs c st :
  finished st = false ->
  same_output (fold_left read (c :: cs) st) (read st (joined (c :: cs))).
Proof.
  revert c st. induction cs as [|c' cs IH]; intros c st Hst.
  - cbn [fold_left joined fold_right]. rewrite append_nil_r. apply same_output_refl.
  - change (fold_left read (c :: c' :: cs) st)
      with (fold_left read (c' :: cs) (read st c)).
    change (joined (c :: c' :: cs)) with (c ++ joined (c' :: cs)).
    destruct (finished (read st c)) eqn:Hf.
    + rewrite (reads_finished (c' :: cs) (read st c) Hf).
      eapply same_output_trans; [|apply read_read; exact Hst].
      rewrite (read_finished (read st c) _ Hf). apply same_output_refl.
    + eapply same_output_trans; [apply IH; exact Hf|].
      apply read_read; exact Hst.
Qed.

Lemma stream_joined cs :
  same_output (streamOpenRouter JSON_parse exclude cs) (read start (joined cs)).
Proof.
  unfold streamOpenRouter. fold read. destruct cs as [|c cs].
  - apply same_output_refl.
  - now apply reads_joined.
Qed.

(** [streamOpenRouter] makes the same calls of [onDelta] however the stream
    is cut into chunks. *)
Lemma openrouter_partition_independent cs1 cs2 :
  joined cs1 = joined cs2 ->
  emitted (streamOpenRouter JSON_parse exclude cs1)
  = emitted (streamOpenRouter JSON_parse exclude cs2).
Proof.
  intros H.
  destruct (stream_joined cs1) as (E1 & _), (stream_joined cs2) as (E2 & _).
  now rewrite E1, E2, H.
Qed.

End OpenRouter.

End SSEFacts.

Section ReaderClaims.
Import SSE.

(** C9. [streamGoogle] does not keep the last, unfinished piece of the
    buffer back: it visits every piece of the split buffer at every read.
    An event whose line feed arrives in a later chunk is decoded and
    forwarded when its text arrives and again when its line feed does. The
    same stream in one chunk is forwarded once. *)
Theorem google_forwards_frame_twice :
  joined [google_frame; line_feed] = joined [google_frame ++ line_feed]
  /\ emitted (streamGoogle Json.parse [google_frame ++ line_feed])
     = [mkEmit (JStr "hi") JUndef]
  /\ emitted (streamGoogle Json.parse [google_frame; line_feed])
     = [mkEmit (JStr "hi") JUndef; mkEmit (JStr "hi") JUndef].
Proof.
  split; [vm_compute; reflexivity|].
  split; vm_compute; reflexivity.
Qed.

End ReaderClaims.

Section EvictionClaims.
Import Coordinator.

(** C2. Run [r1] of user [u1] ended in phase [done] with one delta; its
    snapshot and its delta are in the store and live. Once the run is
    evicted from the [runs] map, a poll of [u1] finds no snapshot under
    [run:u1] and returns the idle sentinel; a socket that reconnects and
    asks to resume [r1] is sent nothing, and a second provider call is made.
    For a user whose uid equals the [rid], the snapshot is found and the
    poll after the eviction returns the final state. *)
Theorem evicted_run_is_not_found :
  runs Examples.w_done !! "u1"
  = Some (mkRun "r1" 0 Done None [1%nat] "" [] false (Some true) 0 false)
  /\ runs Examples.w_evicted !! "u1" = None
  /\ kv_get (env Examples.w_evicted) (run_key "r1")
     = Some (BSnap (mkSnapshot "r1" 0 Done None 0))
  /\ getDeltas "r1" (env Examples.w_evicted) = [mkDelta 0 "hello" None]
  /\ (handlePoll "u1" Examples.w_evicted).1 = sentinel
  /\ sent (env Examples.w_reconnected) = sent (env Examples.w_evicted)
  /\ length (calls (env Examples.w_evicted)) = 1%nat
  /\ length (calls (env Examples.w_reconnected)) = 2%nat
  /\ runs Examples.w_same_evicted !! "r1" = None
  /\ (handlePoll "r1" Examples.w_same_evicted).1
     = {| p_rid := Some "r1"; p_seq := 0; p_phase := Done; p_done := true;
          p_error := None; p_text := "hello"; p_images := [] |}.
Proof.
  do 9 (split; [vm_compute; reflexivity|]).
  vm_compute; reflexivity.
Qed.

End EvictionClaims.


(** ** The coordinator: sequence numbers *)

Module SeqFacts.
Import Coordinator CoordinatorFacts.

Local Opaque BATCH_BYTES.

Lemma kv_bcast r f e : kv (bcast r f e) = kv e.
Proof. now rewrite bcast_eq. Qed.

Lemma now_bcast r f e : now (bcast r f e) = now e.
Proof. now rewrite bcast_eq. Qed.

Lemma is_delta_key_run_key rid : is_delta_key (run_key rid) = false.
Proof. reflexivity. Qed.

Lemma is_delta_key_prompt_key rid : is_delta_key (prompt_key rid) = false.
Proof. reflexivity. Qed.

Lemma is_delta_key_delta_key rid n : is_delta_key (delta_key rid n) = true.
Proof.
  unfold is_delta_key, delta_key, delta_prefix.
  rewrite !StrFacts.append_assoc. apply StrFacts.prefix_append.
Qed.

Lemma deltas_kept_refl e : deltas_kept e e.
Proof. now intros k _. Qed.

Lemma deltas_kept_snapshot r e : deltas_kept e (saveSnapshot r e).
Proof.
  intros k Hk. unfold saveSnapshot, kv_set, KV.set, KV.set_ttl. cbn.
  apply lookup_insert_ne. intros <-. now rewrite is_delta_key_run_key in Hk.
Qed.

Lemma deltas_kept_trans e1 e2 e3 :
  deltas_kept e1 e2 -> deltas_kept e2 e3 -> deltas_kept e1 e3.
Proof. intros H1 H2 k Hk. now rewrite H2, H1. Qed.

Lemma seq_step_kept_after r e r1 e1 r2 e2 :
  seq_step r e (r1, e1) ->
  rid r2 = rid r1 -> seq r2 = seq r1 -> deltas_kept e1 e2 ->
  seq_step r e (r2, e2).
Proof.
  unfold seq_step. cbn. intros (Hrid & H) Hr2 Hs2 Hk.
  split; [congruence|].
  destruct H as [(Hs & Hd) | (Hs & (d & Hd1 & Hd2) & Hd3)].
  - left. split; [congruence|]. now apply deltas_kept_trans with e1.
  - right. split; [congruence|]. split.
    + exists d. split; [|exact Hd2]. rewrite Hk; [exact Hd1|].
      apply is_delta_key_delta_key.
    + intros k Hk1 Hk2. rewrite Hk by exact Hk1. now apply Hd3.
Qed.

Lemma flush_seq_step force r e : seq_step r e (flush force r e).
Proof.
  destruct (has_pending r) eqn:Hp.
  - rewrite (flush_pending force r e Hp). cbv zeta.
    apply seq_step_kept_after with
      (r1 := mkRun (rid r) (seq r + 1) (phase r) (error r) (sockets r) "" []
                   false (controller r) (startedAt r) (timeoutTimer r))
      (e1 := bcast r (frame_of (mkDelta (seq r + 1) (pending r)
                                  (if (0 <? length (pendingImages r))%nat
                                   then Some (pendingImages r) else None)))
               (kv_set (delta_key (rid r) (seq r + 1))
                  (BDelta (mkDelta (seq r + 1) (pending r)
                             (if (0 <? length (pendingImages r))%nat
                              then Some (pendingImages r) else None))) e));
      try reflexivity.
    + unfold seq_step. cbn [fst snd].
      split; [reflexivity|]. right. split; [reflexivity|]. split.
      * eexists. split.
        -- rewrite kv_bcast.
           unfold kv_set, KV.set, KV.set_ttl. cbn. apply lookup_insert_eq.
        -- reflexivity.
      * intros k _ Hne. rewrite kv_bcast.
        unfold kv_set, KV.set, KV.set_ttl. cbn. now apply lookup_insert_ne.
    + destruct force; [apply deltas_kept_snapshot|apply deltas_kept_refl].
  - rewrite (flush_nothing force r e Hp).
    split; [reflexivity|]. left. split; [reflexivity|].
    destruct force; [apply deltas_kept_snapshot|apply deltas_kept_refl].
Qed.

(** An operation applied to a run that differs from [r] in its buffers. *)
Lemma seq_step_from r r0 e re :
  rid r0 = rid r -> seq r0 = seq r -> seq_step r0 e re -> seq_step r e re.
Proof.
  unfold seq_step, delta_added. intros Hr Hs. rewrite Hr, Hs. tauto.
Qed.

Lemma seq_step_refl r e : seq_step r e (r, e).
Proof. split; [reflexivity|]. left. split; [reflexivity|apply deltas_kept_refl]. Qed.

Lemma queueDelta_seq_step text images r e :
  seq_step r e (queueDelta text images r e).
Proof.
  unfold queueDelta.
  destruct (Str.is_empty text && no_images images)%bool; [apply seq_step_refl|].
  match goal with
  | |- context [flush false ?r1 e] =>
      assert (Hr : rid r1 = rid r) by (destruct (Str.is_empty text), images; reflexivity);
      assert (Hs : seq r1 = seq r) by (destruct (Str.is_empty text), images; reflexivity);
      set (q := r1) in *
  end.
  destruct (_ || _)%bool.
  - apply (seq_step_from r q e _ Hr Hs), flush_seq_step.
  - destruct (negb (flushTimer q)).
    + split; [exact Hr|]. left. split; [exact Hs|apply deltas_kept_refl].
    + split; [exact Hr|]. left. split; [exact Hs|apply deltas_kept_refl].
Qed.

Lemma deltas_kept_notify n e : deltas_kept e (notify n e).
Proof. now intros k _. Qed.

Lemma deltas_kept_bcast r f e : deltas_kept e (bcast r f e).
Proof. intros k _. now rewrite kv_bcast. Qed.

Lemma stop_seq_step r e : seq_step r e (stop r e).
Proof.
  unfold stop. destruct (negb (is_running r)); [apply seq_step_refl|].
  assert (H := flush_seq_step true (clearTimeoutTimer r) e).
  destruct (flush true (clearTimeoutTimer r) e) as [r1 e1].
  apply (seq_step_from r (clearTimeoutTimer r) e _ eq_refl eq_refl).
  eapply seq_step_kept_after; [exact H|reflexivity|reflexivity|].
  eapply deltas_kept_trans; [apply deltas_kept_snapshot|].
  eapply deltas_kept_trans; [apply deltas_kept_bcast|apply deltas_kept_notify].
Qed.

Lemma fail_seq_step message r e : seq_step r e (fail message r e).
Proof.
  destruct (is_running r) eqn:Hrun.
  - apply is_running_true in Hrun. rewrite (fail_running message r e Hrun).
    cbv zeta.
    eapply seq_step_kept_after with
      (r1 := mkRun (rid r) (seq r + 1) Running (error r) (sockets r) "" []
                   false (controller r) (startedAt r) false)
      (e1 := bcast r (frame_of (failure_delta r (error_string message)))
               (kv_set (delta_key (rid r) (seq r + 1))
                  (BDelta (failure_delta r (error_string message))) e));
      try reflexivity.
    + unfold seq_step. cbn [fst snd].
      split; [reflexivity|]. right. split; [reflexivity|]. split.
      * eexists. split.
        -- rewrite kv_bcast.
           unfold kv_set, KV.set, KV.set_ttl. cbn. apply lookup_insert_eq.
        -- reflexivity.
      * intros k _ Hne. rewrite kv_bcast.
        unfold kv_set, KV.set, KV.set_ttl. cbn. now apply lookup_insert_ne.
    + eapply deltas_kept_trans; [apply deltas_kept_snapshot|].
      eapply deltas_kept_trans; [apply deltas_kept_snapshot|].
      eapply deltas_kept_trans; [apply deltas_kept_bcast|apply deltas_kept_notify].
  - unfold fail. rewrite Hrun. apply seq_step_refl.
Qed.

Lemma fail_not_running message r e : is_running (fail message r e).1 = false.
Proof.
  destruct (is_running r) eqn:Hrun.
  - apply is_running_true in Hrun. now rewrite (fail_running message r e Hrun).
  - unfold fail. now rewrite Hrun.
Qed.

Lemma settle_seq_step how r e : seq_step r e (beginStream_settle how r e).
Proof.
  unfold beginStream_settle. destruct how as [|err].
  - destruct (is_running r); [apply stop_seq_step|apply seq_step_refl].
  - destruct (is_running r) eqn:Hrun; [|rewrite Hrun; apply seq_step_refl].
    destruct (negb (is_abort err (error_string (e_message err)))).
    + assert (H := fail_seq_step (error_string (e_message err)) r e).
      assert (Hn := fail_not_running (error_string (e_message err)) r e).
      destruct (fail (error_string (e_message err)) r e) as [r1 e1].
      cbn [fst] in Hn. now rewrite Hn.
    + rewrite Hrun. apply stop_seq_step.
Qed.

Lemma apply_op_seq_step op r e : seq_step r e (apply_op op r e).
Proof.
  destruct op; simpl.
  - apply queueDelta_seq_step.
  - apply flush_seq_step.
  - apply stop_seq_step.
  - apply fail_seq_step.
  - apply settle_seq_step.
Qed.

End SeqFacts.

Section SeqClaims.
Import Coordinator CoordinatorFacts SeqFacts.

(** C3, as amended. (1) Every operation on a run that can assign a [seq]
    ([queueDelta], [flush], [stop], [fail], the settling of the provider
    call) keeps the [rid] and either leaves [seq] and the delta rows as they
    are or raises [seq] by exactly one and writes exactly one delta row,
    under the key of the new [seq] and holding it. (2) A [begin] that starts
    a run and whose [provider] field names an adapter (it is absent, empty,
    or a name that an object literal does not inherit from
    [Object.prototype]) sets [seq] to -1 and leaves the delta rows as they
    are, whatever is persisted under its [rid]; [handleMessage] returns with
    the run in flight. (3) A run that [meta] re-materializes from the
    snapshot stored under [run:<uid>] has the [seq] (and phase and error) of
    that snapshot. *)
Theorem seq_within_a_run :
  (forall (op : RunOp) (r : Run) (e : Env), seq_step r e (apply_op op r e))
  /\ (forall (uid : string) (ws : nat) (msg : Msg) (w : World) (r : Run)
             (msgRid : string),
        runs w !! uid = Some r ->
        accepted msg = true ->
        adapter_named msg = true ->
        m_rid msg = Some msgRid ->
        starts_run r msgRid = true ->
        exists w' r',
          handleMessage uid ws msg w = Returned w'
          /\ runs w' !! uid = Some r'
          /\ rid r' = msgRid /\ seq r' = -1 /\ phase r' = Running
          /\ deltas_kept (env w) (env w'))
  /\ (forall (uid : string) (w : World) (s : Snapshot),
        runs w !! uid = None ->
        kv_get (env w) (run_key uid) = Some (BSnap s) ->
        exists r',
          (meta uid w).1 = Some r'
          /\ runs (meta uid w).2 !! uid = Some r'
          /\ rid r' = uid /\ seq r' = s_seq s
          /\ phase r' = s_phase s /\ error r' = s_error s).
Proof.
  split; [exact apply_op_seq_step|split].
  - intros uid ws msg w r msgRid Hr Ha _ Hrid Hstart.
    destruct (accepted_inv _ Ha)
      as (msgRid' & apiKey & body & messages & H1 & H2 & H3 & H4 & H5 & H6 & H7).
    assert (msgRid' = msgRid) as -> by congruence.
    assert (Hty : type_is "begin" msg = true).
    { unfold accepted in Ha. now repeat (apply andb_true_iff in Ha as [Ha _]). }
    rewrite (handleMessage_accepted _ _ _ _ _ _ _ _ _ Hr Hty H1 H2 H3 H4 H5 H6 H7).
    unfold starts_run in Hstart. apply andb_true_iff in Hstart as [Hb Hp].
    apply negb_true_iff in Hb, Hp. rewrite Hb, Hp. cbv zeta.
    eexists. eexists. split; [reflexivity|]. unfold store. cbn [runs env fst snd].
    split; [apply lookup_insert_eq|].
    repeat split.
    intros k Hk. unfold beginStream_call, saveSnapshot, kv_set, KV.set, KV.set_ttl.
    cbn. rewrite !lookup_insert_ne; [reflexivity| |].
    + intros <-. now rewrite is_delta_key_prompt_key in Hk.
    + intros <-. now rewrite is_delta_key_run_key in Hk.
  - intros uid w s Hnone Hsnap. unfold meta. rewrite Hnone, Hsnap. cbn.
    eexists. split; [reflexivity|]. split; [apply lookup_insert_eq|].
    repeat split.
Qed.

Lemma seq_within_a_run_witness :
  exists w' r',
    handleMessage "u1" 1%nat (Examples.begin "r2" None) Examples.w_done
    = Returned w'
    /\ runs w' !! "u1" = Some r'
    /\ rid r' = "r2" /\ seq r' = -1 /\ phase r' = Running
    /\ deltas_kept (env Examples.w_done) (env w').
Proof.
  destruct seq_within_a_run as (_ & H & _).
  apply (H "u1" 1%nat (Examples.begin "r2" None) Examples.w_done
           (mkRun "r1" 0 Done None [1%nat] "" [] false (Some true) 0 false) "r2").
  - reflexivity.
  - reflexivity.
  - reflexivity.
  - reflexivity.
  - reflexivity.
Defined.

(** C3 as stated fails when a [rid] is begun again: run [r1] persisted its
    delta with [seq] 0; after run [r2], a new run [r1] starts from -1 and
    its first delta is assigned [seq] 0 again, over the persisted one. *)
Lemma seq_restarts_for_a_reused_rid :
  kv_get (env Examples.w_done) (delta_key "r1" 0)
  = Some (BDelta (mkDelta 0 "hello" None))
  /\ runs Examples.w_reused !! "u1"
     = Some (mkRun "r1" 0 Running None [1%nat] "" [] false (Some false) 0 true)
  /\ kv_get (env Examples.w_reused) (delta_key "r1" 0)
     = Some (BDelta (mkDelta 0 "x" None)).
Proof.
  split; [vm_compute; reflexivity|].
  split; vm_compute; reflexivity.
Qed.

End SeqClaims.

(** ** The coordinator: a run from its begin to its end *)

Module RunFacts.
Import Coordinator CoordinatorFacts SeqFacts KeyFacts.

Local Opaque BATCH_BYTES.

Section OneRun.
Variable id : string.
Variable t0 : Z.
Hypothesis id_plain : KV.plain id = true.

Lemma Rows_kv_eq ds e e' :
  kv e' = kv e -> now e <= now e' -> Rows id t0 ds e -> Rows id t0 ds e'.
Proof.
  unfold Rows. intros -> Hnow (H0 & H1 & H2). split; [lia|]. split; assumption.
Qed.

(** A write under a key that the listing does not select. *)
Lemma Rows_set_other ds e k b :
  KV.glob (delta_prefix id ++ "*") k = false ->
  Rows id t0 ds e -> Rows id t0 ds (kv_set k b e).
Proof.
  intros Hk (H0 & H1 & H2). unfold Rows, kv_set, KV.set, KV.set_ttl. cbn.
  split; [exact H0|]. split.
  - intros i d Hi. destruct (H1 i d Hi) as (Hs & exp & He & Hexp).
    split; [exact Hs|]. exists exp. split; [|exact Hexp].
    rewrite lookup_insert_ne; [exact He|].
    intros ->. rewrite listed_delta_key in Hk by exact id_plain. discriminate.
  - intros k' v exp Hl Hg Hexp.
    rewrite lookup_insert_ne in Hl by (intros ->; congruence).
    now apply (H2 k' v exp).
Qed.

Lemma Rows_snapshot ds r e : Rows id t0 ds e -> Rows id t0 ds (saveSnapshot r e).
Proof. apply Rows_set_other, not_listed_run_key, id_plain. Qed.

(** The write of the next delta. *)
Lemma Rows_append ds e d :
  d_seq d = Z.of_nat (length ds) ->
  Rows id t0 ds e ->
  Rows id t0 (ds ++ [d])
    (kv_set (delta_key id (Z.of_nat (length ds))) (BDelta d) e).
Proof.
  intros Hd (H0 & H1 & H2). unfold Rows, kv_set, KV.set, KV.set_ttl. cbn.
  split; [exact H0|]. split.
  - intros i d' Hi. apply lookup_app_Some in Hi as [Hi | [Hlen Hi]].
    + destruct (H1 i d' Hi) as (Hs & exp & He & Hexp).
      split; [exact Hs|]. exists exp. split; [|exact Hexp].
      rewrite lookup_insert_ne; [exact He|].
      intros Heq. apply delta_key_inj in Heq; try lia.
      apply lookup_lt_Some in Hi. lia.
    + destruct (i - length ds)%nat as [|n] eqn:En; [|now destruct n].
      injection Hi as <-. assert (i = length ds) as -> by lia.
      split; [exact Hd|]. eexists. split; [apply lookup_insert_eq|]. lia.
  - intros k v exp Hl Hg Hexp.
    destruct (decide (k = delta_key id (Z.of_nat (length ds)))) as [->|Hne].
    + rewrite lookup_insert_eq in Hl. injection Hl as <- <-.
      exists (length ds), d. split; [|split; reflexivity].
      rewrite lookup_app_r by lia. now rewrite Nat.sub_diag.
    + rewrite lookup_insert_ne in Hl by congruence.
      destruct (H2 k v exp Hl Hg Hexp) as (i & d' & Hi & -> & ->).
      exists i, d'. split; [|split; reflexivity]. now apply lookup_app_l_Some.
Qed.

Lemma join_text_snoc ds d : join_text (ds ++ [d]) = join_text ds ++ d_text d.
Proof.
  unfold join_text. induction ds as [|x ds IH]; cbn [fold_right app].
  - now rewrite StrFacts.append_nil_r, StrFacts.append_nil_l.
  - now rewrite IH, StrFacts.append_assoc.
Qed.

Lemma all_images_snoc ds d :
  all_images (ds ++ [d]) = (all_images ds ++ default [] (d_images d))%list.
Proof.
  unfold all_images. rewrite flat_map_app. cbn. now rewrite app_nil_r.
Qed.

Lemma has_pending_false r :
  has_pending r = false -> pending r = "" /\ pendingImages r = [].
Proof.
  unfold has_pending. intros H. apply orb_false_iff in H as [H1 H2].
  apply negb_false_iff in H1. split.
  - now destruct (pending r).
  - now destruct (pendingImages r).
Qed.

Lemma RunInv_snapshot T I r r' e :
  RunInv id t0 T I r e -> RunInv id t0 T I r (saveSnapshot r' e).
Proof.
  intros (Hid & ds & H1 & H2 & H3 & H4). split; [exact Hid|].
  exists ds. split; [exact H1|]. split; [now apply Rows_snapshot|].
  split; assumption.
Qed.

(** [flush] keeps what was delivered and leaves nothing pending. *)
Lemma flush_inv force T I r e :
  RunInv id t0 T I r e ->
  RunInv id t0 T I (flush force r e).1 (flush force r e).2
  /\ phase (flush force r e).1 = phase r
  /\ error (flush force r e).1 = error r
  /\ sockets (flush force r e).1 = sockets r
  /\ pending (flush force r e).1 = ""
  /\ pendingImages (flush force r e).1 = []
  /\ now (flush force r e).2 = now e.
Proof.
  intros (Hid & ds & Hseq & Hrows & HT & HI).
  destruct (has_pending r) eqn:Hp.
  - rewrite (flush_pending force r e Hp). cbv zeta. cbn [fst snd].
    set (d := mkDelta (seq r + 1) (pending r)
                (if (0 <? length (pendingImages r))%nat
                 then Some (pendingImages r) else None)).
    set (r' := mkRun (rid r) (seq r + 1) (phase r) (error r) (sockets r) "" []
                     false (controller r) (startedAt r) (timeoutTimer r)).
    assert (Hrows' : Rows id t0 (ds ++ [d])
                       (bcast r (frame_of d)
                          (kv_set (delta_key (rid r) (seq r + 1)) (BDelta d) e))).
    { apply (Rows_kv_eq _ (kv_set (delta_key (rid r) (seq r + 1)) (BDelta d) e)).
      - apply kv_bcast.
      - rewrite now_bcast. lia.
      - rewrite Hid. replace (seq r + 1) with (Z.of_nat (length ds)) by lia.
        apply Rows_append; [|exact Hrows]. cbn. lia. }
    assert (Hinv : RunInv id t0 T I r'
                     (bcast r (frame_of d)
                        (kv_set (delta_key (rid r) (seq r + 1)) (BDelta d) e))).
    { split; [exact Hid|]. exists (ds ++ [d])%list.
      split; [|split; [exact Hrows'|split]].
      - cbn. rewrite length_app. cbn. lia.
      - cbn [pending r']. rewrite join_text_snoc, StrFacts.append_nil_r. exact HT.
      - cbn [pendingImages r']. rewrite all_images_snoc, app_nil_r. rewrite <- HI.
        f_equal. cbn. now destruct (pendingImages r). }
    destruct force.
    + split; [now apply RunInv_snapshot|].
      repeat split; cbn; now rewrite ?now_bcast.
    + split; [exact Hinv|].
      repeat split; cbn; now rewrite ?now_bcast.
  - rewrite (flush_nothing force r e Hp). cbn [fst snd].
    destruct (has_pending_false r Hp) as [Hpe Hpi].
    assert (Hinv : RunInv id t0 T I (with_flushTimer false r) e).
    { split; [exact Hid|]. exists ds. split; [exact Hseq|].
      split; [exact Hrows|]. split; assumption. }
    destruct force.
    + split; [now apply RunInv_snapshot|]. repeat split; assumption.
    + split; [exact Hinv|]. repeat split; assumption.
Qed.

Lemma RunInv_ext T I r r' e :
  rid r' = rid r -> seq r' = seq r ->
  pending r' = pending r -> pendingImages r' = pendingImages r ->
  RunInv id t0 T I r e -> RunInv id t0 T I r' e.
Proof.
  unfold RunInv. intros -> -> -> ->. trivial.
Qed.

Lemma RunInv_kv_eq T I r e e' :
  kv e' = kv e -> now e <= now e' -> RunInv id t0 T I r e -> RunInv id t0 T I r e'.
Proof.
  intros Hkv Hnow (Hid & ds & H1 & H2 & H3 & H4). split; [exact Hid|].
  exists ds. split; [exact H1|]. split; [now apply (Rows_kv_eq ds e)|].
  split; assumption.
Qed.

(** [queueDelta] adds its text and its images to what was delivered. *)
Lemma queueDelta_inv text images T I r e :
  RunInv id t0 T I r e ->
  RunInv id t0 (T ++ text) (I ++ default [] images)
    (queueDelta text images r e).1 (queueDelta text images r e).2
  /\ phase (queueDelta text images r e).1 = phase r
  /\ now (queueDelta text images r e).2 = now e.
Proof.
  intros Hinv. unfold queueDelta.
  destruct (Str.is_empty text && no_images images)%bool eqn:Hnone.
  - apply andb_true_iff in Hnone as [Ht Hi]. cbn [fst snd].
    split; [|split; reflexivity].
    assert (text = "") as -> by now destruct text.
    assert (default [] images = []) as ->.
    { destruct images as [l|]; [|reflexivity]. now destruct l. }
    now rewrite StrFacts.append_nil_r, app_nil_r.
  - match goal with
    | |- context [flush false ?q e] => set (r1 := q) in *
    end.
    assert (Hr1 : RunInv id t0 (T ++ text) (I ++ default [] images) r1 e).
    { destruct Hinv as (Hid & ds & H1 & H2 & H3 & H4).
      assert (Hp : pending r1 = pending r ++ text).
      { unfold r1. destruct (Str.is_empty text) eqn:Ht, images; cbn;
          try reflexivity;
          (assert (text = "") as -> by now destruct text);
          now rewrite StrFacts.append_nil_r. }
      assert (Hpi : pendingImages r1 = (pendingImages r ++ default [] images)%list).
      { unfold r1. destruct (Str.is_empty text), images; cbn;
          now rewrite ?app_nil_r. }
      assert (Hrid : rid r1 = rid r)
        by (unfold r1; destruct (Str.is_empty text), images; reflexivity).
      assert (Hseq : seq r1 = seq r)
        by (unfold r1; destruct (Str.is_empty text), images; reflexivity).
      split; [congruence|]. exists ds.
      split; [congruence|]. split; [exact H2|]. split.
      - rewrite Hp, <- StrFacts.append_assoc. now rewrite H3.
      - rewrite Hpi, app_assoc. now rewrite H4. }
    assert (Hph : phase r1 = phase r)
      by (unfold r1; destruct (Str.is_empty text), images; reflexivity).
    destruct (_ || _)%bool.
    + destruct (flush_inv false _ _ r1 e Hr1) as (H & Hp & _ & _ & _ & _ & Hn).
      split; [exact H|]. split; [congruence|exact Hn].
    + destruct (negb (flushTimer r1)); cbn [fst snd].
      * split; [|split; [exact Hph|reflexivity]].
        now apply (RunInv_ext _ _ r1).
      * split; [exact Hr1|split; [exact Hph|reflexivity]].
Qed.

(** [stop] on a running run. *)
Lemma stop_inv T I r e :
  phase r = Running ->
  RunInv id t0 T I r e ->
  RunInv id t0 T I (stop r e).1 (stop r e).2
  /\ phase (stop r e).1 = Done
  /\ error (stop r e).1 = None
  /\ pending (stop r e).1 = ""
  /\ pendingImages (stop r e).1 = []
  /\ now (stop r e).2 = now e.
Proof.
  intros Hph Hinv. unfold stop. rewrite (proj2 (is_running_true r) Hph).
  cbn [negb].
  assert (H0 : RunInv id t0 T I (clearTimeoutTimer r) e)
    by now apply (RunInv_ext _ _ r).
  destruct (flush_inv true _ _ _ e H0) as (H & _ & _ & _ & Hp & Hpi & Hn).
  destruct (flush true (clearTimeoutTimer r) e) as [r1 e1]. cbn [fst snd] in *.
  split; [|repeat split; try assumption].
  - apply (RunInv_kv_eq _ _ _ (saveSnapshot
                                 (abort (with_error None (with_phase Done r1))) e1)).
    + change (kv (notify ?n ?x)) with (kv x). now rewrite kv_bcast.
    + change (now (notify ?n ?x)) with (now x). rewrite now_bcast. lia.
    + apply RunInv_snapshot. now apply (RunInv_ext _ _ r1).
  - change (now (notify ?n ?x)) with (now x). now rewrite now_bcast.
Qed.

(** *** Reading the rows back *)

Lemma nodup_map_filter {A B} (g : A -> B) (f : A -> bool) (l : list A) :
  List.NoDup (List.map g l) -> List.NoDup (List.map g (List.filter f l)).
Proof.
  induction l as [|x l IH]; cbn [List.map List.filter]; [trivial|].
  intros Hnd. apply List.NoDup_cons_iff in Hnd as [Hx Hnd].
  destruct (f x); [|now apply IH].
  cbn [List.map]. apply List.NoDup_cons; [|now apply IH].
  intros Hin. apply Hx. apply in_map_iff in Hin as (y & Hy & Hin).
  apply in_map_iff. exists y. split; [exact Hy|].
  now apply filter_In in Hin as [Hin _].
Qed.

Lemma kv_list_nodup e prefix : NoDup (kv_list e prefix).
Proof.
  unfold kv_list, KV.list. apply NoDup_ListNoDup, nodup_map_filter.
  apply NoDup_ListNoDup. apply (NoDup_fst_map_to_list (kv e)).
Qed.

Lemma elem_of_kv_list e prefix k :
  k ∈ kv_list e prefix
  <-> exists v exp, kv e !! k = Some (v, exp)
                    /\ KV.glob (prefix ++ "*") k = true /\ now e < exp.
Proof.
  unfold kv_list, KV.list. rewrite list_elem_of_In, in_map_iff. split.
  - intros ([k' [v exp]] & Hk & Hin). cbn in Hk. subst k'.
    apply filter_In in Hin as [Hin Hl].
    apply list_elem_of_In, elem_of_map_to_list in Hin.
    unfold KV.listed in Hl. cbn in Hl. apply andb_true_iff in Hl as [Hg Hn].
    exists v, exp. split; [exact Hin|]. split; [exact Hg|lia].
  - intros (v & exp & Hl & Hg & Hn). exists (k, (v, exp)).
    split; [reflexivity|]. apply filter_In. split.
    + now apply list_elem_of_In, elem_of_map_to_list.
    + unfold KV.listed. cbn. rewrite Hg. cbn. lia.
Qed.

Lemma keys_upto_nodup n : NoDup (keys_upto id n).
Proof.
  unfold keys_upto. apply NoDup_ListNoDup.
  apply Finite.Injective_map_NoDup_in; [|apply List.seq_NoDup].
  intros a b _ _ H. apply delta_key_inj in H; lia.
Qed.

Lemma elem_of_keys_upto n k :
  k ∈ keys_upto id n <-> exists i, (i < n)%nat /\ k = delta_key id (Z.of_nat i).
Proof.
  unfold keys_upto. rewrite list_elem_of_In, in_map_iff. split.
  - intros (i & <- & Hi). apply in_seq in Hi. exists i. split; [lia|reflexivity].
  - intros (i & Hi & ->). exists i. split; [reflexivity|]. apply in_seq. lia.
Qed.

Lemma kv_list_rows ds e :
  Rows id t0 ds e -> now e < t0 + KV.TTL_MS ->
  kv_list e (delta_prefix id) ≡ₚ keys_upto id (length ds).
Proof.
  intros (H0 & H1 & H2) Hlive.
  apply NoDup_Permutation; [apply kv_list_nodup|apply keys_upto_nodup|].
  intros k. rewrite elem_of_kv_list, elem_of_keys_upto. split.
  - intros (v & exp & Hl & Hg & Hn).
    destruct (H2 k v exp Hl Hg ltac:(lia)) as (i & d & Hi & -> & _).
    exists i. split; [|reflexivity]. now apply lookup_lt_Some in Hi.
  - intros (i & Hi & ->).
    destruct (lookup_lt_is_Some_2 ds i Hi) as [d Hd].
    destruct (H1 i d Hd) as (_ & exp & He & Hexp).
    exists (BDelta d), exp. split; [exact He|].
    split; [now apply listed_delta_key|lia].
Qed.

Lemma fetch_keys e (l : list Delta) (off : nat) :
  (forall i d, l !! i = Some d ->
     kv_get e (delta_key id (Z.of_nat (off + i))) = Some (BDelta d)) ->
  omap as_delta
    (fetch e (List.map (fun i => delta_key id (Z.of_nat i))
                (List.seq off (length l))))
  = l.
Proof.
  revert off. induction l as [|d l IH]; intros off H; [reflexivity|].
  cbn [length List.seq List.map]. unfold fetch in *. cbn [omap list_omap].
  assert (H0 := H 0%nat d eq_refl). rewrite Nat.add_0_r in H0.
  rewrite H0. cbn [omap list_omap as_delta]. f_equal.
  apply IH. intros i d' Hi. replace (S off + i)%nat with (off + S i)%nat by lia.
  now apply H.
Qed.

Lemma rows_sorted (l : list Delta) (off : nat) :
  (forall i d, l !! i = Some d -> d_seq d = Z.of_nat (off + i)) ->
  StronglySorted seq_lt l.
Proof.
  revert off. induction l as [|x l IH]; intros off H; constructor.
  - apply (IH (S off)). intros i d Hi.
    replace (S off + i)%nat with (off + S i)%nat by lia. now apply H.
  - apply List.Forall_forall. intros y Hy.
    apply list_elem_of_In, list_elem_of_lookup in Hy as [i Hi].
    unfold seq_lt. rewrite (H 0%nat x eq_refl), (H (S i) y Hi). lia.
Qed.

(** A list in ascending order that is a permutation of a list in strictly
    ascending order is that list. *)
Lemma sorted_perm_eq (l1 l2 : list Delta) :
  StronglySorted seq_le l1 -> StronglySorted seq_lt l2 -> l1 ≡ₚ l2 -> l1 = l2.
Proof.
  revert l2. induction l1 as [|x l1 IH]; intros l2 Hs1 Hs2 Hp.
  - symmetry. now apply Permutation_nil.
  - destruct l2 as [|y l2]; [now apply Permutation_sym, Permutation_nil in Hp|].
    apply StronglySorted_inv in Hs1 as [Hs1 Hx].
    apply StronglySorted_inv in Hs2 as [Hs2 Hy].
    assert (x = y) as ->.
    { assert (Hin1 : In x (y :: l2))
        by (apply (Permutation_in x Hp); now left).
      assert (Hin2 : In y (x :: l1))
        by (apply (Permutation_in y (Permutation_sym Hp)); now left).
      destruct Hin1 as [->|Hin1]; [reflexivity|].
      destruct Hin2 as [->|Hin2]; [reflexivity|].
      rewrite List.Forall_forall in Hx, Hy.
      specialize (Hx y Hin2). specialize (Hy x Hin1).
      unfold seq_le, seq_lt in *. lia. }
    f_equal. apply IH; try assumption. now apply Permutation_cons_inv in Hp.
Qed.

(** Within the time to live, [getDeltas] returns the deltas of the run. *)
Lemma getDeltas_exact ds e :
  Rows id t0 ds e -> now e < t0 + KV.TTL_MS -> getDeltas id e = ds.
Proof.
  intros Hrows Hlive. unfold getDeltas.
  apply sorted_perm_eq.
  - apply sort_by_seq_sorted.
  - apply (rows_sorted ds 0). intros i d Hi.
    destruct Hrows as (_ & H1 & _). now destruct (H1 i d Hi).
  - rewrite sort_by_seq_perm.
    unfold fetch. rewrite (kv_list_rows ds e Hrows Hlive).
    unfold keys_upto. fold (fetch e (List.map (fun i => delta_key id (Z.of_nat i))
                                       (List.seq 0 (length ds)))).
    rewrite fetch_keys; [reflexivity|].
    intros i d Hi. destruct Hrows as (H0 & H1 & _).
    destruct (H1 i d Hi) as (_ & exp & He & Hexp).
    unfold kv_get. apply KVFacts.get_Some. exists exp. split; [exact He|lia].
Qed.

End OneRun.

(** A [begin] that starts a run of a plain [rid] with nothing live listed
    under its prefix. *)
Lemma begin_starts uid ws msg id w :
  KV.plain id = true ->
  accepted msg = true ->
  m_rid msg = Some id ->
  starts_run (ensure uid w).1 id = true ->
  kv_list (env w) (delta_prefix id) = [] ->
  running_world uid id (now (env w)) "" [] (step w (EMessage uid ws msg))
  /\ now (env (step w (EMessage uid ws msg))) = now (env w).
Proof.
  intros Hplain Ha Hrid Hstart Hfresh. cbn [step].
  rewrite handleMessage_ensure.
  assert (Hr := ensure_lookup uid w). assert (He := ensure_env uid w).
  destruct (ensure uid w) as [r w1]. cbn [fst snd] in *.
  destruct (accepted_inv _ Ha)
    as (msgRid & apiKey & body & messages & H1 & H2 & H3 & H4 & H5 & H6 & H7).
  assert (msgRid = id) as -> by congruence.
  assert (Hty : type_is "begin" msg = true).
  { unfold accepted in Ha. now repeat (apply andb_true_iff in Ha as [Ha _]). }
  rewrite (handleMessage_accepted _ _ _ _ _ _ _ _ _ Hr Hty H1 H2 H3 H4 H5 H6 H7).
  unfold starts_run in Hstart. apply andb_true_iff in Hstart as [Hb Hp].
  apply negb_true_iff in Hb, Hp. rewrite Hb, Hp. cbv zeta.
  cbn [world_of]. unfold store. cbn [fst snd runs env]. rewrite He.
  split; [|reflexivity].
  eexists. split; [apply lookup_insert_eq|]. split; [reflexivity|].
  split; [reflexivity|].
  split; [reflexivity|]. exists []. split; [reflexivity|].
  split; [|split; reflexivity].
  apply (Rows_kv_eq id _ _
           (saveSnapshot
              (mkRun id (-1) Running None (sockets r) "" [] (flushTimer r)
                     (Some false) (now (env w)) true)
              (kv_set (prompt_key id) (BPrompt messages) (env w))));
    [reflexivity|cbn; lia|].
  apply Rows_snapshot; [exact Hplain|].
  apply Rows_set_other; [exact Hplain|now apply not_listed_prompt_key|].
  split; [lia|]. split.
  - intros i d Hi. discriminate.
  - intros k v exp Hl Hg Hexp. exfalso.
    assert (Hin : k ∈ kv_list (env w) (delta_prefix id)).
    { apply (elem_of_kv_list (env w)). exists v, exp. now repeat split. }
    rewrite Hfresh in Hin. now apply not_elem_of_nil in Hin.
Qed.

(** The poll of a run that is done, within the time to live. *)
Lemma poll_done uid id t0 T I w :
  KV.plain id = true ->
  done_world uid id t0 T I w ->
  now (env w) < t0 + KV.TTL_MS ->
  exists ds,
    getDeltas id (env w) = ds
    /\ (forall i d, ds !! i = Some d -> d_seq d = Z.of_nat i)
    /\ join_text ds = T
    /\ (handlePoll uid w).1
       = {| p_rid := Some id;
            p_seq := Z.of_nat (length ds) - 1;
            p_phase := Done;
            p_done := true;
            p_error := None;
            p_text := T;
            p_images := I |}.
Proof.
  intros Hplain (r & Hr & Hph & Herr & Hp & Hpi & Hid & ds & Hseq & Hrows & HT & HI)
         Hlive.
  assert (Hg := getDeltas_exact id t0 Hplain ds (env w) Hrows Hlive).
  rewrite Hp, StrFacts.append_nil_r in HT. rewrite Hpi, app_nil_r in HI.
  exists ds. split; [exact Hg|]. split; [|split; [exact HT|]].
  - intros i d Hi. destruct Hrows as (_ & H1 & _). now destruct (H1 i d Hi).
  - unfold handlePoll. rewrite (meta_found _ _ _ Hr). cbn [fst].
    rewrite Hid, Hg, Hph, Hseq, Hp, Hpi, HT, HI.
    now rewrite StrFacts.append_nil_r, app_nil_r.
Qed.

End RunFacts.


(** * Further properties *)
(** ** The store: reads after writes *)

Module KVLaws.

Section Store.
Context {V : Type}.
Implicit Type t : gmap string (V * Z).

Lemma get_insert t now k k' (v : V) exp :
  KV.get (<[k := (v, exp)]> t) now k'
  = if String.eqb k' k then (if (now <? exp)%Z then Some v else None)
    else KV.get t now k'.
Proof.
  unfold KV.get. destruct (String.eqb_spec k' k) as [->|Hne].
  - now rewrite lookup_insert_eq.
  - now rewrite lookup_insert_ne by congruence.
Qed.

Lemma listed_elem t now p k :
  k ∈ KV.list t now p
  <-> exists v exp, t !! k = Some (v, exp)
                    /\ KV.glob (p ++ "*") k = true /\ now < exp.
Proof.
  unfold KV.list. rewrite list_elem_of_In, in_map_iff. split.
  - intros ([k' [v exp]] & <- & Hin). apply filter_In in Hin as [Hin Hl].
    apply list_elem_of_In, elem_of_map_to_list in Hin.
    unfold KV.listed in Hl. apply andb_true_iff in Hl as [Hg He]. simpl in *.
    exists v, exp. repeat split; [exact Hin|exact Hg|lia].
  - intros (v & exp & Hk & Hg & He). exists (k, (v, exp)). split; [reflexivity|].
    apply filter_In. split.
    + now apply list_elem_of_In, elem_of_map_to_list.
    + unfold KV.listed. simpl. rewrite Hg. simpl. lia.
Qed.

Lemma list_NoDup t now p : NoDup (KV.list t now p).
Proof.
  unfold KV.list. apply NoDup_ListNoDup.
  apply (Finite.Injective_map_NoDup_in).
  - intros [k1 v1] [k2 v2] H1 H2 Heq. simpl in Heq. subst k2.
    apply filter_In in H1 as [H1 _]. apply filter_In in H2 as [H2 _].
    apply list_elem_of_In, elem_of_map_to_list in H1.
    apply list_elem_of_In, elem_of_map_to_list in H2. congruence.
  - apply List.NoDup_filter, NoDup_ListNoDup, NoDup_map_to_list.
Qed.

End Store.
End KVLaws.

(** X1. A value written by [set] is read back under its key for the next
    [TTL_MS] milliseconds and is gone from then on; the write replaces any
    earlier row of the key and leaves the reads of every other key as they
    were; and during that time [list] returns the key for every prefix of
    it that is free of [GLOB] characters. *)
Theorem kv_read_after_write {V : Type} (t : gmap string (V * Z)) (now now' : Z)
    (k k' p : string) (v : V) :
  KV.get (KV.set t now k v) now' k'
  = (if String.eqb k' k
     then (if (now' <? now + KV.TTL_MS)%Z then Some v else None)
     else KV.get t now' k')
  /\ (KV.plain p = true -> String.prefix p k = true ->
      (k ∈ KV.list (KV.set t now k v) now' p <-> now' < now + KV.TTL_MS)).
Proof.
  unfold KV.set, KV.set_ttl. split; [apply KVLaws.get_insert|].
  intros Hp Hk. rewrite KVLaws.listed_elem, lookup_insert_eq.
  rewrite (KVFacts.glob_own_prefix p k Hp Hk). split.
  - intros (v' & exp & [= <- <-] & _ & H). exact H.
  - intros H. exists v, (now + KV.TTL_MS). now repeat split.
Qed.

(** X2. [del] removes the row of its key, present or not: a later [get] of
    the key finds nothing, [list] returns the keys it returned before
    without that key, and the reads of every other key are unchanged. *)
Theorem kv_del_removes {V : Type} (t : gmap string (V * Z)) (now : Z) (k k' p : string) :
  KV.get (KV.del t k) now k' = (if String.eqb k' k then None else KV.get t now k')
  /\ (k' ∈ KV.list (KV.del t k) now p <-> k' <> k /\ k' ∈ KV.list t now p).
Proof.
  unfold KV.del. split.
  - unfold KV.get. destruct (String.eqb_spec k' k) as [->|Hne].
    + now rewrite lookup_delete_eq.
    + now rewrite lookup_delete_ne by congruence.
  - rewrite !KVLaws.listed_elem. destruct (decide (k' = k)) as [->|Hne].
    + rewrite lookup_delete_eq. split.
      * intros (v & exp & Hk & _). discriminate.
      * intros [Hk _]. contradiction.
    + rewrite lookup_delete_ne by congruence. tauto.
Qed.

(** X3. [prune] cannot be observed: at the time of the pruning and at any
    later time, [get] returns for every key what it would have returned
    without the pruning, and [list] returns the same keys. *)
Theorem kv_prune_unobservable {V : Type} (t : gmap string (V * Z)) (now now' : Z) (k p : string) :
  now <= now' ->
  KV.get (KV.prune t now) now' k = KV.get t now' k
  /\ KV.list (KV.prune t now) now' p ≡ₚ KV.list t now' p.
Proof.
  intros Hle. split.
  - unfold KV.get, KV.prune.
    destruct (t !! k) as [[v exp]|] eqn:E.
    + destruct (Z.ltb_spec now' exp) as [Hlt|Hge].
      * rewrite (proj2 (map_lookup_filter_Some _ t k (v, exp))).
        -- destruct (Z.ltb_spec now' exp); [reflexivity|lia].
        -- split; [exact E|]. simpl. lia.
      * destruct (filter _ t !! k) as [[v' exp']|] eqn:E'; [|reflexivity].
        apply map_lookup_filter_Some in E' as [E' _].
        rewrite E in E'. injection E' as <- <-.
        destruct (Z.ltb_spec now' exp); [lia|reflexivity].
    + destruct (filter _ t !! k) as [[v' exp']|] eqn:E'; [|reflexivity].
      apply map_lookup_filter_Some in E' as [E' _]. congruence.
  - apply NoDup_Permutation; try apply KVLaws.list_NoDup.
    intros k0. rewrite !KVLaws.listed_elem. unfold KV.prune.
    split; intros (v & exp & Hk & Hg & He); exists v, exp; repeat split; try assumption.
    + now apply map_lookup_filter_Some in Hk as [Hk _].
    + apply map_lookup_filter_Some. split; [exact Hk|]. simpl. lia.
Qed.

Lemma kv_prune_unobservable_witness :
  KV.get (KV.prune (KV.set (∅ : gmap string (nat * Z)) 0 "a" 7%nat) 1200000) 1200000 "a"
  = KV.get (KV.set (∅ : gmap string (nat * Z)) 0 "a" 7%nat) 1200000 "a"
  /\ KV.list (KV.prune (KV.set (∅ : gmap string (nat * Z)) 0 "a" 7%nat) 1200000) 1200000 ""
     ≡ₚ KV.list (KV.set (∅ : gmap string (nat * Z)) 0 "a" 7%nat) 1200000 "".
Proof.
  apply (kv_prune_unobservable (KV.set (∅ : gmap string (nat * Z)) 0 "a" 7%nat)
           1200000 1200000 "a" ""). lia.
Defined.

(** X4. With a prefix free of the characters that [GLOB] treats specially
    ([*], [?], [[]) and of the NUL code unit, at which the matcher stops
    reading, [list] returns exactly the keys that start with the prefix and
    whose row has not expired, each of them once. *)
Theorem kv_list_is_a_prefix_scan {V : Type} (t : gmap string (V * Z)) (now : Z) (p : string) :
  KV.plain p = true -> KV.nul_free p = true ->
  NoDup (KV.list t now p)
  /\ forall k,
       k ∈ KV.list t now p
       <-> String.prefix p k = true
           /\ exists v exp, t !! k = Some (v, exp) /\ now < exp.
Proof.
  intros Hp Hn. split; [apply KVLaws.list_NoDup|].
  intros k. rewrite KVLaws.listed_elem, <- (KVFacts.glob_plain_prefix p k Hp Hn).
  split.
  - intros (v & exp & H1 & H2 & H3). eauto.
  - intros (H2 & v & exp & H1 & H3). eauto.
Qed.

Lemma kv_list_is_a_prefix_scan_witness :
  NoDup (KV.list (KV.set (∅ : gmap string (nat * Z)) 0 "delta:r:0" 7%nat) 5 "delta:r:")
  /\ forall k,
       k ∈ KV.list (KV.set (∅ : gmap string (nat * Z)) 0 "delta:r:0" 7%nat) 5 "delta:r:"
       <-> String.prefix "delta:r:" k = true
           /\ exists v exp,
                KV.set (∅ : gmap string (nat * Z)) 0 "delta:r:0" 7%nat !! k = Some (v, exp)
                /\ 5 < exp.
Proof.
  apply (kv_list_is_a_prefix_scan
           (KV.set (∅ : gmap string (nat * Z)) 0 "delta:r:0" 7%nat) 5 "delta:r:").
  - reflexivity.
  - reflexivity.
Defined.

(** ** Keys *)

Module KeyspaceFacts.
Import Coordinator Keyspace.

Lemma colon_split x y s t :
  colon_free x = true -> colon_free y = true ->
  x ++ String ":" s = y ++ String ":" t -> x = y /\ s = t.
Proof.
  revert y. induction x as [|c x IH]; intros [|d y] Hx Hy H.
  - rewrite !StrFacts.append_nil_l in H. injection H as H. now split.
  - rewrite StrFacts.append_nil_l, StrFacts.append_cons in H. injection H as <- _.
    simpl in Hy. discriminate.
  - rewrite StrFacts.append_nil_l, StrFacts.append_cons in H. injection H as -> _.
    simpl in Hx. discriminate.
  - rewrite !StrFacts.append_cons in H. injection H as <- H.
    simpl in Hx, Hy. apply andb_true_iff in Hx as [_ Hx].
    apply andb_true_iff in Hy as [_ Hy].
    destruct (IH y Hx Hy H) as [-> ->]. now split.
Qed.

Lemma colon_prefix x y t :
  colon_free x = true -> colon_free y = true ->
  String.prefix (x ++ ":") (y ++ String ":" t) = true -> x = y.
Proof.
  revert y. induction x as [|c x IH]; intros [|d y] Hx Hy H.
  - reflexivity.
  - rewrite StrFacts.append_nil_l, StrFacts.append_cons, StrFacts.prefix_cons in H.
    simpl in Hy. apply andb_true_iff in H as [H _].
    apply Ascii.eqb_eq in H. subst d. discriminate.
  - rewrite StrFacts.append_nil_l, StrFacts.append_cons, StrFacts.prefix_cons in H.
    simpl in Hx. apply andb_true_iff in H as [H _].
    apply Ascii.eqb_eq in H. subst c. discriminate.
  - rewrite !StrFacts.append_cons, StrFacts.prefix_cons in H.
    apply andb_true_iff in H as [Hc H]. apply Ascii.eqb_eq in Hc. subst d.
    simpl in Hx, Hy. apply andb_true_iff in Hx as [_ Hx].
    apply andb_true_iff in Hy as [_ Hy]. f_equal. now apply IH.
Qed.

Lemma prefix_app_same p a b : String.prefix (p ++ a) (p ++ b) = String.prefix a b.
Proof.
  induction p as [|c p IH]; [reflexivity|].
  now rewrite !StrFacts.append_cons, StrFacts.prefix_cons, Ascii.eqb_refl, IH.
Qed.

Lemma delta_key_shape rid n :
  delta_key rid n = "delta:" ++ rid ++ String ":" (Str.padStart0 10 (Str.of_Z n)).
Proof.
  unfold delta_key, delta_prefix.
  change ("delta:" ++ rid ++ ":") with ("delta:" ++ (rid ++ ":")).
  rewrite !StrFacts.append_assoc. reflexivity.
Qed.

(** The listing of a run id never selects a delta key of another one. *)
Lemma other_key_not_listed rid rid' n :
  KV.plain rid = true -> KV.nul_free rid = true ->
  colon_free rid = true -> colon_free rid' = true -> rid <> rid' ->
  KV.glob (delta_prefix rid ++ "*") (delta_key rid' n) = false.
Proof.
  intros Hp Hn Hc Hc' Hne. rewrite KeyFacts.listed_prefix by assumption.
  destruct (String.prefix (delta_prefix rid) (delta_key rid' n)) eqn:E; [|reflexivity].
  exfalso. apply Hne. rewrite delta_key_shape in E. unfold delta_prefix in E.
  change ("delta:" ++ rid ++ ":") with ("delta:" ++ (rid ++ ":")) in E.
  rewrite prefix_app_same in E.
  exact (colon_prefix rid rid' _ Hc Hc' E).
Qed.

(** The deltas that [getDeltas] returns are the live deltas of the rows that
    the listing selects. *)
Lemma getDeltas_elem rid e d :
  d ∈ getDeltas rid e
  <-> exists k exp, kv e !! k = Some (BDelta d, exp)
                    /\ KV.glob (delta_prefix rid ++ "*") k = true /\ now e < exp.
Proof.
  rewrite CoordinatorFacts.getDeltas_rows, CoordinatorFacts.sort_by_seq_perm.
  rewrite list_elem_of_omap. split.
  - intros ([k [v exp]] & Hin & Hd). simpl in Hd.
    apply list_elem_of_In, filter_In in Hin as [Hin Hl].
    apply list_elem_of_In, elem_of_map_to_list in Hin.
    unfold KV.listed in Hl. apply andb_true_iff in Hl as [Hg He]. simpl in *.
    destruct v; try discriminate. injection Hd as ->.
    exists k, exp. repeat split; [exact Hin|exact Hg|lia].
  - intros (k & exp & Hk & Hg & He). exists (k, (BDelta d, exp)). split; [|reflexivity].
    apply list_elem_of_In, filter_In. split.
    + now apply list_elem_of_In, elem_of_map_to_list.
    + unfold KV.listed. simpl. rewrite Hg. simpl. lia.
Qed.

End KeyspaceFacts.

Section KeyspaceLaws.
Import Coordinator Keyspace KeyspaceFacts.

(** X5. The keys of the store do not collide: for run ids without a colon
    and sequence numbers from 0 up, two delta keys are equal only when both
    the run id and the sequence number are; and a delta key is never the key
    of a snapshot or of a prompt. *)
Theorem delta_keys_are_unique (rid rid' : string) (a b : Z) :
  colon_free rid = true -> colon_free rid' = true -> 0 <= a -> 0 <= b ->
  (delta_key rid a = delta_key rid' b -> rid = rid' /\ a = b)
  /\ (forall x, delta_key rid a <> run_key x /\ delta_key rid a <> prompt_key x).
Proof.
  intros Hr Hr' Ha Hb. split.
  - intros H. rewrite !delta_key_shape in H. apply StrFacts.append_inj_l in H.
    destruct (colon_split _ _ _ _ Hr Hr' H) as [<- Hpad]. split; [reflexivity|].
    apply (f_equal Str.decode) in Hpad.
    rewrite !KeyFacts.decode_padded in Hpad by assumption.
    injection Hpad as Hpad. lia.
  - intros x. rewrite delta_key_shape. split; discriminate.
Qed.

Lemma delta_keys_are_unique_witness :
  (delta_key "r1" 3 = delta_key "r1" 3 -> "r1" = "r1" /\ 3 = 3)
  /\ (forall x, delta_key "r1" 3 <> run_key x /\ delta_key "r1" 3 <> prompt_key x).
Proof.
  apply (delta_keys_are_unique "r1" "r1" 3 3); [reflexivity|reflexivity|lia|lia].
Defined.

(** X6. Runs do not read each other's deltas: for two different run ids
    without a colon, where the reading run's id also has no [GLOB] character
    and no NUL code unit, whatever is written under a delta key of the one
    leaves the deltas that [getDeltas] returns for the other as they
    were. *)
Theorem other_runs_deltas_are_not_read (rid rid' : string) (n : Z) (b : Blob)
    (e : Env) (d : Delta) :
  KV.plain rid = true -> KV.nul_free rid = true ->
  colon_free rid = true -> colon_free rid' = true ->
  rid <> rid' ->
  d ∈ getDeltas rid (kv_set (delta_key rid' n) b e) <-> d ∈ getDeltas rid e.
Proof.
  intros Hp Hn Hc Hc' Hne.
  pose proof (other_key_not_listed rid rid' n Hp Hn Hc Hc' Hne) as Hk.
  rewrite !getDeltas_elem. unfold kv_set, KV.set, KV.set_ttl. simpl.
  split; intros (k & exp & Hrow & Hg & He); exists k, exp; repeat split; try assumption.
  - destruct (decide (k = delta_key rid' n)) as [->|Hk']; [congruence|].
    now rewrite lookup_insert_ne in Hrow by congruence.
  - destruct (decide (k = delta_key rid' n)) as [->|Hk']; [congruence|].
    now rewrite lookup_insert_ne by congruence.
Qed.

Lemma other_runs_deltas_are_not_read_witness :
  mkDelta 0 "hello" None
    ∈ getDeltas "r1" (kv_set (delta_key "r2" 0) (BDelta (mkDelta 0 "x" None))
                        (env Examples.w_done))
  <-> mkDelta 0 "hello" None ∈ getDeltas "r1" (env Examples.w_done).
Proof.
  apply (other_runs_deltas_are_not_read "r1" "r2" 0 (BDelta (mkDelta 0 "x" None))
           (env Examples.w_done) (mkDelta 0 "hello" None));
    [reflexivity|reflexivity|reflexivity|reflexivity|discriminate].
Defined.

End KeyspaceLaws.

(** ** The coordinator: a run's operations *)

Module LifecycleFacts.
Import Coordinator CoordinatorFacts Lifecycle.

Local Opaque BATCH_BYTES.

Lemma no_pending r :
  has_pending r = false -> pending r = "" /\ pendingImages r = [].
Proof.
  unfold has_pending. intros H. apply orb_false_iff in H as [H1 H2].
  split.
  - destruct (pending r); [reflexivity|discriminate].
  - destruct (pendingImages r); [reflexivity|discriminate].
Qed.

Lemma flush_eq force r e :
  flush force r e
  = if has_pending r
    then (flushed r,
          let e' := bcast r (frame_of (pending_delta r))
                      (kv_set (delta_key (rid r) (seq r + 1))
                         (BDelta (pending_delta r)) e) in
          if force then saveSnapshot (flushed r) e' else e')
    else (with_flushTimer false r,
          if force then saveSnapshot (with_flushTimer false r) e else e).
Proof.
  destruct (has_pending r) eqn:E.
  - now rewrite (flush_pending force r e E).
  - now rewrite (flush_nothing force r e E).
Qed.

(** The run and the environment that [stop] leaves. *)
Lemma stop_running r e :
  phase r = Running ->
  stop r e
  = (stopped r,
     notify (NEnded (rid r))
       (bcast r FDone
          (saveSnapshot (stopped r)
             (flush true (clearTimeoutTimer r) e).2))).
Proof.
  intros Hph. unfold stop. rewrite (proj2 (is_running_true r) Hph). cbn [negb].
  rewrite flush_eq.
  change (has_pending (clearTimeoutTimer r)) with (has_pending r).
  unfold stopped. destruct (has_pending r) eqn:E; cbv beta iota zeta.
  - unfold abort, flushed. cbn -[bcast kv_set saveSnapshot notify Z.add].
    rewrite !bcast_eq. reflexivity.
  - destruct (no_pending r E) as [Hp Hi].
    rewrite !bcast_eq.
    unfold abort, with_controller, with_error, with_phase, with_flushTimer,
      clearTimeoutTimer, with_timeoutTimer.
    cbn [rid seq phase error sockets pending pendingImages flushTimer
         controller startedAt timeoutTimer].
    rewrite Hp, Hi. reflexivity.
Qed.

Lemma stop_idle r e : phase r <> Running -> stop r e = (r, e).
Proof.
  intros H. unfold stop. destruct (is_running r) eqn:E; [|reflexivity].
  now apply is_running_true in E.
Qed.

Lemma fail_idle m r e : phase r <> Running -> fail m r e = (r, e).
Proof.
  intros H. unfold fail. destruct (is_running r) eqn:E; [|reflexivity].
  now apply is_running_true in E.
Qed.

Lemma stop_ends r e : phase (stop r e).1 <> Running.
Proof.
  destruct (is_running r) eqn:E.
  - apply is_running_true in E. rewrite (stop_running r e E). discriminate.
  - assert (H : phase r <> Running).
    { intros H. apply is_running_true in H. congruence. }
    now rewrite (stop_idle r e H).
Qed.

Lemma fail_ends m r e : phase (fail m r e).1 <> Running.
Proof.
  destruct (is_running r) eqn:E.
  - apply is_running_true in E. rewrite (fail_running m r e E). discriminate.
  - assert (H : phase r <> Running).
    { intros H. apply is_running_true in H. congruence. }
    now rewrite (fail_idle m r e H).
Qed.

Lemma fail_run m r e :
  (fail m r e).1 = if is_running r then failed m r else r.
Proof.
  destruct (is_running r) eqn:E.
  - apply is_running_true in E. now rewrite (fail_running m r e E).
  - rewrite fail_idle; [reflexivity|]. intros H. apply is_running_true in H. congruence.
Qed.

(** [queueDelta] on a run with no image pending, when the call carries
    something: the text and the images are buffered, and the run is flushed
    or its timer armed. *)
Lemma queueDelta_buffer (text : string) (images : option (list Image))
    (r : Run) (e : Env) :
  pendingImages r = [] ->
  (Str.is_empty text && no_images images)%bool = false ->
  let r1 := with_pendingImages (default [] images)
              (with_pending (pending r ++ text) r) in
  has_pending r1 = true
  /\ queueDelta text images r e
     = if ((BATCH_BYTES <=? String.length (pending r ++ text))%nat
           || negb (no_images images))%bool
       then flush false r1 e
       else (with_flushTimer true (with_pending (pending r ++ text) r), e).
Proof.
  intros Hi E0. cbv zeta. set (l := default [] images).
  assert (Hl : (0 <? length l)%nat = negb (no_images images)).
  { unfold l, no_images. destruct images as [[|x l0]|]; reflexivity. }
  split.
  - unfold has_pending. cbn [pending pendingImages with_pendingImages with_pending].
    rewrite Hl. destruct (no_images images) eqn:En; [|apply orb_true_r].
    rewrite andb_true_r in E0. destruct text as [|c t]; [discriminate|].
    now rewrite is_empty_app_r.
  - unfold queueDelta. rewrite E0.
    set (r0 := if Str.is_empty text then r else with_pending (pending r ++ text) r).
    assert (Hr0 : r0 = with_pending (pending r ++ text) r).
    { unfold r0. destruct text; [|reflexivity].
      rewrite StrFacts.append_nil_r. now destruct r. }
    clearbody r0. subst r0.
    set (r1 := match images with
               | Some l0 =>
                   with_pendingImages
                     (pendingImages (with_pending (pending r ++ text) r) ++ l0)
                     (with_pending (pending r ++ text) r)
               | None => with_pending (pending r ++ text) r
               end).
    assert (Hr1 : r1 = with_pendingImages l (with_pending (pending r ++ text) r)).
    { unfold r1, l. destruct images as [l0|]; cbn [pendingImages with_pending default].
      - now rewrite Hi.
      - unfold with_pendingImages, with_pending. cbn. now rewrite Hi. }
    clearbody r1. subst r1.
    cbn [pending pendingImages with_pendingImages with_pending]. rewrite Hl.
    destruct ((BATCH_BYTES <=? String.length (pending r ++ text))%nat
              || negb (no_images images))%bool eqn:E1; [reflexivity|].
    cbn [flushTimer with_pendingImages with_pending].
    apply orb_false_iff in E1 as [_ En]. apply negb_false_iff in En.
    assert (l = []) as ->.
    { unfold l, no_images in *.
      destruct images as [[|x l0]|]; try reflexivity; discriminate. }
    assert (Heta : with_pendingImages [] (with_pending (pending r ++ text) r)
                   = with_pending (pending r ++ text) r).
    { unfold with_pendingImages, with_pending. cbn. now rewrite Hi. }
    rewrite Heta.
    destruct (flushTimer r) eqn:Et; cbn [negb]; [|reflexivity].
    f_equal. unfold with_flushTimer, with_pending. cbn. now rewrite Et.
Qed.

(** A message that is neither a [stop] nor a [begin]. *)
Lemma refused_type uid ws msg w :
  type_is "stop" msg = false ->
  type_is "begin" msg = false ->
  handleMessage uid ws msg w
  = Returned (mkWorld (runs (ensure uid w).2)
                (send ws (FErr "bad_type") (env w))).
Proof.
  intros Hs Hb.
  unfold handleMessage. destruct (ensure uid w) as [r w'] eqn:E.
  rewrite Hs, Hb. cbn [negb snd].
  replace (env w') with (env w); [reflexivity|].
  rewrite <- (ensure_env uid w), E. reflexivity.
Qed.

Lemma type_is_text lit t rid apiKey or_body model messages after provider :
  Js.is_str lit t = false ->
  type_is lit (mkMsg (Wire.text t) rid apiKey or_body model messages after
                 provider) = false.
Proof. unfold type_is. cbn [m_type]. now destruct t. Qed.

End LifecycleFacts.

Section LifecycleLaws.
Import Coordinator CoordinatorFacts Lifecycle LifecycleFacts.

Local Opaque BATCH_BYTES.

(** X7. The batching of [queueDelta], for a run with no image pending. A
    call without text and without images does nothing. Otherwise the text
    is appended to the pending text; if that reaches [BATCH_BYTES]
    characters, or if the call carries an image, one delta with the next
    [seq], all the pending text and the images is persisted and broadcast
    at once, and the buffers are empty and the flush timer cleared; if
    not, nothing is persisted or sent and the flush timer is armed. *)
Theorem queueDelta_batches (text : string) (images : option (list Image))
    (r : Run) (e : Env) :
  pendingImages r = [] ->
  queueDelta text images r e
  = if (Str.is_empty text && no_images images)%bool then (r, e)
    else if ((BATCH_BYTES <=? String.length (pending r ++ text))%nat
             || negb (no_images images))%bool
    then
      let item := mkDelta (seq r + 1) (pending r ++ text)
                    (if no_images images then None else images) in
      (mkRun (rid r) (seq r + 1) (phase r) (error r) (sockets r) "" [] false
             (controller r) (startedAt r) (timeoutTimer r),
       bcast r (frame_of item)
         (kv_set (delta_key (rid r) (seq r + 1)) (BDelta item) e))
    else (with_flushTimer true (with_pending (pending r ++ text) r), e).
Proof.
  intros Hi.
  destruct (Str.is_empty text && no_images images)%bool eqn:E0.
  { unfold queueDelta. now rewrite E0. }
  destruct (queueDelta_buffer text images r e Hi E0) as [Hp ->].
  destruct (_ || _)%bool; [|reflexivity].
  rewrite (flush_pending false _ e Hp). cbv beta iota zeta.
  cbn [pending pendingImages with_pendingImages with_pending rid seq phase
       error sockets controller startedAt timeoutTimer].
  rewrite !bcast_eq. cbn [sockets with_pendingImages with_pending].
  unfold frame_of. cbn [d_seq d_text d_images].
  assert (Him : (if (0 <? length (default [] images))%nat
                 then Some (default [] images) else None)
                = (if no_images images then None else images)).
  { unfold no_images. destruct images as [[|x l0]|]; reflexivity. }
  now rewrite Him.
Qed.

Lemma queueDelta_batches_witness :
  queueDelta "lo" None Examples.r_par (env Examples.w_par)
  = (mkRun "r1" (-1) Running None [1%nat] "parlo" [] true (Some false) 0 true,
     env Examples.w_par).
Proof.
  rewrite (queueDelta_batches "lo" None Examples.r_par (env Examples.w_par));
    reflexivity.
Defined.

(** X8. Ending a run is idempotent. After [stop] or [fail] has returned the
    run is not [running], and a further [stop] or [fail] (a second stop
    message, the timeout firing late, the provider call settling after the
    stop) changes neither the run nor the store nor what was sent. *)
Theorem ended_run_stays_ended (m m' : string) (r : Run) (e : Env) :
  (stop (stop r e).1 (stop r e).2 = stop r e
   /\ fail m' (stop r e).1 (stop r e).2 = stop r e)
  /\ (stop (fail m r e).1 (fail m r e).2 = fail m r e
      /\ fail m' (fail m r e).1 (fail m r e).2 = fail m r e).
Proof.
  pose proof (stop_ends r e) as Hs. pose proof (fail_ends m r e) as Hf.
  repeat split.
  - rewrite (stop_idle _ _ Hs). now destruct (stop r e).
  - rewrite (fail_idle _ _ _ Hs). now destruct (stop r e).
  - rewrite (stop_idle _ _ Hf). now destruct (fail m r e).
  - rewrite (fail_idle _ _ _ Hf). now destruct (fail m r e).
Qed.

(** X9. A [stop] message that names the running run of the uid ends it: the
    run is left in phase [done] without error, its buffers empty, its
    timers cleared and its controller aborted; text or images that were
    pending are persisted as one more delta and sent to every socket of the
    run; the snapshot of the final run is persisted; every socket of the
    run is sent [{type:"done"}]; no provider call is made; and a poll of
    the uid reports [done: true] without error. *)
Theorem stop_message_ends_the_run (uid : string) (ws : nat) (msg : Msg)
    (w : World) (r : Run) :
  runs w !! uid = Some r ->
  phase r = Running ->
  type_is "stop" msg = true ->
  m_rid msg = Some (rid r) ->
  exists w',
    handleMessage uid ws msg w = Returned w'
    /\ runs w' !! uid = Some (stopped r)
    /\ (forall u, u <> uid -> runs w' !! u = runs w !! u)
    /\ (has_pending r = true ->
        kv_get (env w') (delta_key (rid r) (seq r + 1))
        = Some (BDelta (pending_delta r)))
    /\ kv_get (env w') (run_key (rid r)) = Some (BSnap (snapshot_of (stopped r)))
    /\ sent (env w')
       = (sent (env w)
          ++ (if has_pending r
              then List.map (fun s => (s, frame_of (pending_delta r))) (sockets r)
              else [])
          ++ List.map (fun s => (s, FDone)) (sockets r))%list
    /\ calls (env w') = calls (env w)
    /\ p_phase (handlePoll uid w').1 = Done
    /\ p_done (handlePoll uid w').1 = true
    /\ p_error (handlePoll uid w').1 = None.
Proof.
  intros Hr Hph Hty Hrid.
  exists (store uid (stop r (env w)) w). split.
  { unfold handleMessage. rewrite (ensure_found _ _ _ Hr), Hty, Hrid.
    now rewrite String.eqb_refl. }
  rewrite (stop_running r (env w) Hph), flush_eq.
  change (has_pending (clearTimeoutTimer r)) with (has_pending r).
  unfold store. cbn [fst snd runs env].
  split; [apply lookup_insert_eq|].
  split; [intros u Hu; now apply lookup_insert_ne|].
  rewrite !bcast_eq.
  split; [|split; [|split; [|split]]].
  - intros Hp. rewrite Hp. cbv zeta. rewrite ?bcast_eq.
    unfold kv_get, saveSnapshot, kv_set, notify. cbn.
    rewrite !KVFacts.get_set_ne by apply run_key_not_delta_key.
    apply KVFacts.get_set_eq.
  - unfold kv_get, saveSnapshot, kv_set, notify. cbn. apply KVFacts.get_set_eq.
  - destruct (has_pending r); cbv zeta; rewrite ?bcast_eq;
      unfold saveSnapshot, kv_set, notify; cbn; [now rewrite <- app_assoc|reflexivity].
  - destruct (has_pending r); cbv zeta; rewrite ?bcast_eq; reflexivity.
  - unfold handlePoll, meta. cbn [runs]. rewrite lookup_insert_eq. cbn.
    repeat split.
Qed.

Lemma stop_message_ends_the_run_witness :
  exists w',
    handleMessage "u1" 1%nat (Examples.stop_msg "r1") Examples.w_par = Returned w'
    /\ runs w' !! "u1"
       = Some (mkRun "r1" 0 Done None [1%nat] "" [] false (Some true) 0 false)
    /\ sent (env w') = [(1%nat, FDelta 0 "par" None); (1%nat, FDone)].
Proof.
  destruct (stop_message_ends_the_run "u1" 1%nat (Examples.stop_msg "r1")
              Examples.w_par Examples.r_par)
    as (w' & H1 & H2 & _ & _ & _ & H3 & _);
    [reflexivity|reflexivity|reflexivity|reflexivity|].
  exists w'. split; [exact H1|]. split; [exact H2|exact H3].
Defined.

(** X10. [handlePoll] answers with the idle sentinel exactly when the uid
    has no run in memory and no live snapshot under [run:<uid>]; a poll
    never writes to the store, sends nothing, and changes the runs of no
    other uid. *)
Theorem poll_sentinel (uid : string) (w : World) :
  ((handlePoll uid w).1 = sentinel
   <-> runs w !! uid = None /\ kv_get (env w) (run_key uid) = None)
  /\ env (handlePoll uid w).2 = env w
  /\ (forall u, u <> uid -> runs (handlePoll uid w).2 !! u = runs w !! u).
Proof.
  unfold handlePoll, meta.
  destruct (runs w !! uid) as [r|] eqn:Er.
  - split; [|split; [reflexivity|reflexivity]]. split.
    + intros H. apply (f_equal p_rid) in H. discriminate.
    + intros [H _]. discriminate.
  - destruct (kv_get (env w) (run_key uid)) as [snap|] eqn:Es.
    + split; [|split; [reflexivity|]].
      * split; [|intros [_ H]; discriminate].
        intros H. apply (f_equal p_rid) in H. discriminate.
      * intros u Hu. cbn. now apply lookup_insert_ne.
    + split; [|split; reflexivity]. split; [now split|reflexivity].
Qed.

(** X11. A parsed socket message whose [type] is neither the text [stop]
    nor the text [begin] (it is another text, another kind of value, or
    absent; the message may be an object, an array, a number, a text or a
    boolean) is answered [{type:"err", message:"bad_type"}], sent to the
    sender alone; the store, the notices and the provider calls are
    untouched, and so is every run (the run of the uid is materialized if
    it was not in memory, as for every message). The message [null] is not
    answered: the read of its [type] throws after the run of the uid was
    materialized, and nothing is sent. *)
Theorem other_types_are_refused (uid : string) (ws : nat) (v : jsval) (w : World) :
  Js.is_str "stop" (Wire.field "type" v) = false ->
  Js.is_str "begin" (Wire.field "type" v) = false ->
  (v = JNull -> Wire.handle uid ws v w = Some (Thrown (ensure uid w).2))
  /\ (v <> JNull -> v <> JUndef ->
      Wire.handle uid ws v w
      = Some (Returned (mkWorld (runs (ensure uid w).2)
                          (send ws (FErr "bad_type") (env w)))))
  /\ env (ensure uid w).2 = env w
  /\ (forall r, runs w !! uid = Some r -> runs (ensure uid w).2 = runs w).
Proof.
  intros Hs Hb. split; [intros ->; reflexivity|].
  split; [|split].
  - intros Hn Hu.
    assert (Hh : Wire.handle uid ws v w
                 = option_map (fun msg => handleMessage uid ws msg w) (Wire.read v)).
    { destruct v; try reflexivity; contradiction. }
    rewrite Hh. unfold Wire.read. rewrite Hs, Hb. cbn [negb option_map].
    f_equal. apply refused_type; apply type_is_text; assumption.
  - apply ensure_env.
  - intros r Hr. now rewrite (ensure_found _ _ _ Hr).
Qed.

Lemma other_types_are_refused_witness :
  Wire.handle "u1" 1%nat JNull Examples.w_running
  = Some (Thrown (ensure "u1" Examples.w_running).2)
  /\ Wire.handle "u1" 1%nat (JObj [("type", JStr "ping")]) Examples.w_running
     = Some (Returned (mkWorld (runs (ensure "u1" Examples.w_running).2)
                         (send 1%nat (FErr "bad_type") (env Examples.w_running)))).
Proof.
  split.
  - apply (other_types_are_refused "u1" 1%nat JNull Examples.w_running);
      reflexivity.
  - apply (other_types_are_refused "u1" 1%nat (JObj [("type", JStr "ping")])
             Examples.w_running); [reflexivity|reflexivity|discriminate|discriminate].
Defined.

End LifecycleLaws.

(** ** The coordinator: the sweep, the snapshot and the buffers *)

Module SweepFacts.
Import Coordinator CoordinatorFacts Lifecycle LifecycleFacts.

Local Opaque BATCH_BYTES.

Lemma now_kv_set k b e : now (kv_set k b e) = now e.
Proof. reflexivity. Qed.

Lemma now_flush force r e : now (flush force r e).2 = now e.
Proof.
  rewrite flush_eq. destruct (has_pending r), force; cbv zeta; cbn [snd];
    unfold saveSnapshot; rewrite ?now_kv_set, ?bcast_eq; reflexivity.
Qed.

Lemma now_fail m r e : now (fail m r e).2 = now e.
Proof.
  destruct (is_running r) eqn:E.
  - apply is_running_true in E. rewrite (fail_running m r e E). cbv zeta.
    cbn [snd]. unfold notify, saveSnapshot. cbn [now with_notices].
    rewrite bcast_eq. cbn [now with_sent]. rewrite !now_kv_set, bcast_eq.
    reflexivity.
  - rewrite fail_idle; [reflexivity|]. intros H. apply is_running_true in H. congruence.
Qed.

(** One step of the sweep touches the run of its entry alone. *)
Lemma sweep_one_other w k r u :
  u <> k -> runs (sweep_one w (k, r)) !! u = runs w !! u.
Proof.
  intros Hu. unfold sweep_one.
  destruct (is_running r).
  - destruct (_ && _)%bool; [|reflexivity].
    destruct (fail timeout_message r (env w)). cbn. now apply lookup_insert_ne.
  - destruct (_ =? _)%nat; [|reflexivity]. cbn. now apply lookup_delete_ne.
Qed.

Lemma sweep_one_self w k r :
  runs w !! k = Some r ->
  runs (sweep_one w (k, r)) !! k = swept (now (env w)) r.
Proof.
  intros Hk. unfold sweep_one, swept, overdue.
  destruct (is_running r) eqn:Er; cbn [andb].
  - destruct (_ && _)%bool; [|exact Hk].
    pose proof (fail_run timeout_message r (env w)) as Hf. rewrite Er in Hf.
    destruct (fail timeout_message r (env w)) as [r' e']. cbn in Hf. subst r'.
    cbn. apply lookup_insert_eq.
  - destruct (_ =? _)%nat; [|exact Hk]. cbn. apply lookup_delete_eq.
Qed.

Lemma sweep_one_now w entry : now (env (sweep_one w entry)) = now (env w).
Proof.
  destruct entry as [k r]. unfold sweep_one.
  destruct (is_running r).
  - destruct (_ && _)%bool; [|reflexivity].
    pose proof (now_fail timeout_message r (env w)) as Hn.
    destruct (fail timeout_message r (env w)). exact Hn.
  - destruct (_ =? _)%nat; reflexivity.
Qed.

Lemma sweep_one_env w k r :
  overdue (now (env w)) r = false -> env (sweep_one w (k, r)) = env w.
Proof.
  unfold sweep_one, overdue. destruct (is_running r); cbn [andb].
  - intros ->. reflexivity.
  - intros _. destruct (_ =? _)%nat; reflexivity.
Qed.

Lemma sweep_fold (l : list (string * Run)) : forall w,
  NoDup l.*1 ->
  (forall k r, (k, r) ∈ l -> runs w !! k = Some r) ->
  let w' := fold_left sweep_one l w in
  now (env w') = now (env w)
  /\ (forall u, runs w' !! u
                = match (list_to_map l : gmap string Run) !! u with
                  | Some r => swept (now (env w)) r
                  | None => runs w !! u
                  end)
  /\ ((forall k r, (k, r) ∈ l -> overdue (now (env w)) r = false) ->
      env w' = env w).
Proof.
  induction l as [|[k r] l IH]; intros w Hnd Hl; cbn [fold_left].
  - split; [reflexivity|]. split; [|reflexivity].
    intros u. cbn [list_to_map foldr]. now rewrite lookup_empty.
  - cbn [fmap list_fmap fst] in Hnd. apply NoDup_cons in Hnd as [Hk Hnd].
    assert (Hl' : forall k0 r0, (k0, r0) ∈ l ->
                    runs (sweep_one w (k, r)) !! k0 = Some r0).
    { intros k0 r0 Hin. rewrite sweep_one_other.
      - apply Hl. now right.
      - intros ->. apply Hk. apply list_elem_of_fmap. now exists (k, r0). }
    destruct (IH (sweep_one w (k, r)) Hnd Hl') as (Hnow & Hruns & Henv).
    rewrite sweep_one_now in Hnow, Hruns, Henv.
    split; [exact Hnow|]. split.
    + intros u. rewrite Hruns. cbn [list_to_map foldr uncurry fst snd].
      destruct (decide (u = k)) as [->|Hu].
      * rewrite lookup_insert_eq.
        rewrite (proj1 (not_elem_of_list_to_map l k) ) by exact Hk.
        apply sweep_one_self, Hl. now left.
      * rewrite lookup_insert_ne by congruence.
        destruct (list_to_map l !! u); [reflexivity|].
        now apply sweep_one_other.
    + intros Hov. rewrite Henv.
      * apply sweep_one_env, (Hov k r). now left.
      * intros k0 r0 Hin. apply (Hov k0 r0). now right.
Qed.

End SweepFacts.

Section SweepLaws.
Import Coordinator CoordinatorFacts Lifecycle LifecycleFacts SweepFacts.

(** X12. The sweep treats every run by itself ([swept]), whatever the order
    of the visit: a running run is never evicted, and it is failed with the
    timeout message exactly when its [startedAt] is set and more than
    [MAX_RUN_MS] old; a run that is not running is evicted exactly when it
    has no socket. The clock
    is left alone, and a sweep during which no run is overdue leaves the
    store and the logs untouched. *)
Theorem sweep_run_by_run (w : World) :
  runs (sweep w) = omap (swept (now (env w))) (runs w)
  /\ now (env (sweep w)) = now (env w)
  /\ ((forall u r, runs w !! u = Some r -> overdue (now (env w)) r = false) ->
      env (sweep w) = env w).
Proof.
  destruct (sweep_fold (map_to_list (runs w)) w) as (Hnow & Hruns & Henv).
  - apply NoDup_fst_map_to_list.
  - intros k r Hin. now apply elem_of_map_to_list in Hin.
  - split; [|split; [exact Hnow|]].
    + apply map_eq. intros u. unfold sweep. rewrite Hruns, lookup_omap.
      rewrite list_to_map_to_list. now destruct (runs w !! u).
    + intros Hov. apply Henv. intros k r Hin. apply (Hov k).
      now apply elem_of_map_to_list in Hin.
Qed.

(** X13. The snapshot round trip. After [saveSnapshot] of a run, [meta] of
    the run's [rid], on a process that does not hold that [rid] in memory,
    gives back the run's [rid], [seq], [phase], [error] and [startedAt]
    with empty buffers, no socket, no timer and no controller, as long as
    fewer than [TTL_MS] milliseconds have passed; from then on it finds
    nothing. *)
Theorem snapshot_round_trip (r : Run) (e : Env) (rs : gmap string Run) (t : Z) :
  rs !! rid r = None ->
  let w := mkWorld rs (with_now t (saveSnapshot r e)) in
  let r' := mkRun (rid r) (seq r) (phase r) (error r) [] "" [] false None
                  (startedAt r) false in
  meta (rid r) w
  = if (t <? now e + KV.TTL_MS)%Z
    then (Some r', mkWorld (<[rid r := r']> rs) (env w))
    else (None, w).
Proof.
  intros Hrs. cbv zeta. unfold meta. cbn [runs env]. rewrite Hrs.
  unfold kv_get, saveSnapshot, kv_set, KV.set, KV.set_ttl.
  cbn [kv now with_now with_kv].
  rewrite KVLaws.get_insert, String.eqb_refl.
  destruct (t <? now e + KV.TTL_MS)%Z; reflexivity.
Qed.

Lemma snapshot_round_trip_witness :
  meta "r1" (mkWorld ∅ (with_now 1000
                          (saveSnapshot
                             (mkRun "r1" 4 Done None [1%nat] "" [] false (Some true) 7 false)
                             (env initial))))
  = (Some (mkRun "r1" 4 Done None [] "" [] false None 7 false),
     mkWorld (<["r1" := mkRun "r1" 4 Done None [] "" [] false None 7 false]> ∅)
       (with_now 1000
          (saveSnapshot
             (mkRun "r1" 4 Done None [1%nat] "" [] false (Some true) 7 false)
             (env initial)))).
Proof.
  exact (snapshot_round_trip
           (mkRun "r1" 4 Done None [1%nat] "" [] false (Some true) 7 false)
           (env initial) ∅ 1000 eq_refl).
Defined.

End SweepLaws.

Module BufferFacts.
Import Coordinator CoordinatorFacts Lifecycle LifecycleFacts SweepFacts.

Lemma batch_pos : (0 < BATCH_BYTES)%nat.
Proof. unfold BATCH_BYTES. lia. Qed.

Local Opaque BATCH_BYTES.

(** A run with empty buffers is fine whatever its timer. *)
Lemma run_ok_empty id sq ph er ss ft ct st tt :
  NoDup ss -> run_ok (mkRun id sq ph er ss "" [] ft ct st tt).
Proof.
  intros Hs. repeat split; [apply batch_pos|discriminate|exact Hs].
Qed.

Lemma run_ok_fresh uid : run_ok (fresh uid).
Proof. apply run_ok_empty. constructor. Qed.

Lemma run_ok_restored uid snap : run_ok (restored uid snap).
Proof. apply run_ok_empty. constructor. Qed.

Lemma run_ok_flush force r e : run_ok r -> run_ok (flush force r e).1.
Proof.
  intros (Hi & Hl & Ht & Hs). rewrite flush_eq.
  destruct (has_pending r) eqn:E; cbn [fst].
  - now apply run_ok_empty.
  - destruct (no_pending r E) as [Hp _].
    repeat split; cbn; try assumption. rewrite Hp. discriminate.
Qed.

Lemma run_ok_queueDelta text images r e :
  run_ok r -> run_ok (queueDelta text images r e).1.
Proof.
  intros Hok. pose proof Hok as (Hi & Hl & Ht & Hs).
  destruct (Str.is_empty text && no_images images)%bool eqn:E0.
  { unfold queueDelta. now rewrite E0. }
  destruct (queueDelta_buffer text images r e Hi E0) as [Hp ->].
  destruct (_ || _)%bool eqn:E.
  - rewrite (flush_pending false _ e Hp). cbv zeta. cbn [fst].
    now apply run_ok_empty.
  - cbn [fst]. apply orb_false_iff in E as [E _]. apply Nat.leb_gt in E.
    repeat split; cbn; assumption.
Qed.

Lemma run_ok_stop r e : run_ok r -> run_ok (stop r e).1.
Proof.
  intros Hok. destruct (is_running r) eqn:E.
  - apply is_running_true in E. rewrite (stop_running r e E).
    apply run_ok_empty, Hok.
  - rewrite stop_idle; [exact Hok|]. intros H. apply is_running_true in H. congruence.
Qed.

Lemma run_ok_fail m r e : run_ok r -> run_ok (fail m r e).1.
Proof.
  intros Hok. rewrite fail_run. destruct (is_running r); [|exact Hok].
  apply run_ok_empty, Hok.
Qed.

Lemma run_ok_settle how r e : run_ok r -> run_ok (beginStream_settle how r e).1.
Proof.
  intros Hok. unfold beginStream_settle.
  assert (Hmid : run_ok
            (match how with
             | Resolved => (r, e)
             | Rejected err =>
                 if is_running r
                 then if negb (is_abort err (error_string (e_message err)))
                      then fail (error_string (e_message err)) r e else (r, e)
                 else (r, e)
             end).1).
  { destruct how as [|err]; [exact Hok|].
    destruct (is_running r); [|exact Hok].
    destruct (negb _); [now apply run_ok_fail|exact Hok]. }
  destruct (match how with Resolved => _ | Rejected _ => _ end) as [r1 e1].
  cbn [fst] in Hmid. destruct (is_running r1); [now apply run_ok_stop|exact Hmid].
Qed.

Lemma NoDup_set_add ws l : NoDup l -> NoDup (set_add ws l).
Proof.
  intros Hl. unfold set_add. destruct (existsb (Nat.eqb ws) l) eqn:E; [exact Hl|].
  apply NoDup_app. split; [exact Hl|]. split; [|apply NoDup_singleton].
  intros x Hx Hx'. apply list_elem_of_singleton in Hx'. subst x.
  assert (existsb (Nat.eqb ws) l = true); [|congruence].
  apply existsb_exists. exists ws. split; [now apply list_elem_of_In|apply Nat.eqb_refl].
Qed.

Lemma NoDup_set_delete ws l : NoDup l -> NoDup (set_delete ws l).
Proof.
  intros Hl. unfold set_delete.
  now apply NoDup_ListNoDup, List.NoDup_filter, NoDup_ListNoDup.
Qed.

Lemma run_ok_sockets ss r :
  run_ok r -> NoDup ss -> run_ok (with_sockets ss r).
Proof. intros (Hi & Hl & Ht & _) Hs. repeat split; assumption. Qed.

Lemma world_ok_insert w uid r e :
  world_ok w -> run_ok r -> world_ok (mkWorld (<[uid := r]> (runs w)) e).
Proof.
  intros Hw Hr u r0. cbn [runs]. destruct (decide (u = uid)) as [->|Hu].
  - rewrite lookup_insert_eq. now intros [= <-].
  - rewrite lookup_insert_ne by congruence. apply Hw.
Qed.

Lemma world_ok_env w e : world_ok w -> world_ok (mkWorld (runs w) e).
Proof. intros Hw u r. apply Hw. Qed.

Lemma world_ok_ensure uid w :
  world_ok w -> world_ok (ensure uid w).2 /\ run_ok (ensure uid w).1.
Proof.
  intros Hw. unfold ensure, meta.
  destruct (runs w !! uid) as [r|] eqn:Er; [split; [exact Hw|now apply (Hw uid)]|].
  destruct (kv_get (env w) (run_key uid)) as [snap|]; cbn [fst snd runs env].
  - split; [|apply run_ok_restored].
    apply world_ok_insert; [exact Hw|apply run_ok_restored].
  - split; [|apply run_ok_fresh].
    apply world_ok_insert; [exact Hw|apply run_ok_fresh].
Qed.

Lemma world_ok_on_run uid f w :
  (forall r e, run_ok r -> run_ok (f r e).1) ->
  world_ok w -> world_ok (on_run uid f w).
Proof.
  intros Hf Hw. unfold on_run. destruct (runs w !! uid) as [r|] eqn:Er; [|exact Hw].
  unfold store. apply world_ok_insert; [exact Hw|]. apply Hf. now apply (Hw uid).
Qed.

Lemma world_ok_handleMessage uid ws msg w :
  world_ok w -> world_ok (world_of (handleMessage uid ws msg w)).
Proof.
  intros Hw. destruct (world_ok_ensure uid w Hw) as [Hw1 Hr1].
  unfold handleMessage. destruct (ensure uid w) as [r w1]. cbn [fst snd] in *.
  destruct (type_is "stop" msg).
  { destruct (m_rid msg) as [mr|]; [|exact Hw1].
    destruct (String.eqb mr (rid r)); [|exact Hw1].
    cbn [world_of]. unfold store. apply world_ok_insert; [exact Hw1|].
    now apply run_ok_stop. }
  destruct (negb (type_is "begin" msg)); [now apply world_ok_env|].
  destruct (m_rid msg) as [msgRid|]; [|now apply world_ok_env].
  destruct (m_apiKey msg) as [apiKey|]; [|now apply world_ok_env].
  destruct (body_of msg) as [body|]; [|now apply world_ok_env].
  destruct (_ || _ || _)%bool; [now apply world_ok_env|].
  destruct (Sanitize.sanitizeMessages (b_messages body)); [|exact Hw1].
  destruct (_ && _)%bool; [now apply world_ok_env|].
  destruct (_ && _)%bool; [now apply world_ok_env|].
  cbn [world_of]. unfold store. cbn [fst snd].
  apply world_ok_insert; [exact Hw1|]. apply run_ok_empty, Hr1.
Qed.

Lemma world_ok_sweep_fold l : forall w,
  world_ok w -> (forall k r, (k, r) ∈ l -> run_ok r) ->
  world_ok (fold_left sweep_one l w).
Proof.
  induction l as [|[k r] l IH]; intros w Hw Hl; [exact Hw|].
  cbn [fold_left]. apply IH.
  - unfold sweep_one. destruct (is_running r).
    + destruct (_ && _)%bool; [|exact Hw].
      pose proof (run_ok_fail timeout_message r (env w)) as Hf.
      destruct (fail timeout_message r (env w)) as [r' e'].
      apply world_ok_insert; [exact Hw|]. apply Hf, (Hl k). now left.
    + destruct (_ =? _)%nat; [|exact Hw].
      intros u r0. cbn [runs]. intros Hu.
      apply lookup_delete_Some in Hu as [_ Hu]. now apply (Hw u).
  - intros k0 r0 Hin. apply (Hl k0). now right.
Qed.

Lemma world_ok_step w ev : world_ok w -> world_ok (step w ev).
Proof.
  intros Hw. destruct ev as [uid ws|uid ws|uid ws msg|uid|uid text images|uid
                            |uid how|uid| |dt]; cbn [step].
  - unfold addSocket. destruct (world_ok_ensure uid w Hw) as [Hw1 Hr1].
    destruct (ensure uid w) as [r w1]. cbn [fst snd] in *.
    apply world_ok_insert; [exact Hw1|].
    apply run_ok_sockets; [exact Hr1|]. apply NoDup_set_add, Hr1.
  - unfold removeSocket. destruct (runs w !! uid) as [r|] eqn:Er; [|exact Hw].
    apply world_ok_insert; [exact Hw|].
    apply run_ok_sockets; [now apply (Hw uid)|]. apply NoDup_set_delete.
    now apply (Hw uid r Er).
  - now apply world_ok_handleMessage.
  - unfold handlePoll, meta. destruct (runs w !! uid) as [r|]; [exact Hw|].
    destruct (kv_get (env w) (run_key uid)) as [snap|]; [|exact Hw].
    cbn [snd]. apply world_ok_insert; [exact Hw|apply run_ok_restored].
  - apply world_ok_on_run; [|exact Hw]. intros r e. apply run_ok_queueDelta.
  - apply world_ok_on_run; [|exact Hw]. intros r e Hr.
    destruct (flushTimer r); [now apply run_ok_flush|exact Hr].
  - apply world_ok_on_run; [|exact Hw]. intros r e. apply run_ok_settle.
  - apply world_ok_on_run; [|exact Hw]. intros r e Hr.
    destruct (_ && _)%bool; [now apply run_ok_fail|exact Hr].
  - unfold sweep. apply world_ok_sweep_fold; [exact Hw|].
    intros k r Hin. apply elem_of_map_to_list in Hin. now apply (Hw k).
  - now apply world_ok_env.
Qed.

End BufferFacts.

Section BufferLaws.
Import Coordinator Lifecycle BufferFacts.

(** X14. What the coordinator keeps of every run, in every world that the
    events (sockets opening and closing, messages, polls, provider
    callbacks, timers, sweeps, time passing) lead to from start-up: between
    two events no image is pending, fewer than [BATCH_BYTES] characters of
    text are pending, pending text has its flush timer armed, and no socket
    is registered twice. *)
Theorem buffers_stay_bounded (w : World) (uid : string) (r : Run) :
  reachable w -> runs w !! uid = Some r -> run_ok r.
Proof.
  intros [evs ->]. revert uid r. change (world_ok (run_events evs initial)).
  unfold run_events. rewrite <- fold_left_rev_right.
  induction (rev evs) as [|ev l IH]; cbn [fold_right].
  - intros uid r H. cbn in H. now rewrite lookup_empty in H.
  - now apply world_ok_step.
Qed.

Lemma buffers_stay_bounded_witness : run_ok Examples.r_par.
Proof.
  apply (buffers_stay_bounded Examples.w_par "u1" Examples.r_par).
  - exists [EOpen "u1" 1%nat; EMessage "u1" 1%nat (Examples.begin "r1" None);
            EDelta "u1" "par" None]. reflexivity.
  - reflexivity.
Defined.

End BufferLaws.

Section HandlerLaws.
Import Coordinator CoordinatorFacts Lifecycle LifecycleFacts.

(** X15. The sockets of a run are a set. Registering a socket makes it a
    socket of the run of the uid and changes nothing else of that run, and
    registering it again changes nothing at all; removing it leaves the
    other sockets of the run, in their order, and the socket is no longer
    one of them; removing a socket of a uid that has no run in memory does
    nothing. *)
Theorem sockets_are_a_set (uid : string) (ws : nat) (w : World) :
  (exists r,
     runs (addSocket uid ws w) !! uid = Some r
     /\ with_sockets (sockets (ensure uid w).1) r = (ensure uid w).1
     /\ (forall s, s ∈ sockets r <-> s = ws \/ s ∈ sockets (ensure uid w).1))
  /\ addSocket uid ws (addSocket uid ws w) = addSocket uid ws w
  /\ (forall r, runs w !! uid = Some r ->
        exists r', runs (removeSocket uid ws w) !! uid = Some r'
                   /\ (ws ∉ sockets r')
                   /\ sockets r' = List.filter (fun s => negb (Nat.eqb ws s)) (sockets r)
                   /\ with_sockets (sockets r) r' = r)
  /\ (runs w !! uid = None -> removeSocket uid ws w = w)
  /\ env (addSocket uid ws w) = env w
  /\ env (removeSocket uid ws w) = env w.
Proof.
  assert (Hin : forall l, ws ∈ set_add ws l).
  { intros l. unfold set_add. destruct (existsb (Nat.eqb ws) l) eqn:E.
    - apply existsb_exists in E as (x & Hx & Hx').
      apply Nat.eqb_eq in Hx'. subst x. now apply list_elem_of_In.
    - apply elem_of_app. right. apply list_elem_of_singleton. reflexivity. }
  assert (Hadd : runs (addSocket uid ws w) !! uid
                 = Some (with_sockets (set_add ws (sockets (ensure uid w).1))
                           (ensure uid w).1)).
  { unfold addSocket. destruct (ensure uid w) as [r w1]. cbn. apply lookup_insert_eq. }
  split; [|split; [|split; [|split; [|split]]]].
  - eexists. split; [exact Hadd|]. split; [now destruct (ensure uid w).1|].
    intros s. cbn [sockets with_sockets]. unfold set_add.
    destruct (existsb (Nat.eqb ws) (sockets (ensure uid w).1)) eqn:E.
    + split; [now right|]. intros [->|H]; [|exact H].
      apply existsb_exists in E as (x & Hx & Hx').
      apply Nat.eqb_eq in Hx'. subst x. now apply list_elem_of_In.
    + rewrite elem_of_app, list_elem_of_singleton. tauto.
  - unfold addSocket at 1. rewrite (ensure_found _ _ _ Hadd).
    unfold addSocket. destruct (ensure uid w) as [r w1]. cbn.
    rewrite insert_insert_eq. f_equal. f_equal.
    unfold with_sockets. cbn. f_equal.
    unfold set_add at 1.
    assert (existsb (Nat.eqb ws) (set_add ws (sockets r)) = true) as ->; [|reflexivity].
    apply existsb_exists. exists ws. split; [apply list_elem_of_In, Hin|apply Nat.eqb_refl].
  - intros r Hr. unfold removeSocket. rewrite Hr. cbn [runs].
    eexists. split; [apply lookup_insert_eq|]. cbn. split; [|split; [reflexivity|now destruct r]].
    unfold set_delete. rewrite list_elem_of_In, filter_In.
    intros [_ H]. now rewrite Nat.eqb_refl in H.
  - intros Hr. unfold removeSocket. now rewrite Hr.
  - unfold addSocket. pose proof (ensure_env uid w) as He.
    destruct (ensure uid w) as [r w1]. exact He.
  - unfold removeSocket. now destruct (runs w !! uid).
Qed.

(** X16. A [begin] message that passes the checks at the head of
    [handleMessage] and whose [provider] field names an adapter (it is
    absent, empty, or a name that an object literal does not inherit), on a
    uid whose run is idle, or has ended and has another [rid], starts a
    run: the run of the uid gets the [rid] of the message, [seq] -1, phase
    [running], empty buffers, a fresh controller, the current time as
    [startedAt] and its timeout timer, and keeps its sockets; the sanitized
    messages are persisted under [prompt:<rid>], where they are read back
    without the fields that hold [undefined], and the snapshot of the new
    run under [run:<rid>]; exactly one provider call is made, with the key
    of the message, the sanitized messages and the adapter that the
    [provider] field names ([openai], [google], [claude], and the
    OpenRouter one for every other name and when the field is absent or
    empty); nothing is sent. *)
Theorem begin_starts_one_call (uid : string) (ws : nat) (msg : Msg) (w : World)
    (id : string) :
  accepted msg = true ->
  adapter_named msg = true ->
  m_rid msg = Some id ->
  phase (ensure uid w).1 = Idle
  \/ (phase (ensure uid w).1 <> Running /\ id <> rid (ensure uid w).1) ->
  exists apiKey body messages w',
    m_apiKey msg = Some apiKey /\ body_of msg = Some body
    /\ Sanitize.sanitizeMessages (b_messages body) = Some messages
    /\ handleMessage uid ws msg w = Returned w'
    /\ let r := (ensure uid w).1 in
       let r' := mkRun id (-1) Running None (sockets r) "" [] (flushTimer r)
                       (Some false) (now (env w)) true in
       runs w' = <[uid := r']> (runs (ensure uid w).2)
       /\ kv_get (env w') (prompt_key id) = Some (BPrompt (Js.json messages))
       /\ kv_get (env w') (run_key id) = Some (BSnap (snapshot_of r'))
       /\ (exists p,
             calls (env w')
             = (calls (env w)
                ++ [mkCall id p apiKey (mkBody (b_model body) messages)])%list
             /\ p = providerFn (if str_truthy (m_provider msg)
                                then default "" (m_provider msg)
                                else "openrouter")
             /\ forall name, p <> Inherited name)
       /\ sent (env w') = sent (env w)
       /\ notices (env w') = notices (env w).
Proof.
  intros Ha Hprov Hrid Hstart.
  destruct (accepted_inv _ Ha)
    as (msgRid & apiKey & body & messages & H1 & H2 & H3 & H4 & H5 & H6 & H7).
  assert (msgRid = id) as -> by congruence.
  assert (Hty : type_is "begin" msg = true).
  { unfold accepted in Ha. now repeat (apply andb_true_iff in Ha as [Ha _]). }
  exists apiKey, body, messages.
  assert (Hh := handleMessage_ensure uid ws msg w).
  assert (Hr := ensure_lookup uid w). assert (He := ensure_env uid w).
  destruct (ensure uid w) as [r w1]. cbn [fst snd] in *.
  rewrite (handleMessage_accepted _ _ _ _ _ _ _ _ _ Hr Hty H1 H2 H3 H4 H5 H6 H7) in Hh.
  assert (Hb : (is_running r && negb (String.eqb id (rid r)))%bool = false).
  { destruct Hstart as [Hi|[Hn _]]; unfold is_running.
    - now rewrite Hi.
    - destruct (phase r); try reflexivity. contradiction. }
  assert (Hp : (String.eqb id (rid r)
                && negb match phase r with Idle => true | _ => false end)%bool = false).
  { destruct Hstart as [Hi|[_ Hn]].
    - rewrite Hi. apply andb_false_r.
    - destruct (String.eqb_spec id (rid r)); [contradiction|reflexivity]. }
  rewrite Hb, Hp in Hh. cbv zeta in Hh.
  eexists. split; [exact H2|]. split; [exact H3|]. split; [exact H7|].
  split; [exact Hh|]. cbv zeta.
  unfold store. cbn [fst snd runs env]. rewrite He.
  split; [reflexivity|]. split; [|split; [|split; [|split; reflexivity]]].
  - unfold kv_get, beginStream_call, saveSnapshot, kv_set. cbn.
    rewrite KVFacts.get_set_ne by discriminate. apply KVFacts.get_set_eq.
  - unfold kv_get, beginStream_call, saveSnapshot, kv_set. cbn.
    apply KVFacts.get_set_eq.
  - eexists. split; [reflexivity|]. split; [reflexivity|].
    intros name. now apply adapter_of_message.
Qed.

Lemma begin_starts_one_call_witness :
  exists w',
    handleMessage "u1" 1%nat (Examples.begin "r2" None) Examples.w_done = Returned w'
    /\ runs w' !! "u1"
       = Some (mkRun "r2" (-1) Running None [1%nat] "" [] false (Some false) 0 true)
    /\ calls (env w')
       = [mkCall "r1" OpenRouter "K" (mkBody (Some "m") Examples.hi);
          mkCall "r2" OpenRouter "K" (mkBody (Some "m") Examples.hi)].
Proof.
  destruct (begin_starts_one_call "u1" 1%nat (Examples.begin "r2" None)
              Examples.w_done "r2")
    as (apiKey & body & messages & w' & H1 & H2 & H3 & H4 & H5 & _ & _
        & (p & H6 & -> & _) & _);
    [reflexivity|reflexivity|reflexivity|right; split; vm_compute; discriminate|].
  exists w'. split; [exact H4|].
  injection H1 as <-. injection H2 as <-. injection H3 as <-.
  split.
  - rewrite H5. apply lookup_insert_eq.
  - exact H6.
Defined.

(** X17. A [begin] message that lacks a field (no [rid] or an empty one, no
    [apiKey] or an empty one, no body, or messages that are not a non-empty
    array) is answered [{type:"err", message:"missing_fields"}], sent to
    the sender alone, whatever the state of the run: no run is started or
    changed, nothing is written to the store and no provider call is
    made. *)
Theorem incomplete_begin_is_refused (uid : string) (ws : nat) (msg : Msg)
    (w : World) :
  type_is "begin" msg = true ->
  complete msg = false ->
  handleMessage uid ws msg w
  = Returned (mkWorld (runs (ensure uid w).2)
                (send ws (FErr "missing_fields") (env w)))
  /\ (forall r, runs w !! uid = Some r -> runs (ensure uid w).2 = runs w).
Proof.
  intros Hty Hc. split.
  - unfold handleMessage. pose proof (ensure_env uid w) as He.
    destruct (ensure uid w) as [r w1]. cbn [fst snd] in *.
    rewrite (type_is_excl _ Hty), Hty, He. cbn [negb].
    unfold complete, str_truthy in Hc.
    destruct (m_rid msg) as [msgRid|]; [|reflexivity].
    destruct (m_apiKey msg) as [apiKey|]; [|reflexivity].
    destruct (body_of msg) as [body|]; [|reflexivity].
    destruct (Str.is_empty msgRid); [reflexivity|].
    destruct (Str.is_empty apiKey); [reflexivity|].
    cbn [negb andb orb] in *. now rewrite Hc.
  - intros r Hr. now rewrite (ensure_found _ _ _ Hr).
Qed.

Lemma incomplete_begin_is_refused_witness :
  handleMessage "u1" 1%nat (Examples.bare_begin "r1" None) Examples.w_done
  = Returned (mkWorld (runs (ensure "u1" Examples.w_done).2)
                (send 1%nat (FErr "missing_fields") (env Examples.w_done)))
  /\ (forall r, runs Examples.w_done !! "u1" = Some r ->
                runs (ensure "u1" Examples.w_done).2 = runs Examples.w_done).
Proof.
  apply (incomplete_begin_is_refused "u1" 1%nat (Examples.bare_begin "r1" None)
           Examples.w_done); reflexivity.
Defined.

(** X18. A replay and a poll of the same run agree. The replay sends the
    issuing socket the deltas of [getDeltas] above the cursor, in their
    order, and then a closing frame exactly when the poll reports
    [done: true]: [{type:"done"}] when the poll reports no error, and
    [{type:"err"}] with the error text of the poll otherwise. The text of
    the poll is the text of all those deltas followed by the pending text,
    and neither the replay nor the poll changes the store. *)
Theorem poll_and_replay_agree (uid : string) (ws : nat) (after : Z) (w : World)
    (r : Run) :
  runs w !! uid = Some r ->
  let view := (handlePoll uid w).1 in
  let ds := getDeltas (rid r) (env w) in
  sent (replay r ws after (env w))
  = (sent (env w)
     ++ List.map (fun d => (ws, frame_of d))
          (List.filter (fun d => (after <? d_seq d)%Z) ds)
     ++ (if p_done view
         then [(ws, match p_error view with
                    | Some m => FErr m
                    | None => FDone
                    end)]
         else []))%list
  /\ p_text view = join_text ds ++ pending r
  /\ kv (replay r ws after (env w)) = kv (env w)
  /\ (handlePoll uid w).2 = w.
Proof.
  intros Hr. cbv zeta. unfold handlePoll. rewrite (meta_found _ _ _ Hr).
  cbn [fst snd p_done p_error p_text]. rewrite replay_eq.
  split; [|repeat split].
  cbn [sent with_sent]. do 2 f_equal.
  unfold terminal_frames, terminal_frame. now destruct (phase r).
Qed.

Lemma poll_and_replay_agree_witness :
  let r := mkRun "r1" 0 Done None [1%nat] "" [] false (Some true) 0 false in
  let view := (handlePoll "u1" Examples.w_done).1 in
  let ds := getDeltas "r1" (env Examples.w_done) in
  sent (replay r 2%nat (-1) (env Examples.w_done))
  = (sent (env Examples.w_done)
     ++ List.map (fun d => (2%nat, frame_of d))
          (List.filter (fun d => (-1 <? d_seq d)%Z) ds)
     ++ (if p_done view
         then [(2%nat, match p_error view with
                       | Some m => FErr m
                       | None => FDone
                       end)]
         else []))%list
  /\ p_text view = join_text ds ++ pending r
  /\ kv (replay r 2%nat (-1) (env Examples.w_done)) = kv (env Examples.w_done)
  /\ (handlePoll "u1" Examples.w_done).2 = Examples.w_done.
Proof.
  apply (poll_and_replay_agree "u1" 2%nat (-1) Examples.w_done
           (mkRun "r1" 0 Done None [1%nat] "" [] false (Some true) 0 false)).
  reflexivity.
Defined.

End HandlerLaws.

(** ** The coordinator: a run among the others *)

Module TrafficFacts.
Import Coordinator CoordinatorFacts SeqFacts KeyFacts Keyspace KeyspaceFacts.
Import Lifecycle LifecycleFacts SweepFacts RunFacts.

Local Opaque BATCH_BYTES.

(** *** Keys of runs apart *)

Lemma colon_free_app s t :
  colon_free (s ++ t) = (colon_free s && colon_free t)%bool.
Proof.
  induction s as [|c s IH]; [reflexivity|].
  rewrite StrFacts.append_cons. cbn [colon_free]. rewrite IH.
  now rewrite andb_assoc.
Qed.

Lemma colon_free_uint d : colon_free (NilEmpty.string_of_uint d) = true.
Proof. induction d; cbn; trivial. Qed.

Lemma colon_free_repeat0 n : colon_free (Str.repeat0 n) = true.
Proof. induction n as [|n IH]; [reflexivity|]. cbn. exact IH. Qed.

Lemma colon_free_pad n : colon_free (Str.padStart0 10 (Str.of_Z n)) = true.
Proof.
  unfold Str.padStart0. rewrite colon_free_app, colon_free_repeat0.
  destruct n as [|p|p]; [reflexivity| |].
  - apply colon_free_uint.
  - unfold Str.of_Z. rewrite colon_free_app. apply colon_free_uint.
Qed.

(** A text without a colon does not start with a text that has one. *)
Lemma prefix_colon a b s :
  colon_free s = true -> String.prefix (a ++ String ":" b) s = false.
Proof.
  revert s. induction a as [|c a IH]; intros [|d s] Hs; try reflexivity.
  - rewrite StrFacts.append_nil_l, StrFacts.prefix_cons.
    cbn [colon_free] in Hs. apply andb_true_iff in Hs as [Hd _].
    apply negb_true_iff in Hd. rewrite Ascii.eqb_sym in Hd. now rewrite Hd.
  - rewrite StrFacts.append_cons, StrFacts.prefix_cons.
    cbn [colon_free] in Hs. apply andb_true_iff in Hs as [_ Hs].
    rewrite (IH s Hs). apply andb_false_r.
Qed.

Lemma apart_prefix x y pad :
  colon_free pad = true ->
  String.prefix (x ++ ":") (y ++ ":") = false ->
  String.prefix (x ++ ":") (y ++ String ":" pad) = false.
Proof.
  intros Hpad. revert y. induction x as [|c x IH]; intros [|d y] H.
  - discriminate.
  - rewrite StrFacts.append_nil_l, !StrFacts.append_cons in *.
    rewrite StrFacts.prefix_cons in *.
    apply andb_false_iff in H as [H|H]; [now rewrite H|].
    now rewrite StrFacts.prefix_nil in H.
  - rewrite StrFacts.append_nil_l, StrFacts.append_cons, StrFacts.prefix_cons.
    change (x ++ ":") with (x ++ String ":" "").
    rewrite (prefix_colon x "" pad Hpad). apply andb_false_r.
  - rewrite !StrFacts.append_cons, StrFacts.prefix_cons in *.
    apply andb_false_iff in H as [H|H]; [now rewrite H|].
    rewrite (IH y H). apply andb_false_r.
Qed.

Section Apart.
Variable id : string.
Variable t0 : Z.
Hypothesis id_plain : KV.plain id = true.
Hypothesis id_nul_free : KV.nul_free id = true.

(** The listing of [id] selects no delta key of a [rid] apart from it. *)
Lemma apart_not_listed rid' n :
  apart id rid' = true ->
  KV.glob (delta_prefix id ++ "*") (delta_key rid' n) = false.
Proof.
  intros Ha. apply negb_true_iff in Ha.
  rewrite listed_prefix by assumption.
  rewrite delta_key_shape. unfold delta_prefix.
  change ("delta:" ++ id ++ ":") with ("delta:" ++ (id ++ ":")).
  rewrite prefix_app_same. apply apart_prefix; [apply colon_free_pad|exact Ha].
Qed.

Lemma listed_is_delta_key k :
  KV.glob (delta_prefix id ++ "*") k = true -> is_delta_key k = true.
Proof.
  rewrite listed_prefix by assumption. unfold delta_prefix, is_delta_key.
  change ("delta:" ++ id ++ ":") with ("delta:" ++ (id ++ ":")).
  revert k. generalize (id ++ ":"). intros s k.
  do 6 (destruct k as [|? k]; [discriminate|];
        rewrite StrFacts.append_cons, !StrFacts.prefix_cons;
        intros H; apply andb_true_iff in H as [-> H]; cbn [andb];
        revert H).
  intros _. apply StrFacts.prefix_nil.
Qed.

(** *** The rows of [id] under the operations of other runs *)

Lemma rows_kept_refl e : rows_kept id t0 e e.
Proof. now intros ds. Qed.

Lemma rows_kept_trans e1 e2 e3 :
  rows_kept id t0 e1 e2 -> rows_kept id t0 e2 e3 -> rows_kept id t0 e1 e3.
Proof. intros H1 H2 ds H. now apply H2, H1. Qed.

Lemma deltas_kept_rows e e' :
  deltas_kept e e' -> now e' = now e -> rows_kept id t0 e e'.
Proof.
  intros Hk Hn ds (H0 & H1 & H2). split; [lia|]. split.
  - intros i d Hi. destruct (H1 i d Hi) as (Hs & exp & He & Hexp).
    split; [exact Hs|]. exists exp. split; [|exact Hexp].
    rewrite Hk; [exact He|apply is_delta_key_delta_key].
  - intros k v exp Hl Hg Hexp.
    rewrite Hk in Hl by now apply listed_is_delta_key.
    now apply (H2 k v exp).
Qed.

Lemma delta_added_rows r e e' :
  apart id (rid r) = true ->
  delta_added r e e' -> now e' = now e -> rows_kept id t0 e e'.
Proof.
  intros Ha [_ Hk] Hn ds (H0 & H1 & H2). split; [lia|].
  pose proof (apart_not_listed (rid r) (seq r + 1) Ha) as Hno.
  split.
  - intros i d Hi. destruct (H1 i d Hi) as (Hs & exp & He & Hexp).
    split; [exact Hs|]. exists exp. split; [|exact Hexp].
    rewrite Hk; [exact He|apply is_delta_key_delta_key|].
    intros Heq. rewrite <- Heq, listed_delta_key in Hno by exact id_plain.
    discriminate.
  - intros k v exp Hl Hg Hexp.
    rewrite Hk in Hl.
    + now apply (H2 k v exp).
    + now apply listed_is_delta_key.
    + intros ->. congruence.
Qed.

Lemma seq_step_rows r e re :
  apart id (rid r) = true ->
  seq_step r e re -> now re.2 = now e ->
  rows_kept id t0 e re.2 /\ rid re.1 = rid r.
Proof.
  intros Ha (Hrid & [(_ & Hk)|(_ & Hadd)]) Hn; (split; [|exact Hrid]).
  - now apply deltas_kept_rows.
  - now apply (delta_added_rows r).
Qed.

Lemma RunInv_rows_kept T I r e e' :
  rows_kept id t0 e e' -> RunInv id t0 T I r e -> RunInv id t0 T I r e'.
Proof.
  intros Hk (Hid & ds & H1 & H2 & H3 & H4). split; [exact Hid|].
  exists ds. split; [exact H1|]. split; [now apply Hk|]. split; assumption.
Qed.


Lemma kv_eq_rows e e' :
  kv e' = kv e -> now e <= now e' -> rows_kept id t0 e e'.
Proof. intros Hk Hn ds. now apply Rows_kv_eq. Qed.

(** *** The operations keep the clock *)

Lemma now_queueDelta text images r e :
  now (queueDelta text images r e).2 = now e.
Proof.
  unfold queueDelta.
  destruct (Str.is_empty text && no_images images)%bool; [reflexivity|].
  destruct (_ || _)%bool; [apply now_flush|].
  now destruct (negb _).
Qed.

Lemma now_stop r e : now (stop r e).2 = now e.
Proof.
  unfold stop. destruct (negb (is_running r)); [reflexivity|].
  pose proof (now_flush true (clearTimeoutTimer r) e) as Hn.
  destruct (flush true (clearTimeoutTimer r) e) as [r1 e1]. cbn [snd] in *.
  change (now (notify ?n ?x)) with (now x). rewrite now_bcast.
  unfold saveSnapshot. now rewrite now_kv_set.
Qed.

Lemma now_settle how r e : now (beginStream_settle how r e).2 = now e.
Proof.
  unfold beginStream_settle. destruct how as [|err].
  - destruct (is_running r); [apply now_stop|reflexivity].
  - destruct (is_running r) eqn:Hrun; [|rewrite Hrun; reflexivity].
    destruct (negb (is_abort err (error_string (e_message err)))).
    + pose proof (now_fail (error_string (e_message err)) r e) as Hn.
      pose proof (fail_not_running (error_string (e_message err)) r e) as Hf.
      destruct (fail (error_string (e_message err)) r e) as [r1 e1].
      cbn [fst snd] in *. now rewrite Hf.
    + rewrite Hrun. apply now_stop.
Qed.

(** *** [ensure] and [meta] on another uid *)

Variable uid : string.

Lemma meta_other u w :
  u <> uid -> apart id u = true -> others_apart uid id w ->
  runs (meta u w).2 !! uid = runs w !! uid
  /\ env (meta u w).2 = env w
  /\ others_apart uid id (meta u w).2.
Proof.
  intros Hu Ha Ho. unfold meta. destruct (runs w !! u) eqn:E; [now repeat split|].
  destruct (kv_get (env w) (run_key u)); [|now repeat split].
  cbn [snd runs env]. split; [now apply lookup_insert_ne|].
  split; [reflexivity|].
  intros u' r' Hu' Hr'. cbn [runs] in Hr'.
  destruct (decide (u' = u)) as [->|Hne].
  - rewrite lookup_insert_eq in Hr'. injection Hr' as <-. exact Ha.
  - rewrite lookup_insert_ne in Hr' by congruence. now apply (Ho u').
Qed.

Lemma ensure_other u w :
  u <> uid -> apart id u = true -> others_apart uid id w ->
  runs (ensure u w).2 !! uid = runs w !! uid
  /\ others_apart uid id (ensure u w).2
  /\ apart id (rid (ensure u w).1) = true.
Proof.
  intros Hu Ha Ho.
  destruct (meta_other u w Hu Ha Ho) as (Hr & He & Ho').
  pose proof (ensure_lookup u w) as Hl.
  unfold ensure in *. destruct (meta u w) as [[r|] w1] eqn:E; cbn [fst snd] in *.
  - split; [exact Hr|]. split; [exact Ho'|]. now apply (Ho' u r).
  - cbn [runs]. split; [now rewrite lookup_insert_ne|].
    split; [|exact Ha].
    intros u' r' Hu' Hr'. cbn [runs] in Hr'.
    destruct (decide (u' = u)) as [->|Hne].
    + rewrite lookup_insert_eq in Hr'. injection Hr' as <-. exact Ha.
    + rewrite lookup_insert_ne in Hr' by congruence. now apply (Ho' u').
Qed.

(** A write of the run of another uid. *)
Lemma others_apart_insert u r w runs' e' :
  u <> uid -> apart id (rid r) = true -> others_apart uid id w ->
  runs' = <[u := r]> (runs w) ->
  others_apart uid id (mkWorld runs' e').
Proof.
  intros Hu Ha Ho -> u' r' Hu' Hr'. cbn [runs] in Hr'.
  destruct (decide (u' = u)) as [->|Hne].
  - rewrite lookup_insert_eq in Hr'. injection Hr' as <-. exact Ha.
  - rewrite lookup_insert_ne in Hr' by congruence. now apply (Ho u').
Qed.

(** A write of the run of [uid] itself. *)
Lemma others_apart_own r w e' :
  others_apart uid id w ->
  others_apart uid id (mkWorld (<[uid := r]> (runs w)) e').
Proof.
  intros Ho u' r' Hu' Hr'. cbn [runs] in Hr'.
  rewrite lookup_insert_ne in Hr' by congruence. now apply (Ho u').
Qed.

(** *** An operation on the run of another uid *)

Lemma foreign_on_run f u w :
  u <> uid ->
  (forall r e, seq_step r e (f r e) /\ now (f r e).2 = now e) ->
  others_apart uid id w ->
  runs (on_run u f w) !! uid = runs w !! uid
  /\ rows_kept id t0 (env w) (env (on_run u f w))
  /\ others_apart uid id (on_run u f w).
Proof.
  intros Hu Hf Ho. unfold on_run. destruct (runs w !! u) as [r|] eqn:E.
  - destruct (Hf r (env w)) as [Hs Hn].
    pose proof (Ho u r Hu E) as Ha.
    destruct (seq_step_rows r (env w) _ Ha Hs Hn) as [Hk Hrid].
    unfold store. cbn [runs env]. split; [now apply lookup_insert_ne|].
    split; [exact Hk|].
    apply (others_apart_insert u (f r (env w)).1 w); try assumption; [|reflexivity].
    now rewrite Hrid.
  - split; [reflexivity|]. split; [apply rows_kept_refl|exact Ho].
Qed.

(** *** [handleMessage], by what it does *)

Lemma handleMessage_cases u ws msg w r :
  runs w !! u = Some r ->
  let w' := world_of (handleMessage u ws msg w) in
  (runs w' = runs w /\ kv (env w') = kv (env w) /\ now (env w') = now (env w))
  \/ (type_is "stop" msg = true /\ m_rid msg = Some (rid r)
      /\ w' = store u (stop r (env w)) w)
  \/ (exists msgRid r' e',
        type_is "begin" msg = true /\ m_rid msg = Some msgRid
        /\ starts_run r msgRid = true
        /\ rid r' = msgRid /\ deltas_kept (env w) e' /\ now e' = now (env w)
        /\ w' = store u (r', e') w).
Proof.
  intros Hr. cbv zeta. unfold handleMessage. rewrite (ensure_found _ _ _ Hr).
  destruct (type_is "stop" msg) eqn:Hs.
  { destruct (m_rid msg) as [mr|] eqn:Hm; [|now left].
    destruct (String.eqb_spec mr (rid r)) as [->|Hne]; [|now left].
    right. left. now repeat split. }
  destruct (type_is "begin" msg) eqn:Hb; cbn [negb]; [|now left].
  destruct (m_rid msg) as [msgRid|] eqn:Hm; [|now left].
  destruct (m_apiKey msg) as [apiKey|]; [|now left].
  destruct (body_of msg) as [body|]; [|now left].
  destruct (_ || _)%bool; [now left|].
  destruct (Sanitize.sanitizeMessages (b_messages body)) as [messages|];
    [|now left].
  destruct (is_running r && negb (String.eqb msgRid (rid r)))%bool eqn:Hbusy;
    [now left|].
  destruct (String.eqb msgRid (rid r)
            && negb match phase r with Idle => true | _ => false end)%bool
    eqn:Hrep.
  { left. cbn [world_of runs env]. rewrite replay_eq. now repeat split. }
  right. right. cbv zeta. cbn [world_of].
  match goal with
  | |- context [store u (?r1, ?e1) w] => exists msgRid, r1, e1
  end.
  split; [reflexivity|]. split; [reflexivity|].
  split; [unfold starts_run; now rewrite Hbusy, Hrep|].
  split; [reflexivity|]. split; [|split; [|reflexivity]].
  - intros k Hk. unfold beginStream_call, saveSnapshot, kv_set, KV.set, KV.set_ttl.
    cbn. rewrite !lookup_insert_ne; [reflexivity| |].
    + intros <-. now rewrite is_delta_key_prompt_key in Hk.
    + intros <-. now rewrite is_delta_key_run_key in Hk.
  - reflexivity.
Qed.


Lemma harmless_message ws msg w r :
  harmless id msg = true ->
  runs w !! uid = Some r -> rid r = id -> phase r <> Idle ->
  let w' := world_of (handleMessage uid ws msg w) in
  runs w' = runs w /\ kv (env w') = kv (env w) /\ now (env w') = now (env w).
Proof.
  intros Hh Hr Hid Hph. cbv zeta.
  destruct (handleMessage_cases uid ws msg w r Hr)
    as [H|[(Hs & Hm & _)|(msgRid & r' & e' & Hb & Hm & Hst & _)]];
    [exact H| |]; exfalso; unfold harmless, rid_is in Hh; rewrite Hm in Hh.
  - rewrite Hs, Hid, String.eqb_refl in Hh. discriminate.
  - rewrite Hb in Hh. cbn [negb orb] in Hh.
    apply andb_true_iff in Hh as [_ Hh]. apply String.eqb_eq in Hh. subst msgRid.
    unfold starts_run in Hst. rewrite Hid, String.eqb_refl in Hst.
    destruct (phase r); try contradiction;
      now rewrite andb_false_r in Hst.
Qed.

Lemma foreign_message u ws msg w :
  u <> uid -> apart id u = true -> rid_apart id msg = true ->
  others_apart uid id w ->
  let w' := world_of (handleMessage u ws msg w) in
  runs w' !! uid = runs w !! uid
  /\ rows_kept id t0 (env w) (env w')
  /\ others_apart uid id w'.
Proof.
  intros Hu Ha Hm Ho. cbv zeta. rewrite handleMessage_ensure.
  destruct (ensure_other u w Hu Ha Ho) as (Hr1 & Ho1 & Ha1).
  pose proof (ensure_lookup u w) as Hl. pose proof (ensure_env u w) as He.
  destruct (ensure u w) as [r1 w1]. cbn [fst snd] in *.
  rewrite <- Hr1, <- He.
  destruct (handleMessage_cases u ws msg w1 r1 Hl)
    as [(H1 & H2 & H3)|[(Hs & Hrid & ->)|(msgRid & r' & e' & Hb & Hrid & Hst & Hr' & Hk & Hn & ->)]].
  - rewrite H1. split; [reflexivity|]. split.
    + apply kv_eq_rows; [exact H2|lia].
    + intros u' r' Hu' Hr'. rewrite H1 in Hr'. now apply (Ho1 u').
  - destruct (seq_step_rows r1 (env w1) _ Ha1 (stop_seq_step r1 (env w1))
                (now_stop r1 (env w1))) as [Hk Hrid'].
    unfold store. cbn [runs env]. split; [now apply lookup_insert_ne|].
    split; [exact Hk|].
    apply (others_apart_insert u (stop r1 (env w1)).1 w1); try assumption;
      [|reflexivity].
    now rewrite Hrid'.
  - unfold store. cbn [runs env fst snd]. split; [now apply lookup_insert_ne|].
    split; [now apply deltas_kept_rows|].
    apply (others_apart_insert u r' w1); try assumption; [|reflexivity].
    unfold rid_apart in Hm. rewrite Hrid in Hm. now rewrite Hr'.
Qed.

(** *** The sweep *)

Lemma swept_keeps t r : swept t r = Some r -> overdue t r = false.
Proof.
  unfold swept, overdue. destruct (is_running r) eqn:E; [|reflexivity].
  cbn [andb]. destruct (_ && _)%bool; [|reflexivity].
  intros [= H]. apply is_running_true in E. rewrite <- H in E. discriminate.
Qed.

Lemma sweep_bystander (l : list (string * Run)) : forall w r,
  NoDup l.*1 ->
  (forall k r', (k, r') ∈ l -> runs w !! k = Some r') ->
  runs w !! uid = Some r ->
  swept (now (env w)) r = Some r ->
  others_apart uid id w ->
  let w' := fold_left sweep_one l w in
  runs w' !! uid = Some r
  /\ rows_kept id t0 (env w) (env w')
  /\ others_apart uid id w'.
Proof.
  induction l as [|[k r'] l IH]; intros w r Hnd Hl Hr Hsw Ho; cbn [fold_left].
  - split; [exact Hr|]. split; [apply rows_kept_refl|exact Ho].
  - cbn [fmap list_fmap fst] in Hnd. apply NoDup_cons in Hnd as [Hk Hnd].
    assert (Hkr : runs w !! k = Some r') by (apply Hl; now left).
    assert (Hl' : forall k0 r0, (k0, r0) ∈ l ->
                    runs (sweep_one w (k, r')) !! k0 = Some r0).
    { intros k0 r0 Hin. rewrite sweep_one_other.
      - apply Hl. now right.
      - intros ->. apply Hk. apply list_elem_of_fmap. now exists (k, r0). }
    assert (H1 : runs (sweep_one w (k, r')) !! uid = Some r
                 /\ rows_kept id t0 (env w) (env (sweep_one w (k, r')))
                 /\ others_apart uid id (sweep_one w (k, r'))).
    { destruct (decide (k = uid)) as [->|Hne].
      - assert (r' = r) as -> by congruence.
        split; [now rewrite sweep_one_self|].
        split.
        + rewrite sweep_one_env by now apply swept_keeps.
          apply rows_kept_refl.
        + intros u' r0 Hu' Hr0. rewrite sweep_one_other in Hr0 by exact Hu'.
          now apply (Ho u').
      - split; [rewrite sweep_one_other by congruence; exact Hr|].
        pose proof (Ho k r' Hne Hkr) as Ha.
        split.
        + unfold sweep_one. destruct (is_running r').
          * destruct (_ && _)%bool; [|apply rows_kept_refl].
            pose proof (seq_step_rows r' (env w) _ Ha
                          (fail_seq_step timeout_message r' (env w))
                          (now_fail timeout_message r' (env w))) as [Hrk _].
            now destruct (fail timeout_message r' (env w)).
          * destruct (_ =? _)%nat; apply rows_kept_refl.
        + intros u' r0 Hu' Hr0. destruct (decide (u' = k)) as [->|Hne'].
          * rewrite sweep_one_self in Hr0 by exact Hkr.
            unfold swept in Hr0. destruct (is_running r').
            -- injection Hr0 as <-. now destruct (overdue _ _).
            -- destruct (_ =? _)%nat; [discriminate|]. now injection Hr0 as <-.
          * rewrite sweep_one_other in Hr0 by exact Hne'. now apply (Ho u'). }
    destruct H1 as (Hr1 & Hk1 & Ho1).
    assert (Hsw1 : swept (now (env (sweep_one w (k, r')))) r = Some r)
      by now rewrite sweep_one_now.
    destruct (IH (sweep_one w (k, r')) r Hnd Hl' Hr1 Hsw1 Ho1) as (Hr2 & Hk2 & Ho2).
    split; [exact Hr2|]. split; [|exact Ho2].
    now apply rows_kept_trans with (env (sweep_one w (k, r'))).
Qed.

Lemma sweep_keeps w r :
  runs w !! uid = Some r ->
  swept (now (env w)) r = Some r ->
  others_apart uid id w ->
  runs (sweep w) !! uid = Some r
  /\ rows_kept id t0 (env w) (env (sweep w))
  /\ others_apart uid id (sweep w).
Proof.
  intros Hr Hsw Ho. unfold sweep. apply sweep_bystander; try assumption.
  - apply NoDup_fst_map_to_list.
  - intros k r' Hin. now apply elem_of_map_to_list in Hin.
Qed.

(** *** The clock *)

Lemma env_meta u w : env (meta u w).2 = env w.
Proof.
  unfold meta. destruct (runs w !! u); [reflexivity|].
  now destruct (kv_get (env w) (run_key u)).
Qed.

Lemma now_on_run f u w :
  (forall r e, now (f r e).2 = now e) ->
  now (env (on_run u f w)) = now (env w).
Proof.
  intros Hf. unfold on_run. destruct (runs w !! u); [|reflexivity]. apply Hf.
Qed.

Lemma now_handleMessage u ws msg w :
  now (env (world_of (handleMessage u ws msg w))) = now (env w).
Proof.
  rewrite handleMessage_ensure.
  pose proof (ensure_lookup u w) as Hl. pose proof (ensure_env u w) as He.
  destruct (ensure u w) as [r1 w1]. cbn [fst snd] in *. rewrite <- He.
  destruct (handleMessage_cases u ws msg w1 r1 Hl)
    as [(_ & _ & H)|[(_ & _ & ->)|(msgRid & r' & e' & _ & _ & _ & _ & _ & Hn & ->)]].
  - exact H.
  - unfold store. cbn [env]. apply now_stop.
  - exact Hn.
Qed.

Lemma now_step ev w : now (env (step w ev)) = now (env w) + elapsed [ev].
Proof.
  destruct ev as [u ws|u ws|u ws msg|u|u text images|u|u how|u| |dt];
    cbn [step elapsed]; rewrite ?Z.add_0_r.
  - unfold addSocket. pose proof (ensure_env u w) as He.
    destruct (ensure u w). cbn [snd env] in *. now rewrite He.
  - unfold removeSocket. now destruct (runs w !! u).
  - apply now_handleMessage.
  - unfold handlePoll. pose proof (env_meta u w) as He.
    destruct (meta u w) as [[r|] w1]; cbn [snd] in *; now rewrite He.
  - apply now_on_run. intros. apply now_queueDelta.
  - apply now_on_run. intros r e. destruct (flushTimer r); [apply now_flush|reflexivity].
  - apply now_on_run. intros. apply now_settle.
  - apply now_on_run. intros r e.
    destruct (_ && _)%bool; [apply now_fail|reflexivity].
  - unfold sweep.
    apply (sweep_fold (map_to_list (runs w)) w).
    + apply NoDup_fst_map_to_list.
    + intros k r Hin. now apply elem_of_map_to_list in Hin.
  - cbn. lia.
Qed.

Lemma now_run_events evs w :
  now (env (run_events evs w)) = now (env w) + elapsed evs.
Proof.
  revert w. induction evs as [|ev evs IH]; intros w; [cbn; lia|].
  change (run_events (ev :: evs) w) with (run_events evs (step w ev)).
  rewrite IH, now_step. destruct ev; cbn [elapsed]; lia.
Qed.

(** *** A bystander event *)

Lemma same_sockets r : with_sockets (sockets r) r = r.
Proof. now destruct r. Qed.

Lemma bystander_step ev w r :
  bystander uid id ev = true ->
  runs w !! uid = Some r -> rid r = id -> phase r <> Idle ->
  others_apart uid id w ->
  (ev = ESweep -> swept (now (env w)) r = Some r) ->
  (exists l, runs (step w ev) !! uid = Some (with_sockets l r))
  /\ rows_kept id t0 (env w) (env (step w ev))
  /\ others_apart uid id (step w ev).
Proof.
  intros Hb Hr Hid Hph Ho Hsw.
  destruct ev as [u ws|u ws|u ws msg|u|u text images|u|u how|u| |dt];
    cbn [bystander] in Hb; cbn [step].
  - destruct (String.eqb_spec u uid) as [->|Hne]; cbn [orb] in Hb.
    + unfold addSocket. rewrite (ensure_found _ _ _ Hr). cbn [runs env].
      split; [eexists; apply lookup_insert_eq|].
      split; [apply rows_kept_refl|now apply others_apart_own].
    + destruct (ensure_other u w Hne Hb Ho) as (Hr1 & Ho1 & Ha1).
      pose proof (ensure_env u w) as He.
      unfold addSocket. destruct (ensure u w) as [r1 w1]. cbn [fst snd] in *.
      cbn [runs env]. rewrite lookup_insert_ne by congruence. rewrite Hr1, He.
      split; [exists (sockets r); now rewrite same_sockets|].
      split; [apply rows_kept_refl|].
      now apply (others_apart_insert u (with_sockets (set_add ws (sockets r1)) r1) w1).
  - unfold removeSocket.
    destruct (String.eqb_spec u uid) as [->|Hne]; cbn [orb] in Hb.
    + rewrite Hr. cbn [runs env].
      split; [eexists; apply lookup_insert_eq|].
      split; [apply rows_kept_refl|now apply others_apart_own].
    + destruct (runs w !! u) as [r1|] eqn:E; cbn [runs env].
      * rewrite lookup_insert_ne by congruence.
        split; [exists (sockets r); now rewrite same_sockets|].
        split; [apply rows_kept_refl|].
        apply (others_apart_insert u (with_sockets (set_delete ws (sockets r1)) r1) w);
          try assumption; [|reflexivity].
        now apply (Ho u r1).
      * split; [exists (sockets r); now rewrite same_sockets|].
        split; [apply rows_kept_refl|exact Ho].
  - destruct (String.eqb_spec u uid) as [->|Hne].
    + destruct (harmless_message ws msg w r Hb Hr Hid Hph) as (H1 & H2 & H3).
      rewrite H1. split; [exists (sockets r); now rewrite same_sockets|].
      split; [apply kv_eq_rows; [exact H2|lia]|].
      intros u' r' Hu' Hr'. rewrite H1 in Hr'. now apply (Ho u').
    + apply andb_true_iff in Hb as [Ha Hm].
      destruct (foreign_message u ws msg w Hne Ha Hm Ho) as (H1 & H2 & H3).
      rewrite H1. split; [exists (sockets r); now rewrite same_sockets|].
      split; assumption.
  - unfold handlePoll.
    destruct (String.eqb_spec u uid) as [->|Hne]; cbn [orb] in Hb.
    + rewrite (meta_found _ _ _ Hr). cbn [snd].
      split; [exists (sockets r); now rewrite same_sockets|].
      split; [apply rows_kept_refl|exact Ho].
    + destruct (meta_other u w Hne Hb Ho) as (Hr1 & He & Ho1).
      destruct (meta u w) as [[r1|] w1]; cbn [snd] in *; rewrite Hr1, He;
        (split; [exists (sockets r); now rewrite same_sockets|]);
        (split; [apply rows_kept_refl|exact Ho1]).
  - apply andb_true_iff in Hb as [Hne Ha]. apply negb_true_iff in Hne.
    apply String.eqb_neq in Hne.
    destruct (foreign_on_run (queueDelta text images) u w Hne) as (H1 & H2 & H3);
      [intros; split; [apply queueDelta_seq_step|apply now_queueDelta]|exact Ho|].
    rewrite H1. split; [exists (sockets r); now rewrite same_sockets|].
    split; assumption.
  - apply andb_true_iff in Hb as [Hne Ha]. apply negb_true_iff in Hne.
    apply String.eqb_neq in Hne.
    destruct (foreign_on_run
                (fun r e => if flushTimer r then flush false r e else (r, e))
                u w Hne) as (H1 & H2 & H3); [|exact Ho|].
    { intros r0 e0. destruct (flushTimer r0).
      - split; [apply flush_seq_step|apply now_flush].
      - split; [apply seq_step_refl|reflexivity]. }
    rewrite H1. split; [exists (sockets r); now rewrite same_sockets|].
    split; assumption.
  - apply andb_true_iff in Hb as [Hne Ha]. apply negb_true_iff in Hne.
    apply String.eqb_neq in Hne.
    destruct (foreign_on_run (beginStream_settle how) u w Hne) as (H1 & H2 & H3);
      [intros; split; [apply settle_seq_step|apply now_settle]|exact Ho|].
    rewrite H1. split; [exists (sockets r); now rewrite same_sockets|].
    split; assumption.
  - apply andb_true_iff in Hb as [Hne Ha]. apply negb_true_iff in Hne.
    apply String.eqb_neq in Hne.
    destruct (foreign_on_run
                (fun r e => if (timeoutTimer r && is_running r)%bool
                            then fail timeout_message r e else (r, e))
                u w Hne) as (H1 & H2 & H3); [|exact Ho|].
    { intros r0 e0. destruct (_ && _)%bool.
      - split; [apply fail_seq_step|apply now_fail].
      - split; [apply seq_step_refl|reflexivity]. }
    rewrite H1. split; [exists (sockets r); now rewrite same_sockets|].
    split; assumption.
  - destruct (sweep_keeps w r Hr (Hsw eq_refl) Ho) as (H1 & H2 & H3).
    rewrite H1. split; [exists (sockets r); now rewrite same_sockets|].
    split; assumption.
  - cbn [runs env]. apply Z.leb_le in Hb.
    split; [exists (sockets r); now rewrite same_sockets|].
    split; [apply kv_eq_rows; [reflexivity|cbn; lia]|exact Ho].
Qed.


(** *** The run while bystanders pass *)

Lemma bystander_running ev T I w :
  bystander uid id ev = true ->
  running_world uid id t0 T I w -> others_apart uid id w ->
  now (env w) <= t0 + MAX_RUN_MS ->
  running_world uid id t0 T I (step w ev) /\ others_apart uid id (step w ev).
Proof.
  intros Hb (r & Hr & Hph & Hst & Hinv) Ho Hn.
  assert (Hsw : swept (now (env w)) r = Some r).
  { unfold swept, overdue. rewrite (proj2 (is_running_true r) Hph), Hst.
    cbn [andb]. destruct (Z.ltb_spec MAX_RUN_MS (now (env w) - t0)); [lia|].
    now rewrite andb_false_r. }
  destruct (bystander_step ev w r Hb Hr (proj1 Hinv)) as ((l & Hr') & Hk & Ho');
    [congruence|exact Ho|intros _; exact Hsw|].
  split; [|exact Ho']. exists (with_sockets l r).
  split; [exact Hr'|]. split; [exact Hph|]. split; [exact Hst|].
  apply (RunInv_rows_kept T I _ (env w)); [exact Hk|].
  now apply (RunInv_ext id t0 T I r).
Qed.

Lemma bystander_done ev T I w :
  bystander uid id ev = true ->
  done_world uid id t0 T I w -> others_apart uid id w ->
  held uid [ev] w = true ->
  done_world uid id t0 T I (step w ev) /\ others_apart uid id (step w ev).
Proof.
  intros Hb (r & Hr & Hph & Herr & Hp & Hpi & Hinv) Ho Hh.
  assert (Hsw : ev = ESweep -> swept (now (env w)) r = Some r).
  { intros ->. cbn [held] in Hh. rewrite Hr, andb_true_r in Hh.
    unfold swept, is_running. rewrite Hph.
    apply negb_true_iff in Hh. now rewrite Hh. }
  destruct (bystander_step ev w r Hb Hr (proj1 Hinv)) as ((l & Hr') & Hk & Ho');
    [congruence|exact Ho|exact Hsw|].
  split; [|exact Ho']. exists (with_sockets l r).
  split; [exact Hr'|]. repeat (split; [assumption|]).
  apply (RunInv_rows_kept T I _ (env w)); [exact Hk|].
  now apply (RunInv_ext id t0 T I r).
Qed.

(** *** The events of the run itself *)

Lemma startedAt_flush force r e : startedAt (flush force r e).1 = startedAt r.
Proof. rewrite flush_eq. now destruct (has_pending r). Qed.

Lemma startedAt_queueDelta text images r e :
  startedAt (queueDelta text images r e).1 = startedAt r.
Proof.
  unfold queueDelta.
  destruct (Str.is_empty text && no_images images)%bool; [reflexivity|].
  destruct (_ || _)%bool.
  - rewrite startedAt_flush. now destruct (Str.is_empty text), images.
  - destruct (negb _); cbn [fst]; now destruct (Str.is_empty text), images.
Qed.

Lemma on_run_own f w r :
  runs w !! uid = Some r ->
  others_apart uid id w ->
  runs (on_run uid f w) !! uid = Some (f r (env w)).1
  /\ env (on_run uid f w) = (f r (env w)).2
  /\ others_apart uid id (on_run uid f w).
Proof.
  intros Hr Ho. unfold on_run. rewrite Hr. unfold store. cbn [runs env].
  split; [apply lookup_insert_eq|]. split; [reflexivity|].
  now apply others_apart_own.
Qed.

Lemma own_delta text images T I w :
  running_world uid id t0 T I w -> others_apart uid id w ->
  running_world uid id t0 (T ++ text) (I ++ default [] images)
    (step w (EDelta uid text images))
  /\ others_apart uid id (step w (EDelta uid text images)).
Proof.
  intros (r & Hr & Hph & Hst & Hinv) Ho. cbn [step].
  destruct (on_run_own (queueDelta text images) w r Hr Ho) as (Hr' & He' & Ho').
  destruct (queueDelta_inv id t0 id_plain text images T I r (env w) Hinv)
    as (H & Hp & Hn).
  split; [|exact Ho']. unfold running_world. rewrite He'.
  exists (queueDelta text images r (env w)).1.
  split; [exact Hr'|]. split; [congruence|].
  split; [now rewrite startedAt_queueDelta|exact H].
Qed.

Lemma own_flush_timer T I w :
  running_world uid id t0 T I w -> others_apart uid id w ->
  running_world uid id t0 T I (step w (EFlushTimer uid))
  /\ others_apart uid id (step w (EFlushTimer uid)).
Proof.
  intros (r & Hr & Hph & Hst & Hinv) Ho. cbn [step].
  set (f := fun (r : Run) (e : Env) =>
              if flushTimer r then flush false r e else (r, e)).
  destruct (on_run_own f w r Hr Ho) as (Hr' & He' & Ho').
  split; [|exact Ho']. unfold running_world. rewrite He'.
  exists (f r (env w)).1.
  split; [exact Hr'|]. unfold f. destruct (flushTimer r).
  - destruct (flush_inv id t0 id_plain false T I r (env w) Hinv)
      as (H & Hp & _ & _ & _ & _ & Hn).
    split; [congruence|]. split; [now rewrite startedAt_flush|exact H].
  - cbn [fst snd]. split; [exact Hph|]. split; [exact Hst|exact Hinv].
Qed.

Lemma texts_of_cons ev evs :
  texts_of uid (ev :: evs) = texts_of uid [ev] ++ texts_of uid evs.
Proof.
  destruct ev; cbn [texts_of]; try reflexivity.
  destruct (String.eqb _ uid); [|reflexivity].
  now rewrite StrFacts.append_nil_r.
Qed.

Lemma images_of_cons ev evs :
  images_of uid (ev :: evs) = (images_of uid [ev] ++ images_of uid evs)%list.
Proof.
  destruct ev; cbn [images_of]; try reflexivity.
  destruct (String.eqb _ uid); [|reflexivity].
  now rewrite app_nil_r.
Qed.

Lemma elapsed_cons ev evs : elapsed (ev :: evs) = elapsed [ev] + elapsed evs.
Proof. destruct ev; cbn [elapsed]; lia. Qed.

Lemma in_flight_step ev T I w :
  in_flight uid id ev = true ->
  running_world uid id t0 T I w -> others_apart uid id w ->
  now (env w) <= t0 + MAX_RUN_MS ->
  running_world uid id t0 (T ++ texts_of uid [ev]) (I ++ images_of uid [ev])
    (step w ev)
  /\ others_apart uid id (step w ev).
Proof.
  intros Hev Hw Ho Hn.
  assert (Hby : bystander uid id ev = true ->
                texts_of uid [ev] = "" -> images_of uid [ev] = [] ->
                running_world uid id t0 (T ++ texts_of uid [ev])
                  (I ++ images_of uid [ev]) (step w ev)
                /\ others_apart uid id (step w ev)).
  { intros Hb -> ->. rewrite StrFacts.append_nil_r, app_nil_r.
    now apply bystander_running. }
  destruct ev as [u ws|u ws|u ws msg|u|u text images|u|u how|u| |dt];
    try (apply Hby; [exact Hev|reflexivity|reflexivity]);
    cbn [in_flight] in Hev;
    destruct (String.eqb u uid) eqn:E; cbn [orb] in Hev.
  - apply String.eqb_eq in E. subst u. cbn [texts_of images_of].
    rewrite String.eqb_refl, StrFacts.append_nil_r, app_nil_r.
    now apply own_delta.
  - apply Hby; cbn [bystander texts_of images_of]; now rewrite E.
  - apply String.eqb_eq in E. subst u. cbn [texts_of images_of].
    rewrite StrFacts.append_nil_r, app_nil_r. now apply own_flush_timer.
  - apply Hby; cbn [bystander texts_of images_of]; now rewrite ?E.
Qed.

Lemma in_flight_nonneg ev : in_flight uid id ev = true -> 0 <= elapsed [ev].
Proof.
  destruct ev; cbn [elapsed]; try lia. cbn [in_flight bystander].
  intros H. apply Z.leb_le in H. lia.
Qed.

Lemma in_flight_elapsed evs :
  forallb (in_flight uid id) evs = true -> 0 <= elapsed evs.
Proof.
  induction evs as [|ev evs IH]; [cbn; lia|].
  cbn [forallb]. intros H. apply andb_true_iff in H as [Hev H].
  rewrite elapsed_cons. pose proof (in_flight_nonneg ev Hev).
  specialize (IH H). lia.
Qed.

Lemma in_flight_run evs T I w :
  forallb (in_flight uid id) evs = true ->
  running_world uid id t0 T I w -> others_apart uid id w ->
  now (env w) + elapsed evs <= t0 + MAX_RUN_MS ->
  running_world uid id t0 (T ++ texts_of uid evs) (I ++ images_of uid evs)
    (run_events evs w)
  /\ others_apart uid id (run_events evs w).
Proof.
  revert T I w. induction evs as [|ev evs IH]; intros T I w Hall Hw Ho Hn.
  - cbn. rewrite StrFacts.append_nil_r, app_nil_r. now split.
  - cbn [forallb] in Hall. apply andb_true_iff in Hall as [Hev Hall].
    rewrite elapsed_cons in Hn.
    pose proof (in_flight_nonneg ev Hev) as H0.
    pose proof (in_flight_elapsed evs Hall) as H1.
    destruct (in_flight_step ev T I w Hev Hw Ho) as [Hw1 Ho1]; [lia|].
    rewrite texts_of_cons, images_of_cons.
    rewrite <- StrFacts.append_assoc, app_assoc.
    change (run_events (ev :: evs) w) with (run_events evs (step w ev)).
    apply IH; try assumption. rewrite now_step. lia.
Qed.

Lemma bystander_run evs T I w :
  forallb (bystander uid id) evs = true ->
  done_world uid id t0 T I w -> others_apart uid id w ->
  held uid evs w = true ->
  done_world uid id t0 T I (run_events evs w).
Proof.
  revert w. induction evs as [|ev evs IH]; intros w Hall Hw Ho Hh; [exact Hw|].
  cbn [forallb] in Hall. apply andb_true_iff in Hall as [Hev Hall].
  cbn [held] in Hh. apply andb_true_iff in Hh as [Hh1 Hh2].
  destruct (bystander_done ev T I w Hev Hw Ho) as [Hw1 Ho1].
  { cbn [held]. now rewrite Hh1. }
  change (run_events (ev :: evs) w) with (run_events evs (step w ev)).
  now apply IH.
Qed.

(** The provider call returns. *)
Lemma settle_step T I w :
  running_world uid id t0 T I w -> others_apart uid id w ->
  done_world uid id t0 T I (step w (ESettle uid Resolved))
  /\ others_apart uid id (step w (ESettle uid Resolved)).
Proof.
  intros (r & Hr & Hph & Hst & Hinv) Ho. cbn [step].
  destruct (on_run_own (beginStream_settle Resolved) w r Hr Ho) as (Hr' & He' & Ho').
  assert (Hs : beginStream_settle Resolved r (env w) = stop r (env w)).
  { unfold beginStream_settle. now rewrite (proj2 (is_running_true r) Hph). }
  rewrite Hs in Hr', He'.
  destruct (stop_inv id t0 id_plain T I r (env w) Hph Hinv)
    as (H & H1 & H2 & H3 & H4 & Hn).
  split; [|exact Ho']. unfold done_world. rewrite He'.
  exists (stop r (env w)).1. repeat (split; [assumption|]). exact H.
Qed.

End Apart.

(** The run of a [begin] keeps the other runs apart. *)
Lemma begin_others uid ws msg id w :
  others_apart uid id w ->
  others_apart uid id (step w (EMessage uid ws msg)).
Proof.
  intros Ho. cbn [step]. rewrite handleMessage_ensure.
  pose proof (ensure_lookup uid w) as Hl.
  assert (Ho1 : others_apart uid id (ensure uid w).2).
  { intros u r Hu Hr. apply (Ho u r Hu). revert Hr.
    unfold ensure, meta. destruct (runs w !! uid); [trivial|].
    destruct (kv_get (env w) (run_key uid)); cbn [snd runs];
      now rewrite lookup_insert_ne by congruence. }
  destruct (ensure uid w) as [r1 w1]. cbn [fst snd] in *.
  destruct (handleMessage_cases uid ws msg w1 r1 Hl)
    as [(H1 & _)|[(_ & _ & ->)|(msgRid & r' & e' & _ & _ & _ & _ & _ & _ & ->)]].
  - intros u r Hu Hr. rewrite H1 in Hr. now apply (Ho1 u).
  - unfold store. now apply others_apart_own.
  - unfold store. now apply others_apart_own.
Qed.

End TrafficFacts.

Section CompletionClaims.
Import Coordinator CoordinatorFacts RunFacts TrafficFacts.

(** C7, as amended. Take a [begin] that names an adapter and starts a run
    of [id] for [uid], where [id] has none of the characters [*], [?], [[]
    and no NUL, no row that has not expired is listed under the prefix of
    [id], and the run of every other uid has a [rid] apart from [id] (it is
    not [id] and does not start with [id] followed by a colon). While the
    provider call is in flight ([evs]), let there be any calls of the run's
    [onDelta], firings of its flush timer, and bystander events: sockets of
    the uid that open and close, polls of the uid, messages on its sockets
    that neither stop the run nor begin another one, any events of other
    uids that are apart from [id] (their messages carrying a [rid] apart
    from [id]), sweeps, and time that passes, less than [MAX_RUN_MS]. Let
    the provider call return, and let more bystander events follow
    ([later]), every sweep among them finding a socket of the uid attached,
    all less than the time to live of the store after the [begin]. Then the
    persisted deltas are numbered 0, 1, 2, ... in order, and [handlePoll]
    returns [done: true], [error: null], phase [done], the text of all the
    calls of the run's [onDelta] in order, which is the text of the
    persisted deltas in order of [seq], their images, and as [seq] the
    number of the last delta. *)
Theorem completed_run_polls_its_text (uid : string) (ws : nat) (msg : Msg)
    (id : string) (w : World) (evs later : list Event) :
  KV.plain id = true ->
  KV.nul_free id = true ->
  accepted msg = true ->
  adapter_named msg = true ->
  m_rid msg = Some id ->
  starts_run (ensure uid w).1 id = true ->
  kv_list (env w) (delta_prefix id) = [] ->
  others_apart uid id w ->
  forallb (in_flight uid id) evs = true ->
  forallb (bystander uid id) later = true ->
  elapsed evs < MAX_RUN_MS ->
  elapsed evs + elapsed later < KV.TTL_MS ->
  held uid later
    (run_events (EMessage uid ws msg :: evs ++ [ESettle uid Resolved]) w) = true ->
  let w' := run_events
              (EMessage uid ws msg :: evs ++ ESettle uid Resolved :: later) w in
  exists ds,
    getDeltas id (env w') = ds
    /\ (forall i d, ds !! i = Some d -> d_seq d = Z.of_nat i)
    /\ join_text ds = texts_of uid evs
    /\ (handlePoll uid w').1
       = {| p_rid := Some id;
            p_seq := Z.of_nat (length ds) - 1;
            p_phase := Done;
            p_done := true;
            p_error := None;
            p_text := texts_of uid evs;
            p_images := images_of uid evs |}.
Proof.
  intros Hplain Hnul Ha _ Hrid Hstart Hfresh Ho Hevs Hlater Hmax Htime Hheld.
  cbv zeta.
  change (run_events (EMessage uid ws msg :: evs ++ ESettle uid Resolved :: later) w)
    with (run_events (evs ++ ESettle uid Resolved :: later)
            (step w (EMessage uid ws msg))).
  change (run_events (EMessage uid ws msg :: evs ++ [ESettle uid Resolved]) w)
    with (run_events (evs ++ [ESettle uid Resolved])
            (step w (EMessage uid ws msg))) in Hheld.
  unfold run_events in *. rewrite fold_left_app in *. cbn [fold_left] in *.
  fold (run_events evs (step w (EMessage uid ws msg))) in *.
  set (w1 := step w (EMessage uid ws msg)) in *.
  set (w2 := run_events evs w1) in *.
  set (w3 := step w2 (ESettle uid Resolved)) in *.
  fold (run_events later w3).
  destruct (begin_starts uid ws msg id w Hplain Ha Hrid Hstart Hfresh) as [H1 N1].
  fold w1 in H1, N1.
  pose proof (begin_others uid ws msg id w Ho) as O1. fold w1 in O1.
  destruct (in_flight_run id (now (env w)) Hplain Hnul uid evs _ _ w1 Hevs H1 O1)
    as [H2 O2]; [lia|]. fold w2 in H2, O2.
  destruct (settle_step id (now (env w)) Hplain uid _ _ w2 H2 O2) as [H3 O3].
  fold w3 in H3, O3.
  pose proof (bystander_run id (now (env w)) Hplain Hnul uid later _ _ w3
                Hlater H3 O3 Hheld) as H4.
  rewrite StrFacts.append_nil_l, app_nil_l in H4.
  apply (poll_done uid id (now (env w)) _ _ _ Hplain H4).
  rewrite now_run_events. unfold w3. rewrite now_step. unfold w2.
  rewrite now_run_events, N1. cbn [elapsed]. lia.
Qed.

Lemma completed_run_polls_its_text_witness :
  exists ds,
    getDeltas "r1"
      (env (run_events
              (EMessage "u1" 1%nat (Examples.begin "r1" None)
               :: Examples.crowd_events ++ ESettle "u1" Resolved :: Examples.late_events)
              initial)) = ds
    /\ (forall i d, ds !! i = Some d -> d_seq d = Z.of_nat i)
    /\ join_text ds = "hello"
    /\ (handlePoll "u1"
          (run_events
             (EMessage "u1" 1%nat (Examples.begin "r1" None)
              :: Examples.crowd_events ++ ESettle "u1" Resolved :: Examples.late_events)
             initial)).1
       = {| p_rid := Some "r1";
            p_seq := Z.of_nat (length ds) - 1;
            p_phase := Done;
            p_done := true;
            p_error := None;
            p_text := "hello";
            p_images := [] |}.
Proof.
  apply (completed_run_polls_its_text "u1" 1%nat (Examples.begin "r1" None) "r1"
           initial Examples.crowd_events Examples.late_events).
  - reflexivity.
  - reflexivity.
  - reflexivity.
  - reflexivity.
  - reflexivity.
  - reflexivity.
  - reflexivity.
  - intros u r _ Hr. cbn in Hr. now rewrite lookup_empty in Hr.
  - reflexivity.
  - reflexivity.
  - reflexivity.
  - reflexivity.
  - vm_compute. reflexivity.
Defined.

(** C7 as stated fails in two ways. Twenty minutes after run [r1] ended with
    the text [hello], its rows have expired and the poll returns
    [done: true] with an empty text. And when user [u2] runs a run with the
    [rid] that [u1] used, the poll of [u2] returns [xlo] where its provider
    delivered [x]: the second delta of [u1] is still listed. *)
Lemma poll_text_differs :
  (handlePoll "u1" Examples.w_late).1
  = {| p_rid := Some "r1"; p_seq := 0; p_phase := Done; p_done := true;
       p_error := None; p_text := ""; p_images := [] |}
  /\ (handlePoll "u2" Examples.w_shared).1
     = {| p_rid := Some "r1"; p_seq := 0; p_phase := Done; p_done := true;
          p_error := None; p_text := "xlo"; p_images := [] |}.
Proof. split; vm_compute; reflexivity. Qed.

End CompletionClaims.


(** ** Sanitizing twice *)

Module SanitizeTwice.
Import Sanitize SanitizeFacts.

Lemma keep_part_filtered ps r p :
  filter_parts ps = Some r -> In p r -> keep_part p = Some true.
Proof.
  revert r. induction ps as [|q ps IH]; simpl; intros r H Hin.
  - injection H as <-. contradiction.
  - destruct (keep_part q) as [b|] eqn:Ek; [|discriminate].
    destruct (filter_parts ps) as [r'|]; [|discriminate].
    injection H as <-. destruct b.
    + destruct Hin as [<-|Hin]; [exact Ek|now apply (IH r')].
    + now apply (IH r').
Qed.

Lemma filter_parts_all_kept r :
  (forall p, In p r -> keep_part p = Some true) -> filter_parts r = Some r.
Proof.
  induction r as [|p r IH]; intros H; simpl; [reflexivity|].
  rewrite (H p (or_introl eq_refl)), IH; [reflexivity|].
  intros q Hq. apply H. now right.
Qed.

Lemma sanitize_content_twice c c' :
  sanitize_content c = Some c' -> sanitize_content c' = Some c'.
Proof.
  destruct c as [| |b|z|s|ps|fs]; simpl; try (intros [= <-]; reflexivity).
  - intros [= <-]. simpl. destruct (Str.is_empty (Str.trim s)) eqn:E.
    + reflexivity.
    + now rewrite E.
  - destruct (filter_parts ps) as [r|] eqn:Ef; [|discriminate].
    assert (Hk : forall p, In p r -> keep_part p = Some true).
    { intros p. now apply (keep_part_filtered ps). }
    destruct ((length r =? 0)%nat || negb (existsb is_text_part r))%bool eqn:Ec;
      intros [= <-]; simpl.
    + rewrite filter_parts_all_kept.
      * rewrite existsb_snoc. simpl. rewrite orb_true_r. simpl.
        destruct r; reflexivity.
      * intros p Hp. apply in_app_or in Hp as [Hp|[<-|[]]]; [now apply Hk|reflexivity].
    + rewrite (filter_parts_all_kept r Hk), Ec. reflexivity.
Qed.

Lemma assign_assign k v fs : Js.assign k v (Js.assign k v fs) = Js.assign k v fs.
Proof.
  induction fs as [|[k' v'] fs IH]; simpl.
  - now rewrite String.eqb_refl.
  - destruct (String.eqb k k') eqn:E; simpl.
    + now rewrite String.eqb_refl.
    + now rewrite E, IH.
Qed.

Lemma sanitize_message_twice m m' :
  sanitize_message m = Some m' -> sanitize_message m' = Some m'.
Proof.
  unfold sanitize_message.
  destruct (Js.prop m "content") as [c|]; [|discriminate].
  destruct (sanitize_content c) as [c'|] eqn:Es; [|discriminate].
  intros [= <-]. cbn [Js.prop Js.spread].
  rewrite lookup_assign_eq, (sanitize_content_twice c c' Es).
  now rewrite assign_assign.
Qed.

Lemma map_messages_twice ms out :
  map_messages ms = Some out -> map_messages out = Some out.
Proof.
  revert out. induction ms as [|m ms IH]; simpl; intros out H.
  - now injection H as <-.
  - destruct (sanitize_message m) as [m'|] eqn:Em; [|discriminate].
    destruct (map_messages ms) as [r|]; [|discriminate].
    injection H as <-. simpl.
    now rewrite (sanitize_message_twice m m' Em), (IH r eq_refl).
Qed.

End SanitizeTwice.

(** X19. [sanitizeMessages] is idempotent: whatever it returns, it returns
    unchanged when it is applied again, without throwing. *)
Theorem sanitize_is_idempotent (messages out : jsval) :
  Sanitize.sanitizeMessages messages = Some out ->
  Sanitize.sanitizeMessages out = Some out.
Proof.
  destruct messages as [| |b|z|s|ms|fs]; simpl; try (intros [= <-]; reflexivity).
  destruct (Sanitize.map_messages ms) as [r|] eqn:E; [|discriminate].
  intros [= <-]. simpl. now rewrite (SanitizeTwice.map_messages_twice ms r E).
Qed.

Lemma sanitize_is_idempotent_witness :
  Sanitize.sanitizeMessages
    (JArr [JObj [("content", JArr [JObj [("type", JStr "text"); ("text", JStr ".")]]);
                 ("role", JStr "user")]])
  = Some (JArr [JObj [("content", JArr [JObj [("type", JStr "text"); ("text", JStr ".")]]);
                      ("role", JStr "user")]]).
Proof.
  apply (sanitize_is_idempotent
           (JArr [JObj [("content", JArr [JObj [("type", JStr "text"); ("text", JStr " ")]]);
                        ("role", JStr "user")]])).
  reflexivity.
Defined.

(** ** The readers: lines and chunks *)

Module LinesFacts.
Import SSE Lines StrFacts SSEFacts.

Lemma split_lf_line l t :
  no_lf l = true ->
  split_lf (l ++ String LF t) = (l :: (split_lf t).1, (split_lf t).2).
Proof.
  induction l as [|c l IH]; intros H.
  - rewrite append_nil_l, split_lf_cons. now rewrite Ascii.eqb_refl.
  - cbn [no_lf] in H. apply andb_true_iff in H as [Hc Hl].
    apply negb_true_iff in Hc.
    rewrite append_cons, split_lf_cons, Hc, (IH Hl). reflexivity.
Qed.

Lemma split_lf_no_lf s :
  Forall (fun l => no_lf l = true) (split_lf s).1 /\ no_lf (split_lf s).2 = true.
Proof.
  induction s as [|c s [IH1 IH2]]; [split; [constructor|reflexivity]|].
  rewrite split_lf_cons. destruct (Ascii.eqb c LF) eqn:Ec; cbn [fst snd].
  - split; [now constructor|exact IH2].
  - destruct (split_lf s) as [[|l ls] rest]; cbn [fst snd] in *.
    + split; [constructor|]. cbn [no_lf]. now rewrite Ec, IH2.
    + split; [|exact IH2]. apply Forall_cons in IH1 as [Hl Hls].
      constructor; [|exact Hls]. cbn [no_lf]. now rewrite Ec, Hl.
Qed.

Lemma unsplit_split s : unsplit (split_lf s).1 (split_lf s).2 = s.
Proof.
  induction s as [|c s IH]; [reflexivity|].
  rewrite split_lf_cons. destruct (Ascii.eqb c LF) eqn:Ec; cbn [fst snd].
  - cbn [unsplit]. rewrite append_nil_l, IH. apply Ascii.eqb_eq in Ec. now subst c.
  - destruct (split_lf s) as [[|l ls] rest]; cbn [fst snd unsplit] in *.
    + now rewrite IH.
    + now rewrite append_cons, IH.
Qed.

Lemma split_unsplit ls rest :
  Forall (fun l => no_lf l = true) ls -> no_lf rest = true ->
  split_lf (unsplit ls rest) = (ls, rest).
Proof.
  intros Hls Hrest. induction Hls as [|l ls Hl _ IH]; cbn [unsplit].
  - clear -Hrest. induction rest as [|c rest IH]; [reflexivity|].
    cbn [no_lf] in Hrest. apply andb_true_iff in Hrest as [Hc Hr].
    apply negb_true_iff in Hc. rewrite split_lf_cons, Hc, (IH Hr). reflexivity.
  - rewrite (split_lf_line l _ Hl), IH. reflexivity.
Qed.

Section Google.
Variable JSON_parse : string -> option jsval.

Lemma google_part_buf st p : buf (google_part st p).1 = buf st.
Proof.
  unfold google_part. destruct (Js.prop p "thought") as [th|]; [|reflexivity].
  destruct (Js.truthy (opt_prop th "thought"));
    destruct (Js.truthy (opt_prop p "text")); cbn [fst];
    try destruct (_ && _)%bool; reflexivity.
Qed.

Lemma google_parts_buf ps : forall st, buf (google_parts st ps) = buf st.
Proof.
  induction ps as [|p ps IH]; intros st; [reflexivity|].
  cbn [google_parts]. pose proof (google_part_buf st p) as Hp.
  destruct (google_part st p) as [st' ok]. cbn [fst] in Hp.
  destruct ok; [now rewrite IH|exact Hp].
Qed.

Lemma google_line_buf st l : buf (google_line JSON_parse st l) = buf st.
Proof.
  unfold google_line. destruct (negb _); [reflexivity|].
  destruct (JSON_parse _) as [v|]; [|reflexivity].
  destruct (opt_prop _ "parts"); try reflexivity. apply google_parts_buf.
Qed.

Lemma google_lines_buf ls : forall st,
  buf (fold_left (google_line JSON_parse) ls st) = buf st.
Proof.
  induction ls as [|l ls IH]; intros st; [reflexivity|].
  cbn [fold_left]. now rewrite IH, google_line_buf.
Qed.

Lemma google_read_aligned st c :
  buf st = "" -> aligned c = true ->
  google_read JSON_parse st c = fold_left (google_line JSON_parse) (split_lf c).1 st.
Proof.
  intros Hb Ha. unfold google_read. rewrite Hb, append_nil_l.
  unfold aligned in Ha. destruct (split_lf c) as [ls rest]. cbn [fst snd] in *.
  destruct rest; [|discriminate].
  rewrite fold_left_app. cbn [fold_left].
  set (st' := fold_left (google_line JSON_parse) ls st).
  assert (Hb' : buf st' = "") by (unfold st'; now rewrite google_lines_buf).
  change (google_line JSON_parse st' "") with st'.
  destruct st'. cbn in Hb'. subst. reflexivity.
Qed.

Lemma google_reads_aligned cs : forall st,
  buf st = "" -> forallb aligned cs = true ->
  fold_left (google_read JSON_parse) cs st
  = fold_left (google_line JSON_parse) (split_lf (joined cs)).1 st.
Proof.
  induction cs as [|c cs IH]; intros st Hb Ha; [reflexivity|].
  cbn [forallb] in Ha. apply andb_true_iff in Ha as [Hc Hcs].
  cbn [fold_left]. rewrite (google_read_aligned st c Hb Hc).
  change (joined (c :: cs)) with (c ++ joined cs).
  rewrite split_lf_app. cbn [fst]. rewrite fold_left_app.
  unfold aligned in Hc. destruct (split_lf c) as [ls rest]. cbn [fst snd] in *.
  destruct rest; [|discriminate]. rewrite append_nil_l.
  apply IH; [|exact Hcs]. now rewrite google_lines_buf.
Qed.

End Google.

End LinesFacts.

Section ReaderLaws.
Import SSE Lines StrFacts SSEFacts LinesFacts.

(** X20. The cutting of a stream into lines loses nothing and is unique:
    the lines that [split('\n')] gives, joined again with line feeds and
    followed by the piece kept in the buffer, are the text that was split;
    no line and no kept piece holds a line feed; and lines and a piece
    without line feeds are found again when their joined text is split. *)
Theorem lines_round_trip (s : string) (ls : list string) (rest : string) :
  unsplit (split_lf s).1 (split_lf s).2 = s
  /\ Forall (fun l => no_lf l = true) (split_lf s).1
  /\ no_lf (split_lf s).2 = true
  /\ (forallb no_lf ls = true -> no_lf rest = true ->
      split_lf (unsplit ls rest) = (ls, rest)).
Proof.
  split; [apply unsplit_split|]. split; [apply split_lf_no_lf|].
  split; [apply split_lf_no_lf|]. intros Hls Hrest.
  apply split_unsplit; [|exact Hrest].
  apply List.Forall_forall. intros l Hl.
  rewrite forallb_forall in Hls. now apply Hls.
Qed.

(** X21. [streamOpenRouter] makes the same calls of [onDelta], in the same
    order, however the response is cut into chunks: two lists of chunks
    that carry the same text give the same calls, and both end with the
    function returned or both with it still reading. *)
Theorem openrouter_chunking_is_invisible (JSON_parse : string -> option jsval)
    (exclude : bool) (cs1 cs2 : list string) :
  joined cs1 = joined cs2 ->
  emitted (streamOpenRouter JSON_parse exclude cs1)
  = emitted (streamOpenRouter JSON_parse exclude cs2)
  /\ finished (streamOpenRouter JSON_parse exclude cs1)
     = finished (streamOpenRouter JSON_parse exclude cs2).
Proof.
  intros H.
  destruct (stream_joined JSON_parse exclude cs1) as (E1 & _ & _ & F1 & _).
  destruct (stream_joined JSON_parse exclude cs2) as (E2 & _ & _ & F2 & _).
  now rewrite E1, E2, F1, F2, H.
Qed.

Lemma openrouter_chunking_is_invisible_witness :
  emitted (streamOpenRouter Json.parse false
             [Json.quoted "data: {'choices':[{'delta':{'con";
              Json.quoted "tent':'hi'}}]}" ++ line_feed])
  = emitted (streamOpenRouter Json.parse false
               [Json.quoted "data: {'choices':[{'delta':{'content':'hi'}}]}" ++ line_feed])
  /\ finished (streamOpenRouter Json.parse false
                 [Json.quoted "data: {'choices':[{'delta':{'con";
                  Json.quoted "tent':'hi'}}]}" ++ line_feed])
     = finished (streamOpenRouter Json.parse false
                   [Json.quoted "data: {'choices':[{'delta':{'content':'hi'}}]}" ++ line_feed]).
Proof.
  apply (openrouter_chunking_is_invisible Json.parse false
           [Json.quoted "data: {'choices':[{'delta':{'con";
            Json.quoted "tent':'hi'}}]}" ++ line_feed]
           [Json.quoted "data: {'choices':[{'delta':{'content':'hi'}}]}" ++ line_feed]).
  reflexivity.
Defined.

(** X22. [streamOpenRouter] stops at the line [data: [DONE]]: when the
    response holds that line after complete lines [pre], the function
    returns, and the calls of [onDelta] are the ones that [pre] alone
    gives, whatever follows the line and however the response is cut into
    chunks. *)
Theorem done_line_ends_the_stream (JSON_parse : string -> option jsval)
    (exclude : bool) (cs : list string) (pre post : string) :
  aligned pre = true ->
  joined cs = pre ++ done_line ++ String LF post ->
  emitted (streamOpenRouter JSON_parse exclude cs)
  = emitted (streamOpenRouter JSON_parse exclude [pre])
  /\ finished (streamOpenRouter JSON_parse exclude cs) = true.
Proof.
  intros Ha Hj.
  destruct (stream_joined JSON_parse exclude cs) as (E & _ & _ & F & _).
  rewrite E, F, Hj. clear E F Hj cs.
  unfold streamOpenRouter. cbn [fold_left].
  rewrite !(read_unfold JSON_parse exclude start) by reflexivity.
  cbn [buf start]. rewrite !append_nil_l.
  rewrite split_lf_app. unfold aligned in Ha.
  destruct (split_lf pre) as [lp rest]. cbn [fst snd] in *.
  destruct rest; [|discriminate]. rewrite append_nil_l.
  rewrite (split_lf_line done_line post eq_refl). cbn [fst snd].
  rewrite fold_left_app. cbn [fold_left emitted finished set_buf].
  set (st1 := fold_left (openrouter_line JSON_parse exclude) lp start).
  assert (Hd : emitted (openrouter_line JSON_parse exclude st1 done_line) = emitted st1
               /\ finished (openrouter_line JSON_parse exclude st1 done_line) = true).
  { unfold openrouter_line. destruct (finished st1) eqn:Hf; [now split|].
    assert (Hs : Str.startsWith "data: " done_line = true) by reflexivity.
    assert (Ht : Str.trim (Str.substring_from 6 done_line) = "[DONE]") by reflexivity.
    rewrite Hs, Ht. cbn [negb]. now rewrite String.eqb_refl. }
  destruct Hd as [He Hf].
  rewrite (lines_finished JSON_parse exclude _ _ Hf). now split.
Qed.

Lemma done_line_ends_the_stream_witness :
  emitted (streamOpenRouter Json.parse false
             [Json.quoted "data: {'choices':[{'delta':{'content':'hi'}}]}" ++ line_feed;
              done_line ++ line_feed
              ++ Json.quoted "data: {'choices':[{'delta':{'content':'late'}}]}" ++ line_feed])
  = emitted (streamOpenRouter Json.parse false
               [Json.quoted "data: {'choices':[{'delta':{'content':'hi'}}]}" ++ line_feed])
  /\ finished (streamOpenRouter Json.parse false
                 [Json.quoted "data: {'choices':[{'delta':{'content':'hi'}}]}" ++ line_feed;
                  done_line ++ line_feed
                  ++ Json.quoted "data: {'choices':[{'delta':{'content':'late'}}]}" ++ line_feed])
     = true.
Proof.
  apply (done_line_ends_the_stream Json.parse false
           [Json.quoted "data: {'choices':[{'delta':{'content':'hi'}}]}" ++ line_feed;
            done_line ++ line_feed
            ++ Json.quoted "data: {'choices':[{'delta':{'content':'late'}}]}" ++ line_feed]
           (Json.quoted "data: {'choices':[{'delta':{'content':'hi'}}]}" ++ line_feed)
           (Json.quoted "data: {'choices':[{'delta':{'content':'late'}}]}" ++ line_feed));
    reflexivity.
Defined.

(** X23. When every chunk of the response ends where a line ends,
    [streamGoogle] visits every line of the response once, in order: its
    calls of [onDelta] are the ones made by one pass over the lines of the
    whole response, and nothing is left in its buffer. *)
Theorem google_aligned_chunks_read_once (JSON_parse : string -> option jsval)
    (cs : list string) :
  forallb aligned cs = true ->
  streamGoogle JSON_parse cs
  = fold_left (google_line JSON_parse) (split_lf (joined cs)).1 start
  /\ buf (streamGoogle JSON_parse cs) = "".
Proof.
  intros Ha. unfold streamGoogle.
  rewrite (google_reads_aligned JSON_parse cs start eq_refl Ha).
  split; [reflexivity|]. now rewrite google_lines_buf.
Qed.

Lemma google_aligned_chunks_read_once_witness :
  emitted (streamGoogle Json.parse [google_frame ++ line_feed; google_frame ++ line_feed])
  = [mkEmit (JStr "hi") JUndef; mkEmit (JStr "hi") JUndef].
Proof.
  rewrite (proj1 (google_aligned_chunks_read_once Json.parse
                    [google_frame ++ line_feed; google_frame ++ line_feed] eq_refl)).
  reflexivity.
Defined.

End ReaderLaws.

(** ** Requests to Google *)

Module ProvidersFacts.
Import Providers.

Lemma last_some_cons (c d : Content) cs :
  List.last (List.map Some (c :: d :: cs)) None = List.last (List.map Some (d :: cs)) None.
Proof. reflexivity. Qed.

Lemma alternating_cons c d cs :
  alternating (c :: d :: cs)
  = (negb (role_eqb (g_role c) (g_role d)) && alternating (d :: cs))%bool.
Proof. reflexivity. Qed.

Lemma push_last acc role parts :
  exists c, List.last (List.map Some (push acc role parts)) None = Some c
            /\ g_role c = role.
Proof.
  induction acc as [|c acc IH]; [now eexists|].
  cbn [push]. destruct acc as [|d acc].
  - destruct (role_eqb (g_role c) role) eqn:E.
    + eexists. split; [reflexivity|]. cbn. now destruct (g_role c), role.
    + now eexists.
  - destruct IH as (x & Hx & Hr). exists x. split; [|exact Hr].
    destruct (push (d :: acc) role parts) as [|y ys] eqn:Ep; [discriminate|].
    rewrite last_some_cons. exact Hx.
Qed.

Lemma push_head c acc role parts :
  exists d ds, push (c :: acc) role parts = d :: ds /\ g_role d = g_role c.
Proof.
  cbn [push]. destruct acc as [|d acc].
  - destruct (role_eqb (g_role c) role); now eexists _, _.
  - now eexists _, _.
Qed.

Lemma push_shape acc role parts :
  negb (length parts =? 0)%nat = true ->
  all_have_parts acc = true -> alternating acc = true ->
  all_have_parts (push acc role parts) = true
  /\ alternating (push acc role parts) = true.
Proof.
  intros Hp. induction acc as [|c acc IH]; intros Ha Hl.
  - cbn. now rewrite Hp.
  - cbn [push]. destruct acc as [|d acc].
    + cbn in Ha. rewrite andb_true_r in Ha.
      destruct (role_eqb (g_role c) role) eqn:E.
      * split; [|reflexivity]. cbn. rewrite andb_true_r, length_app.
        destruct (g_parts c); [discriminate|reflexivity].
      * split; cbn; [now rewrite Ha, Hp|now rewrite E].
    + cbn [all_have_parts forallb] in Ha. apply andb_true_iff in Ha as [Hc Ha].
      rewrite alternating_cons in Hl. apply andb_true_iff in Hl as [Hcd Hl].
      destruct (IH Ha Hl) as [IH1 IH2].
      destruct (push_head d acc role parts) as (y & ys & Ey & Hy).
      split.
      * cbn [all_have_parts forallb]. now rewrite Hc.
      * rewrite Ey in IH2 |- *. now rewrite alternating_cons, Hy, Hcd, IH2.
Qed.

Lemma reduce_step_shape acc m acc' :
  reduce_step acc m = Some acc' ->
  all_have_parts acc = true -> alternating acc = true ->
  all_have_parts acc' = true /\ alternating acc' = true.
Proof.
  unfold reduce_step.
  destruct (Js.prop m "role") as [mrole|]; [|discriminate].
  destruct (Js.prop m "content") as [content|]; [|discriminate].
  destruct (match content with JArr ps => Some ps | _ => _ end) as [ps|]; [|discriminate].
  destruct (map_parts ps) as [parts|]; [|discriminate].
  destruct (length parts =? 0)%nat eqn:E; intros [= <-] Ha Hl; [now split|].
  apply push_shape; [now rewrite E|exact Ha|exact Hl].
Qed.

Lemma reduce_shape ms : forall acc out,
  reduce acc ms = Some out ->
  all_have_parts acc = true -> alternating acc = true ->
  all_have_parts out = true /\ alternating out = true.
Proof.
  induction ms as [|m ms IH]; intros acc out H Ha Hl.
  - injection H as <-. now split.
  - cbn [reduce] in H. destruct (reduce_step acc m) as [acc'|] eqn:E; [|discriminate].
    destruct (reduce_step_shape acc m acc' E Ha Hl) as [Ha' Hl'].
    now apply (IH acc' out).
Qed.

Lemma removelast_shape cs :
  all_have_parts cs = true -> alternating cs = true ->
  all_have_parts (removelast cs) = true /\ alternating (removelast cs) = true.
Proof.
  induction cs as [|c cs IH]; intros Ha Hl; [now split|].
  destruct cs as [|d cs]; [now split|].
  cbn [all_have_parts forallb] in Ha. apply andb_true_iff in Ha as [Hc Ha].
  rewrite alternating_cons in Hl. apply andb_true_iff in Hl as [Hcd Hl].
  destruct (IH Ha Hl) as [IH1 IH2].
  change (removelast (c :: d :: cs)) with (c :: removelast (d :: cs)).
  split.
  - cbn [all_have_parts forallb]. now rewrite Hc.
  - destruct cs as [|x cs]; [reflexivity|].
    change (removelast (d :: x :: cs)) with (d :: removelast (x :: cs)) in *.
    now rewrite alternating_cons, Hcd, IH2.
Qed.

(** After a turn of the model is dropped from the end of alternating
    contents, the last turn left is of the user. *)
Lemma removelast_user cs x :
  alternating cs = true ->
  List.last (List.map Some cs) None = Some x -> g_role x = Model ->
  ends_with_user (removelast cs) = true.
Proof.
  unfold ends_with_user.
  induction cs as [|c cs IH]; intros Hl Hx Hm; [reflexivity|].
  destruct cs as [|d cs]; [reflexivity|].
  rewrite alternating_cons in Hl. apply andb_true_iff in Hl as [Hcd Hl].
  rewrite last_some_cons in Hx.
  change (removelast (c :: d :: cs)) with (c :: removelast (d :: cs)).
  destruct cs as [|y cs].
  - cbn in Hx. injection Hx as <-. cbn. rewrite Hm in Hcd.
    now destruct (g_role c).
  - change (removelast (d :: y :: cs)) with (d :: removelast (y :: cs)) in *.
    rewrite last_some_cons. now apply IH.
Qed.

Lemma slice_substring n s : Text.slice n s ++ Str.substring_from n s = s.
Proof.
  revert s. induction n as [|n IH]; intros [|c s]; try reflexivity.
  cbn [Text.slice Str.substring_from]. now rewrite StrFacts.append_cons, IH.
Qed.

Lemma substring_from_app p s : Str.substring_from (String.length p) (p ++ s) = s.
Proof. induction p as [|c p IH]; [reflexivity|]. now rewrite StrFacts.append_cons. Qed.

Lemma slice_app p s : Text.slice (String.length p) (p ++ s) = p.
Proof.
  induction p as [|c p IH]; [reflexivity|].
  rewrite StrFacts.append_cons. cbn [String.length Text.slice]. now rewrite IH.
Qed.

Lemma length_append p s :
  String.length (p ++ s) = (String.length p + String.length s)%nat.
Proof.
  induction p as [|c p IH]; [reflexivity|].
  rewrite StrFacts.append_cons. cbn [String.length]. now rewrite IH.
Qed.

(** [endsWith] holds of the texts that end with the suffix. *)
Lemma endsWith_spec suffix s :
  Text.endsWith suffix s = true <-> exists p, s = p ++ suffix.
Proof.
  unfold Text.endsWith. split.
  - intros H. apply andb_true_iff in H as [_ H]. apply String.eqb_eq in H.
    exists (Text.slice (String.length s - String.length suffix) s).
    pose proof (slice_substring (String.length s - String.length suffix) s) as Hs.
    rewrite H in Hs. now symmetry.
  - intros [p ->]. rewrite length_append.
    replace (String.length p + String.length suffix - String.length suffix)%nat
      with (String.length p) by lia.
    rewrite substring_from_app, String.eqb_refl, andb_true_r.
    apply Nat.leb_le. lia.
Qed.

End ProvidersFacts.

Section ProvidersLaws.
Import Providers ProvidersFacts.

(** X24. The contents that [mapToGoogleContents] builds, whenever it
    returns: every content has at least one part, consecutive contents
    have different roles (messages of one role in a row are merged, and
    messages without a usable part are skipped), and the contents are
    empty or end with a turn of the user (a last turn of the model is
    dropped). *)
Theorem google_contents_alternate (messages : list jsval) (cs : list Content) :
  mapToGoogleContents messages = Some cs ->
  all_have_parts cs = true /\ alternating cs = true /\ ends_with_user cs = true.
Proof.
  unfold mapToGoogleContents.
  destruct (reduce [] messages) as [out|] eqn:E; [|discriminate].
  intros [= <-].
  destruct (reduce_shape messages [] out E eq_refl eq_refl) as [Ha Hl].
  unfold drop_last_model.
  destruct (List.last (List.map Some out) None) as [x|] eqn:Ex.
  - destruct (role_eqb (g_role x) User) eqn:Er.
    + split; [exact Ha|]. split; [exact Hl|]. unfold ends_with_user. now rewrite Ex.
    + destruct (removelast_shape out Ha Hl) as [Ha' Hl'].
      split; [exact Ha'|]. split; [exact Hl'|].
      apply (removelast_user out x Hl Ex). now destruct (g_role x).
  - split; [exact Ha|]. split; [exact Hl|]. unfold ends_with_user. now rewrite Ex.
Qed.

Lemma google_contents_alternate_witness :
  mapToGoogleContents
    [JObj [("role", JStr "user"); ("content", JStr "a")];
     JObj [("role", JStr "user"); ("content", JStr "b")];
     JObj [("role", JStr "assistant"); ("content", JStr "c")]]
  = Some [mkContent User [PText (JStr "a"); PText (JStr "b")]]
  /\ all_have_parts [mkContent User [PText (JStr "a"); PText (JStr "b")]] = true
  /\ alternating [mkContent User [PText (JStr "a"); PText (JStr "b")]] = true
  /\ ends_with_user [mkContent User [PText (JStr "a"); PText (JStr "b")]] = true.
Proof.
  split; [reflexivity|].
  apply (google_contents_alternate
           [JObj [("role", JStr "user"); ("content", JStr "a")];
            JObj [("role", JStr "user"); ("content", JStr "b")];
            JObj [("role", JStr "assistant"); ("content", JStr "c")]]).
  reflexivity.
Defined.

(** X25. The [:online] suffix of a Google model name: the search tool is
    added to the request exactly when the name ends with [:online], and the
    model asked for is then the name without that one suffix; any other
    name is asked for as it is. *)
Theorem online_suffix_is_split_off (model : string) :
  (with_search model = true <-> exists p, model = p ++ ":online")
  /\ (forall p, strip_online (p ++ ":online") = p)
  /\ (with_search model = false -> strip_online model = model).
Proof.
  unfold with_search, strip_online. split; [apply endsWith_spec|]. split.
  - intros p. rewrite (proj2 (endsWith_spec ":online" (p ++ ":online"))) by eauto.
    rewrite length_append.
    replace (String.length p + String.length ":online" - 7)%nat
      with (String.length p) by (cbn; lia).
    apply slice_app.
  - intros ->. reflexivity.
Qed.

End ProvidersLaws.

(** ** The listener *)

Module ServerFacts.
Import Coordinator Server.

Lemma length_slice n s : (String.length (Text.slice n s) <= n)%nat.
Proof.
  revert s. induction n as [|n IH]; intros [|c s]; cbn; try lia.
  specialize (IH s). lia.
Qed.

Lemma length_keep f s : (String.length (Text.keep f s) <= String.length s)%nat.
Proof.
  induction s as [|c s IH]; cbn; [lia|]. destruct (f c); cbn; lia.
Qed.

Lemma all_keep f s : Text.all f (Text.keep f s) = true.
Proof.
  induction s as [|c s IH]; [reflexivity|]. cbn [Text.keep].
  destruct (f c) eqn:E; [|exact IH]. cbn [Text.all]. now rewrite E.
Qed.

Lemma keep_all f s : Text.all f s = true -> Text.keep f s = s.
Proof.
  induction s as [|c s IH]; [reflexivity|]. cbn [Text.all Text.keep].
  intros H. apply andb_true_iff in H as [Hc Hs]. now rewrite Hc, IH.
Qed.

Lemma slice_short n s : (String.length s <= n)%nat -> Text.slice n s = s.
Proof.
  revert s. induction n as [|n IH]; intros [|c s]; cbn; try reflexivity; try lia.
  intros H. rewrite IH; [reflexivity|lia].
Qed.

Lemma all_impl (f g : ascii -> bool) s :
  (forall c, f c = true -> g c = true) -> Text.all f s = true -> Text.all g s = true.
Proof.
  intros Hfg. induction s as [|c s IH]; [reflexivity|]. cbn [Text.all].
  intros H. apply andb_true_iff in H as [Hc Hs]. now rewrite (Hfg c Hc), IH.
Qed.

Lemma uid_char_plain c :
  uid_char c = true ->
  (negb (Ascii.eqb c "*") && negb (Ascii.eqb c "?") && negb (Ascii.eqb c "[")
   && negb (Ascii.eqb c ":"))%bool = true.
Proof.
  intros H.
  destruct (Ascii.eqb_spec c "*") as [->|_]; [discriminate|].
  destruct (Ascii.eqb_spec c "?") as [->|_]; [discriminate|].
  destruct (Ascii.eqb_spec c "[") as [->|_]; [discriminate|].
  destruct (Ascii.eqb_spec c ":") as [->|_]; [discriminate|]. reflexivity.
Qed.

Lemma uid_plain s : Text.all uid_char s = true -> KV.plain s = true.
Proof.
  induction s as [|c s IH]; [reflexivity|]. cbn [Text.all KV.plain].
  intros H. apply andb_true_iff in H as [Hc Hs].
  apply uid_char_plain in Hc. repeat (apply andb_true_iff in Hc as [Hc ?]).
  rewrite Hc, IH by exact Hs.
  repeat match goal with H : _ = true |- _ => rewrite H; clear H end. reflexivity.
Qed.

Lemma uid_colon_free s : Text.all uid_char s = true -> Keyspace.colon_free s = true.
Proof.
  induction s as [|c s IH]; [reflexivity|]. cbn [Text.all Keyspace.colon_free].
  intros H. apply andb_true_iff in H as [Hc Hs].
  apply uid_char_plain in Hc. apply andb_true_iff in Hc as [_ Hc].
  now rewrite Hc, IH.
Qed.

Lemma clean_uid_length param : (String.length (clean_uid param) <= 64)%nat.
Proof. unfold clean_uid. etransitivity; [apply length_keep|apply length_slice]. Qed.

Lemma clean_uid_chars param : Text.all uid_char (clean_uid param) = true.
Proof. unfold clean_uid. apply all_keep. Qed.

End ServerFacts.

Section ServerLaws.
Import Coordinator Server ServerFacts.

(** X26. The uid that the listener passes on is taken from the first 64
    characters of the [uid] parameter and keeps the letters, digits, [_]
    and [-] among them: it has at most 64 characters, all of that kind, so
    it holds no colon and no [GLOB] character; a parameter that is already
    of that form is passed on as it is, and cleaning twice is cleaning
    once. *)
Theorem uid_is_cleaned (param : option string) :
  (String.length (clean_uid param) <= 64)%nat
  /\ Text.all uid_char (clean_uid param) = true
  /\ KV.plain (clean_uid param) = true
  /\ Keyspace.colon_free (clean_uid param) = true
  /\ clean_uid (Some (clean_uid param)) = clean_uid param
  /\ (forall uid, valid_uid uid = true -> clean_uid (Some uid) = uid).
Proof.
  pose proof (clean_uid_length param) as Hlen.
  pose proof (clean_uid_chars param) as Hall.
  assert (Hvalid : forall s, (String.length s <= 64)%nat ->
                     Text.all uid_char s = true -> clean_uid (Some s) = s).
  { intros s Hl Ha. unfold clean_uid.
    change (default "" (Some s)) with s.
    now rewrite (slice_short 64 s Hl), keep_all. }
  split; [exact Hlen|]. split; [exact Hall|].
  split; [now apply uid_plain|]. split; [now apply uid_colon_free|].
  split; [now apply Hvalid|].
  intros uid Hv. unfold valid_uid in Hv.
  apply andb_true_iff in Hv as [Hv Ha]. apply andb_true_iff in Hv as [_ Hl].
  apply Hvalid; [now apply Nat.leb_le|exact Ha].
Qed.

(** X27. What [fetch] lets through. A preflight ([OPTIONS], in any case of
    letters) is answered before any check. Any other request reaches the
    coordinator only as a socket upgrade or as a poll, and then only if its
    [Origin], when it has one, is allowed, its path is [/ws] and its
    cleaned uid is not empty; the uid handed to the socket or polled is the
    cleaned one, which is a valid uid; a poll is a [GET] that was not
    upgraded and answers with the view of [handlePoll]; and every refusal
    leaves the world as it was. *)
Theorem fetch_lets_through (hostname : string -> option string)
    (req : Request) (w : World) :
  let uid := clean_uid (q_uid req) in
  let reply := (Server.fetch hostname req w).1 in
  let w' := (Server.fetch hostname req w).2 in
  (Text.toUpperCase (q_method req) = "OPTIONS" -> reply = Preflight /\ w' = w)
  /\ (forall u, reply = Upgraded u ->
        u = uid /\ valid_uid u = true /\ q_upgrade req = true
        /\ forbidden hostname (q_origin req) = false
        /\ q_pathname req = "/ws" /\ w' = w)
  /\ (forall view, reply = Polled view ->
        valid_uid uid = true /\ (view, w') = handlePoll uid w
        /\ Text.toUpperCase (q_method req) = "GET" /\ q_upgrade req = false
        /\ forbidden hostname (q_origin req) = false
        /\ q_pathname req = "/ws")
  /\ (forall status error, reply = Refused status error -> w' = w).
Proof.
  cbv zeta. unfold Server.fetch.
  assert (Hv : Str.is_empty (clean_uid (q_uid req)) = false ->
               valid_uid (clean_uid (q_uid req)) = true).
  { intros He. unfold valid_uid. rewrite He.
    rewrite (clean_uid_chars (q_uid req)).
    rewrite (proj2 (Nat.leb_le _ _) (clean_uid_length (q_uid req))). reflexivity. }
  destruct (String.eqb_spec (Text.toUpperCase (q_method req)) "OPTIONS") as [Ho|Ho].
  { cbn [fst snd]. repeat split; discriminate. }
  split; [intros H; contradiction|].
  destruct (forbidden hostname (q_origin req)) eqn:Ef.
  { cbn [fst snd]. repeat split; discriminate. }
  destruct (String.eqb_spec (q_pathname req) "/ws") as [Hp|Hp]; cbn [negb].
  2:{ cbn [fst snd]. repeat split; discriminate. }
  destruct (Str.is_empty (clean_uid (q_uid req))) eqn:He.
  { cbn [fst snd]. repeat split; discriminate. }
  specialize (Hv eq_refl).
  destruct (q_upgrade req) eqn:Eu.
  { cbn [fst snd]. split; [|split; [discriminate|reflexivity]].
    intros u [= <-]. repeat split; assumption. }
  destruct (String.eqb_spec (Text.toUpperCase (q_method req)) "GET") as [Hg|Hg].
  2:{ cbn [fst snd]. repeat split; discriminate. }
  destruct (handlePoll (clean_uid (q_uid req)) w) as [view w1]. cbn [fst snd].
  split; [discriminate|]. split; [|discriminate].
  intros v [= <-]. repeat split; assumption.
Qed.

(** X28. The origins that are let through: a request with an [Origin]
    header that is not empty is refused with 403 unless the header parses
    as a URL whose host name is [sune.planetrenox.com] or [sune.chat] or
    ends with [.github.io]; a request without the header is never refused
    for its origin. *)
Theorem origin_is_checked (hostname : string -> option string) (origin : string) :
  forbidden hostname None = false
  /\ forbidden hostname (Some "") = false
  /\ (origin <> "" ->
      (forbidden hostname (Some origin) = false
       <-> exists h, hostname origin = Some h
                     /\ (h = "sune.planetrenox.com" \/ h = "sune.chat"
                         \/ exists p, h = p ++ ".github.io"))).
Proof.
  split; [reflexivity|]. split; [reflexivity|]. intros Hne.
  unfold forbidden, isAllowed, str_truthy.
  destruct origin as [|c o]; [contradiction|]. cbn [Str.is_empty negb andb].
  destruct (hostname (String c o)) as [h|].
  - cbn [ALLOWED_ORIGINS existsb].
    rewrite negb_false_iff, orb_false_r, !orb_true_iff, !String.eqb_eq.
    rewrite !ProvidersFacts.endsWith_spec. split.
    + intros H. exists h. split; [reflexivity|]. tauto.
    + intros (h' & [= <-] & H). tauto.
  - cbn. split; [discriminate|]. intros (h & H & _). discriminate.
Qed.

End ServerLaws.

Module DataUrlFacts.
Import Providers ProvidersFacts.

Lemma prefix_split p s :
  String.prefix p s = true -> s = p ++ Str.substring_from (String.length p) s.
Proof.
  revert s. induction p as [|c p IH]; intros s H; [reflexivity|].
  destruct s as [|d s]; [discriminate|].
  rewrite StrFacts.prefix_cons in H. apply andb_true_iff in H as [Hc Hp].
  apply Ascii.eqb_eq in Hc. subst d.
  cbn [String.length Str.substring_from]. rewrite StrFacts.append_cons.
  f_equal. now apply IH.
Qed.

Lemma span_word_split s :
  s = (span_word s).1 ++ (span_word s).2 /\ Text.all is_word (span_word s).1 = true.
Proof.
  induction s as [|c s [IH1 IH2]]; [now split|].
  cbn [span_word]. destruct (is_word c) eqn:E; [|now split].
  destruct (span_word s) as [w rest]. cbn [fst snd] in *.
  rewrite StrFacts.append_cons, <- IH1. cbn [Text.all]. now rewrite E, IH2.
Qed.

Lemma span_word_stop w c t :
  Text.all is_word w = true -> is_word c = false ->
  span_word (w ++ String c t) = (w, String c t).
Proof.
  intros Hw Hc. induction w as [|d w IH].
  - rewrite StrFacts.append_nil_l. cbn [span_word]. now rewrite Hc.
  - cbn [Text.all] in Hw. apply andb_true_iff in Hw as [Hd Hw].
    rewrite StrFacts.append_cons. cbn [span_word]. now rewrite Hd, (IH Hw).
Qed.

End DataUrlFacts.

Section DataUrlLaws.
Import Providers ProvidersFacts DataUrlFacts.

(** X29. The pattern that [mapToGoogleContents] reads an inline image with
    takes a data URL apart and nothing else: it matches exactly the texts
    [data:image/<w>;base64,<data>] with [<w>] a non-empty run of word
    characters and [<data>] free of line terminators, and the two groups
    are [image/<w>] and [<data>], so that the URL is put together again
    from the mime type and the data that are forwarded. *)
Theorem data_url_round_trip (url mime data : string) :
  match_data_url url = Some (mime, data)
  <-> exists w,
        Str.is_empty w = false /\ Text.all is_word w = true
        /\ one_line data = true /\ mime = "image/" ++ w
        /\ url = "data:" ++ mime ++ ";base64," ++ data.
Proof.
  unfold match_data_url. split.
  - destruct (String.prefix "data:image/" url) eqn:Ep; [|discriminate]. cbn [negb].
    apply prefix_split in Ep. cbn [String.length] in Ep.
    destruct (span_word_split (Str.substring_from 11 url)) as [Hs Hw].
    destruct (span_word (Str.substring_from 11 url)) as [w rest]. cbn [fst snd] in *.
    destruct (Str.is_empty w) eqn:Ew; [discriminate|].
    destruct (String.prefix ";base64," rest) eqn:Eb; [|discriminate]. cbn [negb].
    apply prefix_split in Eb. cbn [String.length] in Eb.
    destruct (one_line (Str.substring_from 8 rest)) eqn:El; [|discriminate].
    intros [= <- <-]. exists w. repeat split; try assumption.
    rewrite Ep at 1. rewrite Hs, Eb at 1.
    change ("data:" ++ ("image/" ++ w) ++ ";base64," ++ Str.substring_from 8 rest)
      with ("data:image/" ++ (w ++ ";base64," ++ Str.substring_from 8 rest)).
    reflexivity.
  - intros (w & Ew & Hw & Hl & -> & ->).
    change ("data:" ++ ("image/" ++ w) ++ ";base64," ++ data)
      with ("data:image/" ++ (w ++ ";base64," ++ data)).
    rewrite StrFacts.prefix_append. cbn [negb].
    change 11%nat with (String.length "data:image/").
    rewrite substring_from_app.
    change (";base64," ++ data) with (String ";" ("base64," ++ data)).
    rewrite (span_word_stop w ";" _ Hw eq_refl), Ew.
    change (String ";" ("base64," ++ data)) with (";base64," ++ data).
    rewrite StrFacts.prefix_append. cbn [negb].
    change 8%nat with (String.length ";base64,").
    now rewrite substring_from_app, Hl.
Qed.

End DataUrlLaws.
